(** * Trace debug tool: ingestion, context builder, diagnostics

    A shallow embedding of the trace command of the [lambda] CLI
    (the E2E trace debug tool): the JSONL line parser, the context
    builder [parseTrace], the nearest-screenshot search, the summary
    projection and the diagnostic engine [getDiagnoseResults], followed
    by the properties that the specification states about them.

    Conventions of the embedding.
    - A JavaScript string is the list of its UTF-16 code units
      ([jsstring]); string literals of this file are ASCII and are read
      through the coercion [lit].
    - A JavaScript number that holds a time stamp, an index or a count is
      an integer ([Z]); time stamps are integral milliseconds. The time
      of modification of a file, which may have a fraction of a
      millisecond, is a rational ([Q]).
    - [x?: T] is [option T]; [undefined] is [None].
    - [console.error] is a writer effect: an effectful function returns
      its value together with the lines it wrote.
    - The built-ins of the platform that the tool calls ([fs], [path])
      are the fields of the class [Node]; [JSON.parse] and the regular
      expressions are given a reference implementation below. *)

From Stdlib Require Import ZArith NArith QArith Qround List Lia Bool String Ascii.
From stdpp Require Import base option list sorting gmap pretty.

Local Open Scope Z_scope.

(** ** Strings *)

Module Str.

Definition code_unit := N.
Definition jsstring := list N.

(** An ASCII literal as a sequence of code units. *)
Definition lit (s : string) : jsstring :=
  List.map N_of_ascii (list_ascii_of_string s).

(** [s.startsWith(p)] *)
Fixpoint startsWith (s p : jsstring) {struct p} : bool :=
  match p, s with
  | [], _ => true
  | _ :: _, [] => false
  | c :: p', d :: s' => N.eqb c d && startsWith s' p'
  end.

(** [s.includes(p)] *)
Fixpoint includes (s p : jsstring) : bool :=
  startsWith s p ||
  match s with
  | [] => false
  | _ :: s' => includes s' p
  end.

(** [s.split(sep)] for a separator of one code unit. *)
Fixpoint split (sep : N) (s : jsstring) : list jsstring :=
  match s with
  | [] => [[]]
  | c :: s' =>
      if N.eqb c sep then [] :: split sep s'
      else match split sep s' with
           | [] => [[c]]
           | l :: ls => (c :: l) :: ls
           end
  end.

(** WhiteSpace and LineTerminator code units of ECMAScript: what
    [trim] strips and what [\s] matches. *)
Definition isWhiteSpace (c : N) : bool :=
  ((9 <=? c) && (c <=? 13) || N.eqb c 32 || N.eqb c 160 || N.eqb c 5760
   || (8192 <=? c) && (c <=? 8202) || N.eqb c 8232 || N.eqb c 8233
   || N.eqb c 8239 || N.eqb c 8287 || N.eqb c 12288 || N.eqb c 65279)%N.

Fixpoint trimStart (s : jsstring) : jsstring :=
  match s with
  | c :: s' => if isWhiteSpace c then trimStart s' else s
  | [] => []
  end.

(** [s.trim()] *)
Definition trim (s : jsstring) : jsstring :=
  rev (trimStart (rev (trimStart s))).

(** Truthiness of a string: it is not empty. *)
Definition truthy (s : jsstring) : bool :=
  match s with [] => false | _ => true end.

(** [a || b] on strings *)
Definition or_else (a b : jsstring) : jsstring :=
  if truthy a then a else b.

(** Decimal rendering of a number inside a template literal. *)
Definition ofZ (z : Z) : jsstring := lit (pretty z).

(** Comparison of strings by code units: the order of the default
    [Array.prototype.sort]. *)
Fixpoint leb (a b : jsstring) : bool :=
  match a, b with
  | [], _ => true
  | _ :: _, [] => false
  | c :: a', d :: b' =>
      if N.ltb c d then true else if N.ltb d c then false else leb a' b'
  end.

End Str.

Export Str.
Coercion lit : string >-> jsstring.

(** ** Arrays *)

Module Arr.

Section Slice.
Context {A : Type}.

(** The clamping of a relative index of [slice]. *)
Definition relIndex (len i : Z) : Z :=
  if i <? 0 then Z.max (len + i) 0 else Z.min i len.

(** [l.slice(from, to)], negative indices counting from the end. *)
Definition slice (l : list A) (from to : Z) : list A :=
  let len := Z.of_nat (length l) in
  let k := relIndex len from in
  let final := relIndex len to in
  take (Z.to_nat (final - k)) (drop (Z.to_nat k) l).

(** [l[i]] *)
Definition at_ (l : list A) (i : Z) : option A :=
  if i <? 0 then None else l !! Z.to_nat i.

(** [l.find(p)] *)
Fixpoint find (p : A -> bool) (l : list A) : option A :=
  match l with
  | [] => None
  | x :: l' => if p x then Some x else find p l'
  end.

(** [l.some(p)] *)
Definition some (p : A -> bool) (l : list A) : bool := existsb p l.

(** Insertion into a list that is sorted for [le]: the new element
    goes in front of the first element that it does not follow, so
    before the elements that compare equal to it. *)
Fixpoint insertSorted (le : A -> A -> bool) (x : A) (l : list A) : list A :=
  match l with
  | [] => [x]
  | y :: l' => if le x y then x :: l else y :: insertSorted le x l'
  end.

(** [l.sort(cmp)]: the sort of ECMAScript is stable, so for a
    comparator that is a total preorder the result is the one of
    any stable sort; [le a b] stands for [cmp(a, b) <= 0]. Elements
    are inserted from the last one to the first one, each in front
    of its equals, which keeps equal elements in their order. *)
Definition sort (le : A -> A -> bool) (l : list A) : list A :=
  foldr (insertSorted le) [] l.

End Slice.

End Arr.

Export Arr.

(** ** JSON values and [JSON.parse] *)

Module Json.

(** A JSON number [mantissa * 10 ^ exponent]. *)
Record number := Num { mantissa : Z; exponent : Z }.

#[warnings="-register-all"]
Inductive json :=
| JNull
| JBool (b : bool)
| JNum (n : number)
| JStr (s : jsstring)
| JArr (items : list json)
| JObj (members : list (jsstring * json)).

(** The integer that a number denotes, when it denotes one. *)
Definition toZ (n : number) : option Z :=
  if 0 <=? exponent n then Some (mantissa n * 10 ^ exponent n)
  else
    let d := 10 ^ (- exponent n) in
    if mantissa n mod d =? 0 then Some (mantissa n / d) else None.

(** [o[key]] on the object that [JSON.parse] builds: of two members
    with the same key the later one is kept. *)
Fixpoint member (key : jsstring) (ms : list (jsstring * json)) : option json :=
  match ms with
  | [] => None
  | (k, v) :: ms' =>
      match member key ms' with
      | Some v' => Some v'
      | None => if decide (k = key) then Some v else None
      end
  end.

Definition get (key : jsstring) (v : json) : option json :=
  match v with
  | JObj ms => member key ms
  | _ => None
  end.

Definition getStr (key : jsstring) (v : json) : option jsstring :=
  match get key v with
  | Some (JStr s) => Some s
  | _ => None
  end.

Definition getZ (key : jsstring) (v : json) : option Z :=
  match get key v with
  | Some (JNum n) => toZ n
  | _ => None
  end.

(** *** The grammar of ECMA-404 *)

(** JSON white space: tab, line feed, carriage return, space. *)
Definition isWs (c : N) : bool :=
  (N.eqb c 9 || N.eqb c 10 || N.eqb c 13 || N.eqb c 32)%N.

Fixpoint skipWs (s : jsstring) : jsstring :=
  match s with
  | c :: s' => if isWs c then skipWs s' else s
  | [] => []
  end.

Definition digit (c : N) : option Z :=
  if ((48 <=? c) && (c <=? 57))%N then Some (Z.of_N c - 48) else None.

Definition hexDigit (c : N) : option N :=
  if ((48 <=? c) && (c <=? 57))%N then Some (c - 48)%N
  else if ((65 <=? c) && (c <=? 70))%N then Some (c - 55)%N
  else if ((97 <=? c) && (c <=? 102))%N then Some (c - 87)%N
  else None.

(** A maximal run of digits: its value, its length, the rest. *)
Fixpoint digits (acc : Z) (count : Z) (s : jsstring) : Z * Z * jsstring :=
  match s with
  | c :: s' =>
      match digit c with
      | Some d => digits (10 * acc + d) (count + 1) s'
      | None => (acc, count, s)
      end
  | [] => (acc, count, s)
  end.

(** [int]: a zero, or a digit from 1 to 9 and more digits. *)
Definition intPart (s : jsstring) : option (Z * jsstring) :=
  match s with
  | 48%N :: s' => Some (0, s')
  | c :: _ =>
      match digit c with
      | Some _ => let '(v, _, r) := digits 0 0 s in Some (v, r)
      | None => None
      end
  | [] => None
  end.

(** [frac]: nothing, or a point and one digit at least. *)
Definition fracPart (s : jsstring) : option (Z * Z * jsstring) :=
  match s with
  | 46%N :: s' =>
      let '(v, k, r) := digits 0 0 s' in
      if k =? 0 then None else Some (v, k, r)
  | _ => Some (0, 0, s)
  end.

(** [exp]: nothing, or [e] or [E], a sign, one digit at least. *)
Definition expPart (s : jsstring) : option (Z * jsstring) :=
  let body (neg : bool) (s' : jsstring) :=
    let '(v, k, r) := digits 0 0 s' in
    if k =? 0 then None else Some (if neg then - v else v, r) in
  match s with
  | c :: s' =>
      if (N.eqb c 101 || N.eqb c 69)%N then
        match s' with
        | 43%N :: s'' => body false s''
        | 45%N :: s'' => body true s''
        | _ => body false s'
        end
      else Some (0, s)
  | [] => Some (0, s)
  end.

Definition numberLit (s : jsstring) : option (number * jsstring) :=
  let '(neg, s1) := match s with 45%N :: s' => (true, s') | _ => (false, s) end in
  '(i, s2) ← intPart s1;
  '(f, k, s3) ← fracPart s2;
  '(e, s4) ← expPart s3;
  let m := i * 10 ^ k + f in
  Some (Num (if neg then - m else m) (e - k), s4).

(** The characters of a string after its opening quote. *)
Fixpoint stringBody (fuel : nat) (s : jsstring) : option (jsstring * jsstring) :=
  match fuel with
  | O => None
  | S fuel' =>
      match s with
      | [] => None
      | 34%N :: r => Some ([], r)
      | 92%N :: e :: r =>
          let simple (c : N) :=
            '(t, r') ← stringBody fuel' r; Some (c :: t, r') in
          match e with
          | 34%N => simple 34%N
          | 92%N => simple 92%N
          | 47%N => simple 47%N
          | 98%N => simple 8%N
          | 102%N => simple 12%N
          | 110%N => simple 10%N
          | 114%N => simple 13%N
          | 116%N => simple 9%N
          | 117%N =>
              match r with
              | a :: b :: c :: d :: r' =>
                  a ← hexDigit a; b ← hexDigit b; c ← hexDigit c; d ← hexDigit d;
                  '(t, r'') ← stringBody fuel' r';
                  Some ((((a * 16 + b) * 16 + c) * 16 + d)%N :: t, r'')
              | _ => None
              end
          | _ => None
          end
      | 92%N :: [] => None
      | c :: r =>
          if (c <? 32)%N then None
          else '(t, r') ← stringBody fuel' r; Some (c :: t, r')
      end
  end.

Definition stringLit (s : jsstring) : option (jsstring * jsstring) :=
  match s with
  | 34%N :: r => stringBody (S (length r)) r
  | _ => None
  end.

(** A value, the elements of an array after the first bracket and the
    members of an object after the first brace. The fuel bounds the
    number of nested calls; [parse] gives enough of it for the text. *)
Fixpoint value (fuel : nat) (s : jsstring) : option (json * jsstring) :=
  match fuel with
  | O => None
  | S fuel' =>
      let s := skipWs s in
      match s with
      | 123%N :: r =>
          match skipWs r with
          | 125%N :: r' => Some (JObj [], r')
          | _ => '(ms, r') ← members fuel' r; Some (JObj ms, r')
          end
      | 91%N :: r =>
          match skipWs r with
          | 93%N :: r' => Some (JArr [], r')
          | _ => '(vs, r') ← elements fuel' r; Some (JArr vs, r')
          end
      | 34%N :: _ => '(t, r) ← stringLit s; Some (JStr t, r)
      | _ =>
          if startsWith s "true" then Some (JBool true, drop 4 s)
          else if startsWith s "false" then Some (JBool false, drop 5 s)
          else if startsWith s "null" then Some (JNull, drop 4 s)
          else '(n, r) ← numberLit s; Some (JNum n, r)
      end
  end
with elements (fuel : nat) (s : jsstring) : option (list json * jsstring) :=
  match fuel with
  | O => None
  | S fuel' =>
      '(v, r) ← value fuel' s;
      match skipWs r with
      | 44%N :: r' => '(vs, r'') ← elements fuel' r'; Some (v :: vs, r'')
      | 93%N :: r' => Some ([v], r')
      | _ => None
      end
  end
with members (fuel : nat) (s : jsstring)
    : option (list (jsstring * json) * jsstring) :=
  match fuel with
  | O => None
  | S fuel' =>
      '(k, r) ← stringLit (skipWs s);
      match skipWs r with
      | 58%N :: r1 =>
          '(v, r2) ← value fuel' r1;
          match skipWs r2 with
          | 44%N :: r3 => '(ms, r4) ← members fuel' r3; Some ((k, v) :: ms, r4)
          | 125%N :: r3 => Some ([(k, v)], r3)
          | _ => None
          end
      | _ => None
      end
  end.

(** [JSON.parse(text)]: [None] when it throws a [SyntaxError]. *)
Definition parse (text : jsstring) : option json :=
  '(v, r) ← value (2 * length text + 2) text;
  match skipWs r with
  | [] => Some v
  | _ => None
  end.

End Json.

Import Json.

(** JSON text is written below with single quotes in place of the
    double quotes of the format. *)
Definition dq (s : string) : jsstring :=
  List.map (fun c => if N.eqb c 39 then 34%N else c) (lit s).

(** ** Regular expressions *)

Module Regex.

(** The syntax that the patterns of the tool use. *)
Inductive regex :=
| Empty
| Chr (c : N)
| Dot
| Digit
| Space
| AnyChar
| Seq (r1 r2 : regex)
| Alt (r1 r2 : regex)
| Star (greedy : bool) (r : regex)
| Group (i : nat) (r : regex)
| Bol
| Eol.

(** A pattern and its [i] flag. *)
Record RegExp := {
  source : regex;
  ignoreCase : bool;
}.

Fixpoint str (s : jsstring) : regex :=
  match s with
  | [] => Empty
  | [c] => Chr c
  | c :: s' => Seq (Chr c) (str s')
  end.

Definition seq (rs : list regex) : regex := foldr Seq Empty rs.

(** [r+] *)
Definition plus (r : regex) : regex := Seq r (Star true r).

(** [.*] *)
Definition anything : regex := Star true Dot.

(** The captures of a match, the most recent first; group 0 is the
    whole match. *)
Definition captures := list (nat * jsstring).

Fixpoint capture (i : nat) (caps : captures) : option jsstring :=
  match caps with
  | [] => None
  | (j, t) :: caps' => if Nat.eqb i j then Some t else capture i caps'
  end.

(** Canonicalize of a pattern without the [u] flag, on the code units
    that can be equal to the canonical form of an ASCII character: a
    code unit above 127 never folds to one below 128. *)
Definition canonicalize (ignore : bool) (c : N) : N :=
  if (ignore && (97 <=? c) && (c <=? 122))%N then (c - 32)%N else c.

Definition isLineTerminator (c : N) : bool :=
  (N.eqb c 10 || N.eqb c 13 || N.eqb c 8232 || N.eqb c 8233)%N.

Definition orElse {A} (a b : option A) : option A :=
  match a with Some _ => a | None => b end.

Section Matcher.
Variable ignore : bool.

Definition single (p : N -> bool) (s : jsstring) (caps : captures)
    (k : bool -> jsstring -> captures -> option captures) : option captures :=
  match s with
  | c :: s' => if p c then k false s' caps else None
  | [] => None
  end.

(** The backtracking matcher of the language specification, in
    continuation-passing style: [atStart] tells that no character has
    been passed yet, [s] is what is left of the input. An iteration of a
    star that consumes nothing is rejected. *)
Fixpoint matcher (r : regex) (atStart : bool) (s : jsstring) (caps : captures)
    (k : bool -> jsstring -> captures -> option captures) : option captures :=
  match r with
  | Empty => k atStart s caps
  | Chr c =>
      single (fun x => N.eqb (canonicalize ignore x) (canonicalize ignore c)) s caps k
  | Dot => single (fun x => negb (isLineTerminator x)) s caps k
  | Digit => single (fun x => (48 <=? x) && (x <=? 57))%N s caps k
  | Space => single isWhiteSpace s caps k
  | AnyChar => single (fun _ => true) s caps k
  | Seq r1 r2 =>
      matcher r1 atStart s caps (fun a' s' caps' => matcher r2 a' s' caps' k)
  | Alt r1 r2 =>
      orElse (matcher r1 atStart s caps k) (matcher r2 atStart s caps k)
  | Star greedy r' =>
      (fix loop (fuel : nat) (atStart : bool) (s : jsstring) (caps : captures)
           {struct fuel} : option captures :=
         match fuel with
         | O => k atStart s caps
         | S fuel' =>
             let again :=
               matcher r' atStart s caps (fun a' s' caps' =>
                 if (length s' <? length s)%nat then loop fuel' a' s' caps'
                 else None) in
             let stop := k atStart s caps in
             if greedy then orElse again stop else orElse stop again
         end) (S (length s)) atStart s caps
  | Group i r' =>
      matcher r' atStart s caps (fun a' s' caps' =>
        k a' s' ((i, take (length s - length s') s) :: caps'))
  | Bol => if atStart then k atStart s caps else None
  | Eol => match s with [] => k atStart s caps | _ => None end
  end.

(** The first start position, from the left, that has a match. *)
Fixpoint search (r : regex) (atStart : bool) (s : jsstring) : option captures :=
  match matcher (Group 0 r) atStart s [] (fun _ _ caps => Some caps) with
  | Some caps => Some caps
  | None =>
      match s with
      | [] => None
      | _ :: s' => search r false s'
      end
  end.

End Matcher.

(** [s.match(re)] for a pattern without the [g] flag. *)
Definition exec (re : RegExp) (s : jsstring) : option captures :=
  search (ignoreCase re) (source re) true s.

(** [re.test(s)] *)
Definition test (re : RegExp) (s : jsstring) : bool :=
  match exec re s with Some _ => true | None => false end.

End Regex.

Import Regex.

(** ** The platform *)

(** The functions of [fs] and [path] that the tool calls. [readFile]
    gives the UTF-8 text of a regular file and [None] where there is
    none; every read of the tool is guarded by [existsSync]. *)
Class Node := {
  readFile : jsstring -> option jsstring;
  readdirSync : jsstring -> list jsstring;
  path_join : jsstring -> jsstring -> jsstring;
  path_dirname : jsstring -> jsstring;
  path_basename : jsstring -> jsstring;
}.

(** [fs.existsSync(p)] *)
Definition existsSync `{Node} (p : jsstring) : bool :=
  match readFile p with Some _ => true | None => false end.

(** [fs.readFileSync(p, "utf-8")] *)
Definition readFileSync `{Node} (p : jsstring) : jsstring :=
  default [] (readFile p).

(** What [JSON.parse(line) as T] does: it throws, or it returns [null],
    or it returns a value, which the cast takes for a [T]. *)
Inductive parsed (T : Type) :=
| Throws
| Null
| Value (v : T).

Arguments Throws {T}.
Arguments Null {T}.
Arguments Value {T} v.

Class Decoder (T : Type) := JSON_parse : jsstring -> parsed T.

(** The decoder at the type of all JSON values: no cast. *)
Definition rawDecoder : Decoder json :=
  fun line =>
    match Json.parse line with
    | None => Throws
    | Some JNull => Null
    | Some v => Value v
    end.

(** ** The diagnostic side channel *)

(** A computation that writes lines with [console.error]. *)
Definition Eff (A : Type) : Type := A * list jsstring.

Definition ret {A} (a : A) : Eff A := (a, []).

Definition bind {A B} (m : Eff A) (k : A -> Eff B) : Eff B :=
  let '(a, w1) := m in
  let '(b, w2) := k a in
  (b, w1 ++ w2).

Definition console_error (line : jsstring) : Eff unit := (tt, [line]).

Notation "'do' x <- m ; k" := (bind m (fun x => k))
  (at level 10, x name, m at level 100, k at level 200).

(** [l.map(f)] for an effectful [f]: the elements in order. *)
Fixpoint mapM {A B} (f : A -> Eff B) (l : list A) : Eff (list B) :=
  match l with
  | [] => ret []
  | x :: l' => do y <- f x; do ys <- mapM f l'; ret (y :: ys)
  end.

(** [l.flatMap(f)] for an effectful [f]. *)
Definition flatMapM {A B} (f : A -> Eff (list B)) (l : list A) : Eff (list B) :=
  do ls <- mapM f l; ret (concat ls).

(** ** The event parser *)

Section Parser.
Context `{Node} {T : Type} `{Decoder T}.

(** The callback of the [map] of [parseJsonlFile]: the [try] and its
    [catch]. [None] is the [null] that the later [filter] removes. *)
Definition parseLine (line : jsstring) : Eff (option T) :=
  match JSON_parse line with
  | Value v => ret (Some v)
  | Null => ret None
  | Throws =>
      do _ <- console_error
             (lit "Failed to parse line: " ++ slice line 0 100 ++ lit "...");
      ret None
  end.

(** The lines that [parseJsonlFile] keeps: [content.split("\n")]
    filtered by [line.trim()]. *)
Definition nonBlank (line : jsstring) : bool := truthy (trim line).

Definition keptLines (content : jsstring) : list jsstring :=
  List.filter nonBlank (split 10 content).

Definition parseJsonlFile (filePath : jsstring) : Eff (list T) :=
  if negb (existsSync filePath) then ret []
  else
    let content := readFileSync filePath in
    let lines := keptLines content in
    do events <- mapM parseLine lines;
    ret (omap id events).

End Parser.

(** ** Trace events (trace-types.ts) *)

(** The records hold the fields that the tool reads. *)

Record ContextOptionsEvent := {
  co_monotonicTime : Z;
  co_title : option jsstring;
}.

Record BeforeEvent := {
  be_callId : jsstring;
  be_startTime : Z;
  be_apiName : jsstring;
  be_method : jsstring;
  be_params : json;
}.

(** [{ message: string; stack?: string }] *)
Record ErrorInfo := {
  message : jsstring;
  stack : option jsstring;
}.

Record AfterEvent := {
  af_callId : jsstring;
  af_endTime : Z;
  af_error : option ErrorInfo;
}.

Record ScreencastFrameEvent := {
  sf_sha1 : jsstring;
  sf_width : Z;
  sf_height : Z;
  sf_timestamp : Z;
}.

Record Location := {
  url : jsstring;
  lineNumber : Z;
  columnNumber : Z;
}.

Record ConsoleEvent := {
  ce_messageType : jsstring;
  ce_text : jsstring;
  ce_location : option Location;
  ce_time : Z;
}.

Record LogEvent := {
  le_callId : jsstring;
  le_time : Z;
  le_message : jsstring;
}.

(** [ev_error] is [params.error?.error]. *)
Record BrowserEvent := {
  ev_time : Z;
  ev_method : jsstring;
  ev_error : option ErrorInfo;
}.

Record InputEvent := {
  in_callId : jsstring;
}.

(** The fields are those of [snapshot]. *)
Record FrameSnapshotEvent := {
  fs_callId : jsstring;
  fs_timestamp : Z;
}.

(** [StdoutEvent] and [StderrEvent] *)
Record StdioEvent := {
  io_timestamp : Z;
  io_text : jsstring;
}.

Record TestErrorEvent := {
  te_message : jsstring;
}.

(** The union [TraceEvent], one constructor for each value of [type]. *)
Inductive TraceEvent :=
| ContextOptions (e : ContextOptionsEvent)
| Before (e : BeforeEvent)
| After (e : AfterEvent)
| ScreencastFrame (e : ScreencastFrameEvent)
| Console (e : ConsoleEvent)
| Log (e : LogEvent)
| Browser (e : BrowserEvent)
| Input (e : InputEvent)
| FrameSnapshot (e : FrameSnapshotEvent)
| Stdout (e : StdioEvent)
| Stderr (e : StdioEvent)
| TestError (e : TestErrorEvent).

(** The type guards of the filters of [parseTrace]. *)

Definition asContextOptions (e : TraceEvent) : option ContextOptionsEvent :=
  match e with ContextOptions c => Some c | _ => None end.

Definition asScreencastFrame (e : TraceEvent) : option ScreencastFrameEvent :=
  match e with ScreencastFrame f => Some f | _ => None end.

Definition asConsole (e : TraceEvent) : option ConsoleEvent :=
  match e with Console c => Some c | _ => None end.

(** [e.type === "event" && e.method === "pageError"] *)
Definition asPageError (e : TraceEvent) : option BrowserEvent :=
  match e with
  | Browser b => if decide (ev_method b = lit "pageError") then Some b else None
  | _ => None
  end.

Definition asBefore (e : TraceEvent) : option BeforeEvent :=
  match e with Before b => Some b | _ => None end.

Definition asAfter (e : TraceEvent) : option AfterEvent :=
  match e with After a => Some a | _ => None end.

Definition asLog (e : TraceEvent) : option LogEvent :=
  match e with Log l => Some l | _ => None end.

(** [event.type === "stdout" || event.type === "stderr"] *)
Definition asStdio (e : TraceEvent) : option StdioEvent :=
  match e with Stdout o | Stderr o => Some o | _ => None end.

(** ** The trace context *)

Inductive Status := passed | failed | unknown.

(** [BeforeEvent & { endTime?: number; error?: string }] *)
Record Action := {
  act_before : BeforeEvent;
  act_endTime : option Z;
  act_error : option jsstring;
}.

Record TraceContext := {
  tracePath : jsstring;
  testName : jsstring;
  duration : Z;
  status : Status;
  errorTime : option Z;
  errorMessage : option jsstring;
  screenshots : list ScreencastFrameEvent;
  consoleMessages : list ConsoleEvent;
  errors : list BrowserEvent;
  actions : list Action;
  logs : list LogEvent;
}.

(** ** The context builder *)

Definition keyActions : list jsstring :=
  [ lit "page.goto"; lit "page.click"; lit "locator.click"; lit "locator.fill";
    lit "locator.type"; lit "locator.press"; lit "page.fill"; lit "page.type";
    lit "expect.toHaveValue"; lit "expect.toBeVisible"; lit "expect.toHaveText";
    lit "expect.toHaveURL"; lit "expect.toHaveTitle";
    lit "expect.not.toBeVisible" ].

Definition isKeyAction (apiName : jsstring) : bool :=
  some (fun action => includes apiName action) keyActions.

(** [new Map(afterEvents.map((e) => [e.callId, e]))]: a later entry
    replaces an earlier one with the same key. *)
Definition afterMapOf (afterEvents : list AfterEvent) : gmap jsstring AfterEvent :=
  foldl (fun m e => <[af_callId e := e]> m) ∅ afterEvents.

(** The callback that merges an action start with its end. *)
Definition mergeAction (afterMap : gmap jsstring AfterEvent) (before : BeforeEvent)
    : Action :=
  let after := afterMap !! be_callId before in
  {| act_before := before;
     act_endTime := af_endTime <$> after;
     act_error := message <$> (after ≫= af_error) |}.

(** The test of the [find] for the assertion error. *)
Definition isAssertionOutput (event : TraceEvent) : bool :=
  match asStdio event with
  | None => false
  | Some o => includes (io_text o) "Error:" || includes (io_text o) "Expected"
  end.

(** [statusInfo] *)
Definition statusInfoOf (assertionError : option TraceEvent)
    (firstError : option BrowserEvent) : Status * option jsstring * option Z :=
  match assertionError ≫= asStdio with
  | Some o => (failed, Some (io_text o), Some (io_timestamp o))
  | None =>
      match firstError with
      | Some e => (failed, message <$> ev_error e, Some (ev_time e))
      | None => (passed, None, None)
      end
  end.

(** [a || b] on numbers: [b] when [a] is absent or zero. *)
Definition orNum (a : option Z) (b : Z) : Z :=
  match a with
  | Some v => if v =? 0 then b else v
  | None => b
  end.

(** The three fields that the end time is looked for in, read from
    whatever variant the last event is. *)
Definition startTimeOf (e : TraceEvent) : option Z :=
  match e with Before b => Some (be_startTime b) | _ => None end.

Definition endTimeOf (e : TraceEvent) : option Z :=
  match e with After a => Some (af_endTime a) | _ => None end.

Definition timestampOf (e : TraceEvent) : option Z :=
  match e with
  | ScreencastFrame f => Some (sf_timestamp f)
  | Stdout o | Stderr o => Some (io_timestamp o)
  | _ => None
  end.

(** [/^\d+-trace\.trace$/] *)
Definition numberedTrace : RegExp :=
  {| source := seq [Bol; plus Digit; str "-trace.trace"; Eol];
     ignoreCase := false |}.

Section Builder.
Context `{Node} `{Decoder TraceEvent}.

(** The numbered trace files of the directory, sorted as strings. *)
Definition traceFilesOf (traceDir : jsstring) : list jsstring :=
  sort Str.leb (List.filter (test numberedTrace) (readdirSync traceDir)).

(** The events of all the numbered trace files, file after file. *)
Definition browserTraceOf (traceDir : jsstring) : Eff (list TraceEvent) :=
  flatMapM (fun f => parseJsonlFile (path_join traceDir f)) (traceFilesOf traceDir).

Definition parseTrace (traceDir : jsstring) : Eff TraceContext :=
  do testTrace <- parseJsonlFile (path_join traceDir "test.trace");
  do browserTrace <- browserTraceOf traceDir;
  let contextOptions := head (omap asContextOptions browserTrace) in
  let screenshots := omap asScreencastFrame browserTrace in
  let consoleMessages := omap asConsole browserTrace in
  let errors := omap asPageError browserTrace in
  let beforeEvents := omap asBefore browserTrace in
  let afterEvents := omap asAfter browserTrace in
  let afterMap := afterMapOf afterEvents in
  let actions :=
    List.map (mergeAction afterMap)
      (List.filter (fun e => isKeyAction (be_apiName e)) beforeEvents) in
  let logs := omap asLog browserTrace in
  let assertionError := find isAssertionOutput testTrace in
  let firstError := head errors in
  let '(status, errorMessage, errorTime) := statusInfoOf assertionError firstError in
  let startTime := orNum (co_monotonicTime <$> contextOptions) 0 in
  let lastEvent := last browserTrace in
  let endTime :=
    orNum (lastEvent ≫= startTimeOf)
      (orNum (lastEvent ≫= endTimeOf)
         (orNum (lastEvent ≫= timestampOf) startTime)) in
  let duration := endTime - startTime in
  ret {| tracePath := traceDir;
         testName :=
           or_else (default [] (contextOptions ≫= co_title)) (path_basename traceDir);
         duration := duration;
         status := status;
         errorTime := errorTime;
         errorMessage := errorMessage;
         screenshots := screenshots;
         consoleMessages := consoleMessages;
         errors := errors;
         actions := actions;
         logs := logs |}.

End Builder.

(** ** Report projections *)

(** An entry of the [before] and [after] lists of a screenshot result. *)
Record ScreenshotRef := {
  ref_index : Z;
  ref_path : jsstring;
  ref_timestamp : Z;
}.

Record ScreenshotResult := {
  target : jsstring;
  targetIndex : Z;
  timestamp : Z;
  before : list ScreenshotRef;
  after : list ScreenshotRef;
}.

(** [l.reduce(f, init)] with the index as third argument of [f]. *)
Fixpoint reduceFrom {A B} (f : B -> A -> Z -> B) (i : Z) (l : list A) (acc : B) : B :=
  match l with
  | [] => acc
  | x :: l' => reduceFrom f (i + 1) l' (f acc x i)
  end.

(** [l.map(f)] with the index as second argument of [f]. *)
Definition mapIndexed {A B} (f : A -> Z -> B) (l : list A) : list B :=
  imap (fun i x => f x (Z.of_nat i)) l.

(** The comparator [(a, b) => a.timestamp - b.timestamp] is not
    positive. *)
Definition byTimestamp (a b : ScreencastFrameEvent) : bool :=
  sf_timestamp a - sf_timestamp b <=? 0.

(** The result for no screenshot. *)
Definition noScreenshot : ScreenshotResult :=
  {| target := []; targetIndex := -1; timestamp := 0; before := []; after := [] |}.

Section Projections.
Context `{Node}.

(** [path.join(traceDir, "resources", sha1)] *)
Definition getScreenshotPath (traceDir sha1 : jsstring) : jsstring :=
  path_join (path_join traceDir "resources") sha1.

(** The callback of the [reduce] that looks for the closest
    screenshot; an absent best screenshot has the difference
    [Infinity]. *)
Definition closer (sorted : list ScreencastFrameEvent) (timestamp : Z)
    (bestIndex : Z) (screenshot : ScreencastFrameEvent) (currentIndex : Z) : Z :=
  let currentDiff := Z.abs (sf_timestamp screenshot - timestamp) in
  match at_ sorted bestIndex with
  | Some bestScreenshot =>
      let bestDiff := Z.abs (sf_timestamp bestScreenshot - timestamp) in
      if currentDiff <? bestDiff then currentIndex else bestIndex
  | None => currentIndex
  end.

Definition closestIndexOf (sorted : list ScreencastFrameEvent) (timestamp : Z) : Z :=
  reduceFrom (closer sorted timestamp) 0 sorted 0.

Definition getScreenshotsAround (screenshots : list ScreencastFrameEvent)
    (timestamp contextCount : Z) (traceDir : jsstring) : ScreenshotResult :=
  let sorted := sort byTimestamp screenshots in
  if (length sorted =? 0)%nat then noScreenshot
  else
    let closestIndex := closestIndexOf sorted timestamp in
    match at_ sorted closestIndex with
    | None => noScreenshot
    | Some target_ =>
        let before_ :=
          mapIndexed
            (fun screenshot idx =>
               {| ref_index := Z.max 0 (closestIndex - contextCount) + idx;
                  ref_path := getScreenshotPath traceDir (sf_sha1 screenshot);
                  ref_timestamp := sf_timestamp screenshot |})
            (slice sorted (Z.max 0 (closestIndex - contextCount)) closestIndex) in
        let after_ :=
          mapIndexed
            (fun screenshot idx =>
               {| ref_index := closestIndex + 1 + idx;
                  ref_path := getScreenshotPath traceDir (sf_sha1 screenshot);
                  ref_timestamp := sf_timestamp screenshot |})
            (slice sorted (closestIndex + 1) (closestIndex + 1 + contextCount)) in
        {| target := getScreenshotPath traceDir (sf_sha1 target_);
           targetIndex := closestIndex;
           timestamp := sf_timestamp target_;
           before := before_;
           after := after_ |}
    end.

(** *** The error-context document *)

Record ErrorContext := {
  ec_testName : jsstring;
  ec_errorMessage : jsstring;
  ec_errorLocation : jsstring;
}.

(** [/- Name:\s*(.+)/] *)
Definition nameLine : RegExp :=
  {| source := seq [str "- Name:"; Star true Space; Group 1 (plus Dot)];
     ignoreCase := false |}.

(** [/- Location:\s*(.+)/] *)
Definition locationLine : RegExp :=
  {| source := seq [str "- Location:"; Star true Space; Group 1 (plus Dot)];
     ignoreCase := false |}.

(** The pattern of the fenced block: the heading [# Error details],
    white space, three backquotes, white space, the captured text, as
    short as can be, three backquotes. *)
Definition errorDetails : RegExp :=
  {| source :=
       seq [str "# Error details"; Star true Space; str [96; 96; 96]%N;
            Star true Space; Group 1 (Star false AnyChar); str [96; 96; 96]%N];
     ignoreCase := false |}.

(** [m?.[1]?.trim() || fallback] *)
Definition firstGroupOr (m : option captures) (fallback : jsstring) : jsstring :=
  or_else (default [] (trim <$> (m ≫= capture 1))) fallback.

Definition loadErrorContext (traceDir : jsstring) : option ErrorContext :=
  let testResultsDir := path_dirname traceDir in
  let errorContextPath := path_join testResultsDir "error-context.md" in
  if negb (existsSync errorContextPath) then None
  else
    let content := readFileSync errorContextPath in
    let nameMatch := exec nameLine content in
    let locationMatch := exec locationLine content in
    let errorMatch := exec errorDetails content in
    match errorMatch with
    | None => None
    | Some _ =>
        Some {| ec_testName := firstGroupOr nameMatch "Unknown test";
                ec_errorMessage := firstGroupOr errorMatch "Unknown error";
                ec_errorLocation := firstGroupOr locationMatch "Unknown location" |}
    end.

(** *** The summary *)

Record Counts := {
  n_screenshots : nat;
  n_consoleMessages : nat;
  n_errors : nat;
  n_actions : nat;
}.

(** The results of the [summary] command. [s_duration] is the number
    of milliseconds that is printed as seconds, or [None] where the
    command prints [unknown]. *)
Record Summary := {
  s_testName : jsstring;
  s_duration : option Z;
  s_status : Status;
  s_errorTime : option Z;
  s_errorMessage : option jsstring;
  s_errorLocation : option jsstring;
  s_counts : Counts;
}.

(** [a || b] for a string and a string that may be absent. *)
Definition orOpt (a : option jsstring) (b : option jsstring) : option jsstring :=
  match a with
  | Some s => if truthy s then Some s else b
  | None => b
  end.

Definition commandSummary (ctx : TraceContext) : Summary :=
  let errorContext := loadErrorContext (tracePath ctx) in
  let actualStatus := match errorContext with Some _ => failed | None => status ctx end in
  let actualErrorMessage := orOpt (ec_errorMessage <$> errorContext) (errorMessage ctx) in
  {| s_testName := testName ctx;
     s_duration := if duration ctx =? 0 then None else Some (duration ctx);
     s_status := actualStatus;
     s_errorTime := errorTime ctx;
     s_errorMessage := (fun m => slice m 0 500) <$> actualErrorMessage;
     s_errorLocation := ec_errorLocation <$> errorContext;
     s_counts :=
       {| n_screenshots := length (screenshots ctx);
          n_consoleMessages := length (consoleMessages ctx);
          n_errors := length (errors ctx);
          n_actions := length (actions ctx) |} |}.

End Projections.

(** ** The diagnostic engine *)

Record ErrorPattern := {
  pattern : RegExp;
  category : jsstring;
  explanation : jsstring;
  solution : jsstring;
}.

Definition insensitive (r : regex) : RegExp :=
  {| source := r; ignoreCase := true |}.

Definition errorPatterns : list ErrorPattern :=
  [ {| pattern := insensitive (seq [str "Timed out"; anything; str "waiting for"]);
       category := "Timeout";
       explanation := "A Playwright assertion or wait timed out. The expected element/state did not appear in time.";
       solution := "Check screenshots to see actual UI state. May indicate a backend error preventing the UI from updating." |};
    {| pattern :=
         insensitive (Alt (seq [str "element"; anything; str "not found"])
                          (seq [str "locator"; anything; str "not found"]));
       category := "Element Not Found";
       explanation := "The selector did not match any element in the DOM at the time of the action.";
       solution := "Verify the selector is correct and the element exists. Check if a wait is needed." |};
    {| pattern :=
         insensitive (Alt (seq [str "navigation"; anything; str "failed"])
                          (str "net::ERR_"));
       category := "Navigation Error";
       explanation := "Page navigation failed due to network or server error.";
       solution := "Check if the URL is correct and the server is running. Look for network errors in console." |};
    {| pattern :=
         insensitive (Alt (str "console.error")
                          (Alt (str "Uncaught Error") (str "Unhandled Promise")));
       category := "Console Error";
       explanation := "JavaScript error logged to browser console.";
       solution := "Check the error message and stack trace to identify the source of the error." |};
    {| pattern := insensitive (seq [str "status of 4"; Digit; Digit]);
       category := "HTTP 4xx Error";
       explanation := "Client error response from server (400-499).";
       solution := "Check the specific status code and request details." |};
    {| pattern := insensitive (seq [str "status of 5"; Digit; Digit]);
       category := "HTTP 5xx Error";
       explanation := "Server error response (500-599). Backend crashed or unavailable.";
       solution := "Check server logs for the actual error." |};
    {| pattern := insensitive (Alt (str "ECONNREFUSED") (str "ETIMEDOUT"));
       category := "Connection Error";
       explanation := "Failed to connect to a service (database, API, etc.).";
       solution := "Verify all services are running and accessible." |};
    {| pattern :=
         insensitive (Alt (str "strict mode violation") (str "multiple elements"));
       category := "Strict Mode Violation";
       explanation := "Selector matched multiple elements when Playwright expected exactly one.";
       solution := "Use a more specific selector to match only the intended element." |};
    {| pattern :=
         insensitive (Alt (seq [str "frame"; anything; str "detached"])
                          (seq [str "frame"; anything; str "navigated"]));
       category := "Frame Detached";
       explanation := "The frame was removed from the DOM or navigated while an action was in progress.";
       solution := "Wait for frame to be stable before interacting, or handle frame lifecycle explicitly." |};
    {| pattern :=
         insensitive (Alt (seq [str "dialog"; anything; str "not handled"])
                          (str "unexpected dialog"));
       category := "Unhandled Dialog";
       explanation := "A browser dialog (alert/confirm/prompt) appeared but was not handled.";
       solution := dq "Add page.on('dialog') handler before triggering the action that shows the dialog." |} ].

Inductive IssueSource := console | pageError | testOutput.

Record DiagnosticIssue := {
  i_category : jsstring;
  i_timestamp : Z;
  i_source : IssueSource;
  i_text : jsstring;
  i_explanation : jsstring;
  i_solution : jsstring;
  i_recovered : option bool;
}.

(** An entry of the [issues] of the report. *)
Record ReportedIssue := {
  r_category : jsstring;
  r_timestamp : Z;
  r_source : IssueSource;
  r_explanation : jsstring;
  r_solution : jsstring;
  r_snippet : jsstring;
  r_recovered : option bool;
}.

Record DiagnoseResults := {
  summary : jsstring;
  issueCount : Z;
  recoveredCount : option Z;
  byCategory : gmap jsstring Z;
  primaryExplanation : jsstring;
  primaryRecommendation : jsstring;
  issues : list ReportedIssue;
}.

Definition ignorePatterns : list RegExp :=
  [ insensitive (str "sentry");
    insensitive (seq [str "ingest."; anything; str "sentry"]) ].

Definition shouldIgnore (text : jsstring) (location : option jsstring) : bool :=
  let combined := text ++ lit " " ++ or_else (default [] location) [] in
  some (fun p => test p combined) ignorePatterns.

Definition findPatternInfo (text : jsstring) : option ErrorPattern :=
  find (fun patternInfo => test (pattern patternInfo) text) errorPatterns.

(** The issue that a text signal with a known pattern gives. *)
Definition issueOf (patternInfo : ErrorPattern) (time : Z) (source : IssueSource)
    (text : jsstring) : DiagnosticIssue :=
  {| i_category := category patternInfo;
     i_timestamp := time;
     i_source := source;
     i_text := slice text 0 800;
     i_explanation := explanation patternInfo;
     i_solution := solution patternInfo;
     i_recovered := None |}.

(** The bodies of the three [forEach] loops: what each element pushes. *)

Definition consoleIssues (msg : ConsoleEvent) : list DiagnosticIssue :=
  if shouldIgnore (ce_text msg) (url <$> ce_location msg) then []
  else
    match findPatternInfo (ce_text msg) with
    | Some patternInfo => [issueOf patternInfo (ce_time msg) console (ce_text msg)]
    | None => []
    end.

Definition pageErrorIssues (error : BrowserEvent) : list DiagnosticIssue :=
  let errorMsg := or_else (default [] (message <$> ev_error error)) [] in
  match findPatternInfo errorMsg with
  | Some patternInfo => [issueOf patternInfo (ev_time error) pageError errorMsg]
  | None => []
  end.

Definition testTraceIssues (event : TraceEvent) : list DiagnosticIssue :=
  match event with
  | Stdout o | Stderr o =>
      match findPatternInfo (io_text o) with
      | Some patternInfo =>
          [issueOf patternInfo (io_timestamp o) testOutput (io_text o)]
      | None => []
      end
  | TestError e =>
      if truthy (te_message e) then
        match findPatternInfo (te_message e) with
        | Some patternInfo => [issueOf patternInfo 0 testOutput (te_message e)]
        | None => []
        end
      else []
  | _ => []
  end.

(** The issue that the error-context document gives. *)
Definition errorContextIssue (errorContext : ErrorContext) : DiagnosticIssue :=
  let errorPatternInfo := findPatternInfo (ec_errorMessage errorContext) in
  {| i_category :=
       or_else (default [] (category <$> errorPatternInfo)) "Test Assertion Failed";
     i_timestamp := 0;
     i_source := testOutput;
     i_text := slice (ec_errorMessage errorContext) 0 800;
     i_explanation :=
       or_else (default [] (explanation <$> errorPatternInfo))
         "A Playwright assertion (expect) timed out or failed. The expected element or state was not found.";
     i_solution :=
       or_else (default [] (solution <$> errorPatternInfo))
         "Check the screenshots to see the actual UI state. The element may not have appeared due to a backend error or timing issue.";
     i_recovered := None |}.

(** The comparator [(a, b) => a.timestamp - b.timestamp] is not
    positive. *)
Definition byIssueTime (a b : DiagnosticIssue) : bool :=
  i_timestamp a - i_timestamp b <=? 0.

(** The test of the [some] of the deduplication. *)
Definition sameBurst (issue existing : DiagnosticIssue) : bool :=
  bool_decide (i_category existing = i_category issue)
  && (Z.abs (i_timestamp existing - i_timestamp issue) <? 1000).

(** The callback of the [reduce] of the deduplication. *)
Definition dedupStep (acc : list DiagnosticIssue) (issue : DiagnosticIssue)
    : list DiagnosticIssue :=
  let isDuplicate := some (sameBurst issue) acc in
  if isDuplicate then acc else acc ++ [issue].

Definition deduplicate (sortedIssues : list DiagnosticIssue) : list DiagnosticIssue :=
  foldl dedupStep [] sortedIssues.

(** Truthiness of [issue.recovered]. *)
Definition isRecovered (issue : DiagnosticIssue) : bool :=
  default false (i_recovered issue).

(** [byCategory[c] = (byCategory[c] || 0) + 1] *)
Definition countCategory (m : gmap jsstring Z) (issue : DiagnosticIssue)
    : gmap jsstring Z :=
  <[i_category issue := orNum (m !! i_category issue) 0 + 1]> m.

Definition isCritical (c : jsstring) : bool :=
  bool_decide (c = lit "Test Assertion Failed") || bool_decide (c = lit "HTTP 5xx Error").

Definition report (issue : DiagnosticIssue) : ReportedIssue :=
  {| r_category := i_category issue;
     r_timestamp := i_timestamp issue;
     r_source := i_source issue;
     r_explanation := i_explanation issue;
     r_solution := i_solution issue;
     r_snippet :=
       slice (i_text issue) 0 200
       ++ (if (200 <? length (i_text issue))%nat then lit "..." else []);
     r_recovered := i_recovered issue |}.

Section Diagnose.
Context `{Node} `{Decoder TraceEvent}.

(** The issues of all the text signals, in the order of the pushes. *)
Definition collectIssues (ctx : TraceContext) : Eff (list DiagnosticIssue) :=
  let fromConsole := consoleMessages ctx ≫= consoleIssues in
  let fromErrors := errors ctx ≫= pageErrorIssues in
  let testTracePath := path_join (tracePath ctx) "test.trace" in
  do fromTestTrace <-
    (if existsSync testTracePath then
       do testTrace <- parseJsonlFile testTracePath;
       ret (testTrace ≫= testTraceIssues)
     else ret []);
  let errorContext := loadErrorContext (tracePath ctx) in
  let fromErrorContext :=
    match errorContext with
    | Some ec => [errorContextIssue ec]
    | None => []
    end in
  ret (fromConsole ++ fromErrors ++ fromTestTrace ++ fromErrorContext).

Definition getDiagnoseResults (ctx : TraceContext) (verbose : bool)
    : Eff DiagnoseResults :=
  do issues <- collectIssues ctx;
  let issues := sort byIssueTime issues in
  let uniqueIssues := deduplicate issues in
  let recoveredIssues := List.filter isRecovered uniqueIssues in
  let nonRecoveredIssues := List.filter (fun i => negb (isRecovered i)) uniqueIssues in
  let activeIssues := if verbose then uniqueIssues else nonRecoveredIssues in
  let byCategory := foldl countCategory ∅ nonRecoveredIssues in
  let hasCritical :=
    negb (orNum (byCategory !! lit "Test Assertion Failed")
            (orNum (byCategory !! lit "HTTP 5xx Error") 0) =? 0) in
  let nRecovered := Z.of_nat (length recoveredIssues) in
  let nNonRecovered := Z.of_nat (length nonRecoveredIssues) in
  let '(primaryRecommendation, primaryExplanation) :=
    if (length activeIssues =? 0)%nat then
      let recoveryNote :=
        if 0 <? nRecovered then
          lit " (" ++ ofZ nRecovered
          ++ lit " recovered issue(s) hidden, use --verbose to see)"
        else [] in
      (lit "Trace looks clean." ++ recoveryNote
       ++ lit " If test still fails, check server logs.",
       lit "No known error patterns were detected in the trace.")
    else
      let criticalIssue :=
        find (fun i => negb (isRecovered i) && isCritical (i_category i))
          activeIssues in
      let primaryIssue := orElse criticalIssue (head activeIssues) in
      (or_else (default [] (i_solution <$> primaryIssue)) [],
       or_else (default [] (i_explanation <$> primaryIssue)) []) in
  let recoveryNote :=
    if 0 <? nRecovered then
      if verbose then lit " (+" ++ ofZ nRecovered ++ lit " recovered)"
      else lit " (" ++ ofZ nRecovered ++ lit " recovered issue(s) hidden)"
    else [] in
  let summary :=
    if nNonRecovered =? 0 then
      [9989%N] ++ lit " No known error patterns detected" ++ recoveryNote
    else if hasCritical then
      [55357%N; 57000%N] ++ lit " CRITICAL ISSUES FOUND - " ++ ofZ nNonRecovered
      ++ lit " unique error(s) detected" ++ recoveryNote
    else
      [9888%N; 65039%N] ++ lit "  " ++ ofZ nNonRecovered
      ++ lit " potential issue(s) detected" ++ recoveryNote in
  ret {| summary := summary;
         issueCount := nNonRecovered;
         recoveredCount := if 0 <? nRecovered then Some nRecovered else None;
         byCategory := byCategory;
         primaryExplanation := primaryExplanation;
         primaryRecommendation := primaryRecommendation;
         issues := List.map report (slice activeIssues 0 10) |}.

End Diagnose.

(** ** A reference platform *)

(** The cast of a decoded line to [TraceEvent], on the values that
    inhabit the union: the variant is chosen by [type], and the fields
    are read by name. *)
Definition errorInfoOf (v : json) : option ErrorInfo :=
  m ← getStr "message" v;
  Some {| message := m; stack := getStr "stack" v |}.

Definition locationOf (v : json) : option Location :=
  u ← getStr "url" v;
  l ← getZ "lineNumber" v;
  c ← getZ "columnNumber" v;
  Some {| url := u; lineNumber := l; columnNumber := c |}.

Definition stdioOf (v : json) : option StdioEvent :=
  t ← getZ "timestamp" v;
  x ← getStr "text" v;
  Some {| io_timestamp := t; io_text := x |}.

(** [params.error?.error] *)
Definition pageErrorOf (v : json) : option ErrorInfo :=
  p ← Json.get "params" v;
  e ← Json.get "error" p;
  i ← Json.get "error" e;
  errorInfoOf i.

Definition castEvent (v : json) : option TraceEvent :=
  type ← getStr "type" v;
  if decide (type = lit "context-options") then
    t ← getZ "monotonicTime" v;
    Some (ContextOptions {| co_monotonicTime := t; co_title := getStr "title" v |})
  else if decide (type = lit "before") then
    c ← getStr "callId" v;
    t ← getZ "startTime" v;
    a ← getStr "apiName" v;
    m ← getStr "method" v;
    p ← Json.get "params" v;
    Some (Before {| be_callId := c; be_startTime := t; be_apiName := a;
                    be_method := m; be_params := p |})
  else if decide (type = lit "after") then
    c ← getStr "callId" v;
    t ← getZ "endTime" v;
    Some (After {| af_callId := c; af_endTime := t;
                   af_error := Json.get "error" v ≫= errorInfoOf |})
  else if decide (type = lit "screencast-frame") then
    s ← getStr "sha1" v;
    w ← getZ "width" v;
    h ← getZ "height" v;
    t ← getZ "timestamp" v;
    Some (ScreencastFrame {| sf_sha1 := s; sf_width := w; sf_height := h;
                             sf_timestamp := t |})
  else if decide (type = lit "console") then
    k ← getStr "messageType" v;
    x ← getStr "text" v;
    t ← getZ "time" v;
    Some (Console {| ce_messageType := k; ce_text := x;
                     ce_location := Json.get "location" v ≫= locationOf;
                     ce_time := t |})
  else if decide (type = lit "log") then
    c ← getStr "callId" v;
    t ← getZ "time" v;
    m ← getStr "message" v;
    Some (Log {| le_callId := c; le_time := t; le_message := m |})
  else if decide (type = lit "event") then
    t ← getZ "time" v;
    m ← getStr "method" v;
    Some (Browser {| ev_time := t; ev_method := m;
                     ev_error := pageErrorOf v |})
  else if decide (type = lit "input") then
    c ← getStr "callId" v;
    Some (Input {| in_callId := c |})
  else if decide (type = lit "frame-snapshot") then
    s ← Json.get "snapshot" v;
    c ← getStr "callId" s;
    t ← getZ "timestamp" s;
    Some (FrameSnapshot {| fs_callId := c; fs_timestamp := t |})
  else if decide (type = lit "stdout") then Stdout <$> stdioOf v
  else if decide (type = lit "stderr") then Stderr <$> stdioOf v
  else if decide (type = lit "error") then
    m ← getStr "message" v;
    Some (TestError {| te_message := m |})
  else None.

(** [JSON.parse(line) as TraceEvent]. A line whose value is not a
    [TraceEvent] is outside the declared type of the input; this
    decoder passes over it as over a [null]. *)
Definition eventDecoder : Decoder TraceEvent :=
  fun line =>
    match Json.parse line with
    | None => Throws
    | Some v =>
        match castEvent v with
        | Some e => Value e
        | None => Null
        end
    end.

(** Text files given by their absolute paths. The paths are written
    with [/], without a dot segment and without a slash at the end,
    where [path.join], [path.dirname] and [path.basename] are these. *)
Fixpoint cutAtSlash (s : jsstring) : jsstring * option jsstring :=
  match s with
  | [] => ([], None)
  | c :: s' =>
      if N.eqb c 47 then ([], Some s')
      else let '(a, b) := cutAtSlash s' in (c :: a, b)
  end.

Definition basenameOf (p : jsstring) : jsstring :=
  rev (fst (cutAtSlash (rev p))).

Definition dirnameOf (p : jsstring) : jsstring :=
  match snd (cutAtSlash (rev p)) with
  | None => lit "."
  | Some [] => lit "/"
  | Some d => rev d
  end.

Definition lookupFile (files : list (jsstring * jsstring)) (p : jsstring)
    : option jsstring :=
  snd <$> List.find (fun f => bool_decide (fst f = p)) files.

Definition filesystem (files : list (jsstring * jsstring)) : Node :=
  {| readFile := lookupFile files;
     readdirSync := fun d =>
       basenameOf <$> List.filter (fun p => bool_decide (dirnameOf p = d)) (fst <$> files);
     path_join := fun a b => a ++ lit "/" ++ b;
     path_dirname := dirnameOf;
     path_basename := basenameOf |}.

(** * The vocabulary of the properties *)

Section BuilderVocabulary.
Context `{Node} `{Decoder TraceEvent}.

(** The events that [parseTrace] reads. *)
Definition testTraceOf (traceDir : jsstring) : list TraceEvent :=
  fst (parseJsonlFile (path_join traceDir "test.trace")).

Definition browserEventsOf (traceDir : jsstring) : list TraceEvent :=
  fst (browserTraceOf traceDir).

Definition contextOf (traceDir : jsstring) : TraceContext :=
  fst (parseTrace traceDir).

End BuilderVocabulary.

(** A runner output event whose text holds one of the two markers. *)
Definition hasFailureMarker (e : TraceEvent) : Prop :=
  exists o, (e = Stdout o \/ e = Stderr o) /\
    ((exists a b, io_text o = a ++ lit "Error:" ++ b) \/
     (exists a b, io_text o = a ++ lit "Expected" ++ b)).

(** Ascending order of the times of a list. *)
Definition ascending (times : list Z) : Prop := StronglySorted Z.le times.

(** The time of an event of one of the four collected kinds. *)
Definition timeOf (e : TraceEvent) : option Z :=
  match e with
  | ScreencastFrame f => Some (sf_timestamp f)
  | Console c => Some (ce_time c)
  | Browser b => Some (ev_time b)
  | Before b => Some (be_startTime b)
  | _ => None
  end.

(** The start time stamp: the monotonic time of the first
    context-options event, zero without such an event. *)
Definition startOf (bt : list TraceEvent) : Z :=
  default 0 (co_monotonicTime <$> head (omap asContextOptions bt)).

(** The time that an action start, an action end or a frame (or a
    line of runner output) carries in the field that the builder
    reads. *)
Definition clockOf (e : TraceEvent) : option Z :=
  match e with
  | Before b => Some (be_startTime b)
  | After a => Some (af_endTime a)
  | ScreencastFrame f => Some (sf_timestamp f)
  | Stdout o | Stderr o => Some (io_timestamp o)
  | _ => None
  end.

Definition valueOf {T} (p : parsed T) : option T :=
  match p with Value v => Some v | _ => None end.

Definition isValue {T} (p : parsed T) : bool :=
  match p with Value _ => true | _ => false end.

Definition throws {T} (p : parsed T) : bool :=
  match p with Throws => true | _ => false end.

(** The warning for a line that does not decode. *)
Definition warningFor (line : jsstring) : jsstring :=
  lit "Failed to parse line: " ++ slice line 0 100 ++ lit "...".

(** A line is blank when it holds white space only. *)
Definition blank (line : jsstring) : Prop := Forall (fun c => isWhiteSpace c = true) line.

(** The line decodes as JSON. *)
Definition decodes (line : jsstring) : bool :=
  match Json.parse line with Some _ => true | None => false end.

Section NearestVocabulary.
Context `{Node}.

(** An entry of a context list names a screenshot of the sorted list
    by its index there. *)
Definition refersTo (traceDir : jsstring) (sorted : list ScreencastFrameEvent)
    (ref : ScreenshotRef) : Prop :=
  exists s, at_ sorted (ref_index ref) = Some s /\
    ref_timestamp ref = sf_timestamp s /\
    ref_path ref = getScreenshotPath traceDir (sf_sha1 s).

End NearestVocabulary.

(** Two issues are apart when, if they have the same category, their
    time stamps differ by one second at least. *)
Definition apart (a b : DiagnosticIssue) : Prop :=
  i_category a = i_category b -> 1000 <= Z.abs (i_timestamp a - i_timestamp b).

(** [e] stands for [i]: the same category, not later, less than a
    second earlier. *)
Definition standsFor (e i : DiagnosticIssue) : Prop :=
  i_category e = i_category i /\
  i_timestamp e <= i_timestamp i < i_timestamp e + 1000.

Section ReportVocabulary.
Context `{Node} `{Decoder TraceEvent}.

(** The issues of all the signals in ascending order of time, the
    deduplicated issues, those that are not recovered, and the active
    ones. *)
Definition sortedIssuesOf (ctx : TraceContext) : list DiagnosticIssue :=
  sort byIssueTime (fst (collectIssues ctx)).

Definition uniqueIssuesOf (ctx : TraceContext) : list DiagnosticIssue :=
  deduplicate (sortedIssuesOf ctx).

Definition nonRecoveredOf (ctx : TraceContext) : list DiagnosticIssue :=
  List.filter (fun i => negb (isRecovered i)) (uniqueIssuesOf ctx).

Definition activeIssuesOf (ctx : TraceContext) (verbose : bool) : list DiagnosticIssue :=
  if verbose then uniqueIssuesOf ctx else nonRecoveredOf ctx.

Definition reportOf (ctx : TraceContext) (verbose : bool) : DiagnoseResults :=
  fst (getDiagnoseResults ctx verbose).

End ReportVocabulary.

(** The loop that [matcher] runs for a star, with a name: [r'] is
    iterated, [k] is what follows the star. *)
Definition starLoop (ignore greedy : bool) (r' : regex)
    (k : bool -> jsstring -> captures -> option captures)
    : nat -> bool -> jsstring -> captures -> option captures :=
  fix loop (fuel : nat) (atStart : bool) (s : jsstring) (caps : captures)
      {struct fuel} : option captures :=
    match fuel with
    | O => k atStart s caps
    | S fuel' =>
        let again :=
          matcher ignore r' atStart s caps (fun a' s' caps' =>
            if (length s' <? length s)%nat then loop fuel' a' s' caps'
            else None) in
        let stop := k atStart s caps in
        if greedy then orElse again stop else orElse stop again
    end.

(** * Sample traces *)

(** Two shards: the second browser context records a frame between
    two frames of the first one. *)
Definition interleavedShards : Node :=
  filesystem
    [ (lit "/r/t/unzipped/0-trace.trace",
       dq "{'type':'screencast-frame','sha1':'a','width':1,'height':1,'timestamp':100}"
       ++ [10%N] ++
       dq "{'type':'screencast-frame','sha1':'c','width':1,'height':1,'timestamp':300}");
      (lit "/r/t/unzipped/1-trace.trace",
       dq "{'type':'screencast-frame','sha1':'b','width':1,'height':1,'timestamp':200}") ].

(** A start of a click that never ends, and a start of a wait that
    never ends. *)
Definition clickStart : BeforeEvent :=
  {| be_callId := "call@7"; be_startTime := 50; be_apiName := "locator.click";
     be_method := "click"; be_params := JObj [] |}.

Definition waitStart : BeforeEvent :=
  {| be_callId := "call@9"; be_startTime := 60; be_apiName := "page.waitForTimeout";
     be_method := "waitForTimeout"; be_params := JObj [] |}.

Definition hangingStarts : Node :=
  filesystem
    [ (lit "/r/t/unzipped/0-trace.trace",
       dq "{'type':'before','callId':'call@7','startTime':50,'apiName':'locator.click','method':'click','params':{}}"
       ++ [10%N] ++
       dq "{'type':'before','callId':'call@9','startTime':60,'apiName':'page.waitForTimeout','method':'waitForTimeout','params':{}}") ].

(** A run of one navigation, from 1000 ms to 1300 ms. *)
Definition completeRun : Node :=
  filesystem
    [ (lit "/r/t/unzipped/0-trace.trace",
       dq "{'type':'context-options','monotonicTime':1000,'title':'sample app loads'}"
       ++ [10%N] ++
       dq "{'type':'before','callId':'call@1','startTime':1100,'apiName':'page.goto','method':'goto','params':{'url':'/todos'}}"
       ++ [10%N] ++
       dq "{'type':'screencast-frame','sha1':'f1','width':800,'height':600,'timestamp':1200}"
       ++ [10%N] ++
       dq "{'type':'after','callId':'call@1','endTime':1300}") ].

(** Two shards in time order: three frames, two console messages,
    two page errors and two key actions, the second shard after the
    first one. *)
Definition orderedShards : Node :=
  filesystem
    [ (lit "/r/t/unzipped/0-trace.trace",
       dq "{'type':'context-options','monotonicTime':1000,'title':'sample app loads'}"
       ++ [10%N] ++
       dq "{'type':'before','callId':'call@1','startTime':1100,'apiName':'page.goto','method':'goto','params':{'url':'/todos'}}"
       ++ [10%N] ++
       dq "{'type':'screencast-frame','sha1':'f1','width':800,'height':600,'timestamp':1200}"
       ++ [10%N] ++
       dq "{'type':'console','messageType':'log','text':'loading','time':1250}"
       ++ [10%N] ++
       dq "{'type':'after','callId':'call@1','endTime':1300}"
       ++ [10%N] ++
       dq "{'type':'screencast-frame','sha1':'f2','width':800,'height':600,'timestamp':1400}");
      (lit "/r/t/unzipped/1-trace.trace",
       dq "{'type':'before','callId':'call@2','startTime':1500,'apiName':'locator.click','method':'click','params':{'selector':'#add'}}"
       ++ [10%N] ++
       dq "{'type':'console','messageType':'error','text':'render failed','time':1550}"
       ++ [10%N] ++
       dq "{'type':'event','time':1600,'method':'pageError','params':{'error':{'error':{'message':'x is not defined'}}}}"
       ++ [10%N] ++
       dq "{'type':'screencast-frame','sha1':'f3','width':800,'height':600,'timestamp':1700}"
       ++ [10%N] ++
       dq "{'type':'event','time':1800,'method':'pageError','params':{'error':{'error':{'message':'y is not defined'}}}}"
       ++ [10%N] ++
       dq "{'type':'after','callId':'call@2','endTime':1900}") ].

(** A trace whose last event is a frame stamped before the start. *)
Definition earlyFrame : Node :=
  filesystem
    [ (lit "/r/t/unzipped/0-trace.trace",
       dq "{'type':'context-options','monotonicTime':1000}"
       ++ [10%N] ++
       dq "{'type':'screencast-frame','sha1':'f0','width':800,'height':600,'timestamp':500}") ].

(** Scenario C of the specification: a malformed line, then two valid
    lines. *)
Definition scenarioC : jsstring :=
  dq "{'type':'stdout','timestamp':1,'text':'tru" ++ [10%N] ++
  dq "{'type':'stdout','timestamp':2,'text':'ok'}" ++ [10%N] ++
  dq "{'type':'stderr','timestamp':3,'text':'done'}" ++ [10%N].

(** Scenario D of the specification: a run whose events give the
    verdict [passed], beside an error-context document. *)
Definition scenarioD : Node :=
  filesystem
    [ (lit "/r/t/unzipped/test.trace",
       dq "{'type':'stdout','timestamp':1150,'text':'navigating'}");
      (lit "/r/t/unzipped/0-trace.trace",
       dq "{'type':'context-options','monotonicTime':1000,'title':'sample app loads'}"
       ++ [10%N] ++
       dq "{'type':'before','callId':'call@1','startTime':1100,'apiName':'page.goto','method':'goto','params':{'url':'/todos'}}"
       ++ [10%N] ++
       dq "{'type':'after','callId':'call@1','endTime':1300}");
      (lit "/r/t/error-context.md",
       lit "# Test info" ++ [10%N; 10%N] ++
       lit "- Name: sample app loads" ++ [10%N] ++
       lit "- Location: e2e/sample.spec.ts:3:5" ++ [10%N; 10%N] ++
       lit "# Error details" ++ [10%N; 10%N] ++
       lit "```" ++ [10%N] ++
       lit "Expected visible, got hidden" ++ [10%N] ++
       lit "```" ++ [10%N]) ].

(** Scenario E of the specification: five screenshots, the one of
    index 2 in time order with a context of 1. *)
Definition frameAt (sha1 : jsstring) (t : Z) : ScreencastFrameEvent :=
  {| sf_sha1 := sha1; sf_width := 800; sf_height := 600; sf_timestamp := t |}.

Definition fiveFrames : list ScreencastFrameEvent :=
  [frameAt "c" 30; frameAt "a" 10; frameAt "e" 50; frameAt "b" 20; frameAt "d" 40].

(** Scenarios A and B of the specification. *)
Definition scenarioA : Node :=
  filesystem
    [ (lit "/r/t/unzipped/0-trace.trace",
       dq "{'type':'console','messageType':'error','text':'Timed out waiting for foo','time':1250}") ].

(** Three timeouts in the same second and one two seconds later: the
    first one and the last one are kept. *)
Definition burst : Node :=
  filesystem
    [ (lit "/r/t/unzipped/0-trace.trace",
       dq "{'type':'console','messageType':'error','text':'Timed out waiting for a','time':1600}"
       ++ [10%N] ++
       dq "{'type':'console','messageType':'error','text':'Timed out waiting for b','time':1000}"
       ++ [10%N] ++
       dq "{'type':'console','messageType':'error','text':'Timed out waiting for c','time':1999}"
       ++ [10%N] ++
       dq "{'type':'console','messageType':'error','text':'Timed out waiting for d','time':3000}") ].

(** A failing run: the runner writes an assertion failure, and the
    page throws twice. *)
Definition failingRun : Node :=
  filesystem
    [ (lit "/r/t/unzipped/test.trace",
       dq "{'type':'stdout','timestamp':5,'text':'Running 1 test'}"
       ++ [10%N] ++
       dq "{'type':'stderr','timestamp':9,'text':'Error: Timed out 5000ms waiting for expect'}"
       ++ [10%N] ++
       dq "{'type':'stdout','timestamp':11,'text':'Expected: visible'}");
      (lit "/r/t/unzipped/0-trace.trace",
       dq "{'type':'event','time':7,'class':'BrowserContext','method':'pageError','params':{'error':{'error':{'message':'x is not defined'}}}}"
       ++ [10%N] ++
       dq "{'type':'event','time':8,'class':'BrowserContext','method':'pageError','params':{'error':{'error':{'message':'y is not defined'}}}}") ].

(** The same run without the output of the runner. *)
Definition pageErrorRun : Node :=
  filesystem
    [ (lit "/r/t/unzipped/0-trace.trace",
       dq "{'type':'event','time':7,'class':'BrowserContext','method':'pageError','params':{'error':{'error':{'message':'x is not defined'}}}}"
       ++ [10%N] ++
       dq "{'type':'event','time':8,'class':'BrowserContext','method':'pageError','params':{'error':{'error':{'message':'y is not defined'}}}}") ].

(** * Further commands *)

(** ** Trace selection *)

Definition STALE_THRESHOLD_MS : Z := 10 * 60 * 1000.

(** The plural ending of a template literal. *)
Definition plural (n : Z) : jsstring := if n =? 1 then [] else lit "s".

(** [Math.floor(a / b)] for a positive [b] is the quotient of [Z]. *)
Definition formatRelativeTime (ms : Z) : jsstring :=
  let seconds := ms / 1000 in
  let minutes := seconds / 60 in
  let hours := minutes / 60 in
  if 0 <? hours then ofZ hours ++ lit " hour" ++ plural hours ++ lit " ago"
  else if 0 <? minutes then ofZ minutes ++ lit " minute" ++ plural minutes ++ lit " ago"
  else ofZ seconds ++ lit " second" ++ plural seconds ++ lit " ago".


Record TraceInfo := {
  age : Q;
  ageFormatted : jsstring;
  isStale : bool;
  mtime : Z;
}.

(** An entry of [findAllTraces]: the name of the test and the path of
    the archive, with the fields of [getTraceInfo]. *)
Record TraceEntry := {
  te_testName : jsstring;
  te_tracePath : jsstring;
  te_info : TraceInfo;
}.


(** [e || fallback], and a thrown [Error] with its message. *)
Inductive Result (A : Type) :=
| Ok (a : A)
| Thrown (message_ : jsstring).

Arguments Ok {A} a.
Arguments Thrown {A} message_.

(** [parseInt(s, 10)]: white space, a sign, and the longest run of
    decimal digits; [None] is [NaN]. The integer is exact, where the
    language rounds it to a double; the comparisons that the tool
    makes with it, against the number of traces, come out the same. *)
Definition parseInt10 (s : jsstring) : option Z :=
  let s1 := trimStart s in
  let '(negative, s2) :=
    match s1 with
    | 45%N :: r => (true, r)
    | 43%N :: r => (false, r)
    | _ => (false, s1)
    end in
  let '(v, k, _) := Json.digits 0 0 s2 in
  if k =? 0 then None else Some (if negative then - v else v).


Section Finding.
Context `{Node} `{Stat}.








End Finding.


Section Selection.

(** The value of [getTestResultsDir()]: the directory found by
    [findTestResultsDir] from the working directory and kept. *)
Variable testResultsDir : jsstring.

(** The callback of the question of [selectTraceInteractively], after
    the test that there is a trace: the answer typed is checked and
    resolved to the path of an archive. *)
Definition resolveSelection (traces : list TraceEntry) (answer : jsstring)
    : Result jsstring :=
  if (length traces =? 0)%nat then
    Thrown (lit "No trace.zip files found in " ++ testResultsDir
            ++ lit ". Run an E2E test first.")
  else
    let invalid :=
      Thrown (lit "Invalid selection. Enter a number between 1 and "
              ++ ofZ (Z.of_nat (length traces))) in
    match parseInt10 answer with
    | None => invalid
    | Some selection =>
        if (selection <? 1) || (Z.of_nat (length traces) <? selection) then invalid
        else
          match at_ traces (selection - 1) with
          | Some selected => Ok (te_tracePath selected)
          | None => Thrown (lit "Invalid selection")
          end
    end.

End Selection.

(** ** The other projections *)

(** The conversions of values of unknown type that the projections
    make: the test of a condition, [String(v)] (also in a template
    literal), and [(ms / 1000).toFixed(2)] for a duration. *)
Class Coercions := {
  toBoolean : json -> bool;
  toString_ : json -> jsstring;
  secondsFixed2 : Z -> jsstring;
}.

Record ErrorScreenshots := {
  es_before : list ScreenshotRef;
  es_target : ScreenshotRef;
  es_after : list ScreenshotRef;
}.

(** An entry of the results of the [errors] command; [er_location]
    and [er_source] are those of the entry for the error-context
    document. *)
Record ErrorResult := {
  er_timestamp : Z;
  er_message : jsstring;
  er_stack : option jsstring;
  er_location : option jsstring;
  er_source : option jsstring;
  er_screenshots : ErrorScreenshots;
  er_consoleContext : list ConsoleEvent;
}.

Record ActionResult := {
  ar_timestamp : Z;
  ar_endTime : option Z;
  ar_duration : option Z;
  ar_apiName : jsstring;
  ar_selector : option jsstring;
  ar_url : option jsstring;
  ar_value : option jsstring;
  ar_error : option jsstring;
}.

Record ScreenshotEntry := {
  se_index : Z;
  se_timestamp : Z;
  se_path : jsstring;
  se_width : Z;
  se_height : Z;
}.


(** [Math.max(x, ...l)] *)
Definition maximum (x : Z) (l : list Z) : Z := foldl Z.max x l.

(** Truthiness of a number that may be absent. *)
Definition truthyNum (a : option Z) : bool :=
  match a with Some v => negb (v =? 0) | None => false end.




Section MoreProjections.
Context `{Node} `{Coercions}.

(** The three fields [before], [target], [after] that the [errors]
    command copies from a screenshot result. *)
Definition screenshotsOf (r : ScreenshotResult) : ErrorScreenshots :=
  {| es_before := before r;
     es_target := {| ref_index := targetIndex r; ref_path := target r;
                     ref_timestamp := timestamp r |};
     es_after := after r |}.

(** The console messages within a second of a time. *)
Definition consoleNear (ctx : TraceContext) (time : Z) : list ConsoleEvent :=
  List.filter (fun c => Z.abs (ce_time c - time) <? 1000) (consoleMessages ctx).

Definition commandErrors (ctx : TraceContext) : list ErrorResult :=
  let errorContext := loadErrorContext (tracePath ctx) in
  let errorResults :=
    List.map
      (fun error =>
         let errorInfo := ev_error error in
         let screenshotResult :=
           getScreenshotsAround (screenshots ctx) (ev_time error) 2 (tracePath ctx) in
         {| er_timestamp := ev_time error;
            er_message := or_else (default [] (message <$> errorInfo)) "Unknown error";
            er_stack := errorInfo ≫= stack;
            er_location := None;
            er_source := None;
            er_screenshots := screenshotsOf screenshotResult;
            er_consoleContext := consoleNear ctx (ev_time error) |})
      (errors ctx) in
  let fallbackResult :=
    if (0 <? length errorResults)%nat then []
    else
      match errorContext with
      | Some ec =>
          let lastScreenshotTime :=
            match sf_timestamp <$> screenshots ctx with
            | t :: ts => maximum t ts
            | [] => 0
            end in
          let screenshotResult :=
            getScreenshotsAround (screenshots ctx) lastScreenshotTime 2 (tracePath ctx) in
          [ {| er_timestamp := lastScreenshotTime;
               er_message := ec_errorMessage ec;
               er_stack := None;
               er_location := Some (ec_errorLocation ec);
               er_source := Some (lit "error-context.md");
               er_screenshots := screenshotsOf screenshotResult;
               er_consoleContext := [] |} ]
      | None =>
          if truthyNum (errorTime ctx) then
            let time := default 0 (errorTime ctx) in
            let screenshotResult :=
              getScreenshotsAround (screenshots ctx) time 2 (tracePath ctx) in
            [ {| er_timestamp := time;
                 er_message := or_else (default [] (errorMessage ctx)) "Test failed";
                 er_stack := None;
                 er_location := None;
                 er_source := None;
                 er_screenshots := screenshotsOf screenshotResult;
                 er_consoleContext := consoleNear ctx time |} ]
          else []
      end in
  errorResults ++ fallbackResult.

(** [if (params.key) result.key = String(params.key)] *)
Definition paramOf (params : json) (key : jsstring) : option jsstring :=
  match Json.get key params with
  | Some v => if toBoolean v then Some (toString_ v) else None
  | None => None
  end.

Definition commandActions (ctx : TraceContext) : list ActionResult :=
  List.map
    (fun action =>
       let start := act_before action in
       {| ar_timestamp := be_startTime start;
          ar_endTime := act_endTime action;
          ar_duration :=
            if truthyNum (act_endTime action)
            then Some (default 0 (act_endTime action) - be_startTime start)
            else None;
          ar_apiName := be_apiName start;
          ar_selector := paramOf (be_params start) "selector";
          ar_url := paramOf (be_params start) "url";
          ar_value := paramOf (be_params start) "value";
          ar_error :=
            match act_error action with
            | Some e => if truthy e then Some e else None
            | None => None
            end |})
    (actions ctx).

Definition commandScreenshots (ctx : TraceContext) : list ScreenshotEntry :=
  let sorted := sort byTimestamp (screenshots ctx) in
  mapIndexed
    (fun s index =>
       {| se_index := index;
          se_timestamp := sf_timestamp s;
          se_path := getScreenshotPath (tracePath ctx) (sf_sha1 s);
          se_width := sf_width s;
          se_height := sf_height s |})
    sorted.



End MoreProjections.

(** ** The vocabulary of the further properties *)

(** The text [s] holds the word [w], the letters of ASCII compared
    without their case: the comparison of a pattern with the [i]
    flag. *)
Definition holdsFolded (w s : jsstring) : Prop :=
  exists pre m post,
    s = pre ++ m ++ post /\ canonicalize true <$> m = canonicalize true <$> w.

(** A console message about the error tracker, with a text that
    would be a timeout otherwise. *)
Definition trackerNoise : ConsoleEvent :=
  {| ce_messageType := "error";
     ce_text := "Sentry Logger: Timed out 3000ms waiting for flush";
     ce_location := None;
     ce_time := 1500 |}.

(** ** More sample traces *)

(** A page error at 5000 ms among four console messages, two of them
    less than a second away. *)
Definition noisyFailure : Node :=
  filesystem
    [ (lit "/r/t/unzipped/0-trace.trace",
       dq "{'type':'console','messageType':'log','text':'boot','time':3900}"
       ++ [10%N] ++
       dq "{'type':'console','messageType':'warning','text':'slow request','time':4200}"
       ++ [10%N] ++
       dq "{'type':'event','time':5000,'method':'pageError','params':{'error':{'error':{'message':'x is not defined'}}}}"
       ++ [10%N] ++
       dq "{'type':'console','messageType':'error','text':'render failed','time':5900}"
       ++ [10%N] ++
       dq "{'type':'console','messageType':'log','text':'late','time':6000}") ].

(** A run without page error, with two screenshots out of order and
    an error-context document. *)
Definition documentedFailure : Node :=
  filesystem
    [ (lit "/r/t/unzipped/0-trace.trace",
       dq "{'type':'screencast-frame','sha1':'f2','width':800,'height':600,'timestamp':1700}"
       ++ [10%N] ++
       dq "{'type':'screencast-frame','sha1':'f1','width':800,'height':600,'timestamp':1200}");
      (lit "/r/t/error-context.md",
       lit "# Test info" ++ [10%N; 10%N] ++
       lit "- Name: sample app loads" ++ [10%N] ++
       lit "- Location: e2e/sample.spec.ts:3:5" ++ [10%N; 10%N] ++
       lit "# Error details" ++ [10%N; 10%N] ++
       lit "```" ++ [10%N] ++
       lit "Expected visible, got hidden" ++ [10%N] ++
       lit "```" ++ [10%N]) ].

(** A run that fails in the output of the runner alone. *)
Definition runnerFailure : Node :=
  filesystem
    [ (lit "/r/t/unzipped/test.trace",
       dq "{'type':'stderr','timestamp':9,'text':'Error: Timed out 5000ms waiting for expect'}");
      (lit "/r/t/unzipped/0-trace.trace",
       dq "{'type':'context-options','monotonicTime':1,'title':'sample app loads'}") ].

(** Two traces found, the newer first, seen at the time 2000000. *)
Definition foundTrace (name : jsstring) (modified : Z) : TraceEntry :=
  {| te_testName := name;
     te_tracePath := lit "/r/test-results/" ++ name ++ lit "/trace.zip";
     te_info := {| age := inject_Z (2000000 - modified);
                   ageFormatted := formatRelativeTime (2000000 - modified);
                   isStale := STALE_THRESHOLD_MS <? 2000000 - modified;
                   mtime := modified |} |}.

Definition twoTraces : list TraceEntry :=
  [foundTrace "todo-adds-item" 1900000; foundTrace "login-works" 1000000].


(** The name of a shard file: digits, one at least, and
    [-trace.trace]. *)
Definition shardName (f : jsstring) : Prop :=
  exists d ds,
    f = d :: ds ++ lit "-trace.trace" /\
    Forall (fun c => (48 <= c <= 57)%N) (d :: ds).



(** * Properties *)

(** ** The reference platform, evaluated *)

Example parse_object :
  Json.parse (dq "{'type':'stdout','timestamp':12,'text':'a\nb'}")
  = Some (JObj [(lit "type", JStr "stdout"); (lit "timestamp", JNum (Num 12 0));
                (lit "text", JStr (lit "a" ++ [10%N] ++ lit "b"))]).
Proof. vm_compute. reflexivity. Qed.

Example numberedTrace_examples :
  List.map (test numberedTrace)
    [lit "0-trace.trace"; lit "12-trace.trace"; lit "test.trace";
     lit "-trace.trace"; lit "0-trace.traces"; lit "a0-trace.trace";
     lit "0-traceXtrace"]
  = [true; true; false; false; false; false; false].
Proof. vm_compute. reflexivity. Qed.

Example paths :
  (dirnameOf "/r/t/unzipped", basenameOf "/r/t/unzipped", dirnameOf "/x", dirnameOf "x")
  = (lit "/r/t", lit "unzipped", lit "/", lit ".").
Proof. vm_compute. reflexivity. Qed.

(** ** Strings and arrays *)

Lemma startsWith_spec (s p : jsstring) :
  startsWith s p = true <-> exists r, s = p ++ r.
Proof.
  revert s; induction p as [|c p IH]; intros s; simpl.
  - split; [intros _; exists s; reflexivity | reflexivity].
  - destruct s as [|d s]; simpl.
    + split; [discriminate | intros [r Hr]; discriminate].
    + rewrite andb_true_iff, N.eqb_eq, IH. split.
      * intros [-> [r ->]]. exists r. reflexivity.
      * intros [r Hr]. injection Hr as -> ->. split; [reflexivity | exists r; reflexivity].
Qed.

(** [includes] is containment of a run of code units. *)
Lemma includes_spec (s p : jsstring) :
  includes s p = true <-> exists a b, s = a ++ p ++ b.
Proof.
  induction s as [|d s IH].
  - simpl. rewrite orb_false_r, startsWith_spec. split.
    + intros [r Hr]. exists [], r. exact Hr.
    + intros [a [b Hab]]. destruct a; [exists b; exact Hab | discriminate].
  - cbn [includes]. rewrite orb_true_iff, startsWith_spec, IH. split.
    + intros [[r Hr] | [a [b Hab]]].
      * exists [], r. exact Hr.
      * exists (d :: a), b. rewrite Hab. reflexivity.
    + intros [a [b Hab]]. destruct a as [|x a].
      * left. exists b. exact Hab.
      * right. injection Hab as -> ->. exists a, b. reflexivity.
Qed.

Lemma find_Some_split {A} (p : A -> bool) (l : list A) (x : A) :
  find p l = Some x ->
  exists pre post, l = pre ++ x :: post /\ p x = true /\ Forall (fun y => p y = false) pre.
Proof.
  induction l as [|y l IH]; simpl; [discriminate|].
  destruct (p y) eqn:Hy.
  - intros [= ->]. exists [], l. auto.
  - intros Hf. destruct (IH Hf) as (pre & post & -> & Hx & Hpre).
    exists (y :: pre), post. auto.
Qed.

Lemma find_None {A} (p : A -> bool) (l : list A) :
  find p l = None <-> Forall (fun y => p y = false) l.
Proof.
  induction l as [|y l IH]; simpl.
  - split; auto.
  - destruct (p y) eqn:Hy.
    + split; [discriminate | intros HF; inversion HF; congruence].
    + rewrite IH. split; [auto | intros HF; inversion HF; assumption].
Qed.

(** ** The verdict *)

Lemma isAssertionOutput_spec (e : TraceEvent) :
  isAssertionOutput e = true <-> hasFailureMarker e.
Proof.
  unfold isAssertionOutput, hasFailureMarker.
  destruct e; simpl;
    try (split; [discriminate | intros (o & [Ho | Ho] & _); discriminate]).
  - rewrite orb_true_iff, !includes_spec. split.
    + intros Hm. exists e. auto.
    + intros (o & [[= <-] | Ho] & Hm); [exact Hm | discriminate].
  - rewrite orb_true_iff, !includes_spec. split.
    + intros Hm. exists e. auto.
    + intros (o & [Ho | [= <-]] & Hm); [discriminate | exact Hm].
Qed.

Lemma isAssertionOutput_stdio (e : TraceEvent) :
  isAssertionOutput e = true -> exists o, asStdio e = Some o.
Proof.
  unfold isAssertionOutput. destruct (asStdio e); [eauto | discriminate].
Qed.

Section BuilderProperties.
Context `{Node} `{Decoder TraceEvent}.

Lemma parseTrace_status (traceDir : jsstring) :
  (status (contextOf traceDir), errorMessage (contextOf traceDir),
   errorTime (contextOf traceDir))
  = statusInfoOf (find isAssertionOutput (testTraceOf traceDir))
      (head (omap asPageError (browserEventsOf traceDir))).
Proof.
  unfold contextOf, testTraceOf, browserEventsOf, parseTrace, bind.
  destruct (parseJsonlFile _) as [tt w1].
  destruct (browserTraceOf traceDir) as [bt w2]. simpl.
  destruct (statusInfoOf _ _) as [[s m] t]. reflexivity.
Qed.

Lemma parseTrace_collections (traceDir : jsstring) :
  let bt := browserEventsOf traceDir in
  let ctx := contextOf traceDir in
  screenshots ctx = omap asScreencastFrame bt /\
  consoleMessages ctx = omap asConsole bt /\
  errors ctx = omap asPageError bt /\
  actions ctx =
    List.map (mergeAction (afterMapOf (omap asAfter bt)))
      (List.filter (fun e => isKeyAction (be_apiName e)) (omap asBefore bt)) /\
  logs ctx = omap asLog bt.
Proof.
  unfold contextOf, browserEventsOf, parseTrace, bind.
  destruct (parseJsonlFile _) as [tt w1].
  destruct (browserTraceOf traceDir) as [bt w2]. simpl.
  destruct (statusInfoOf _ _) as [[s m] t]. simpl. auto.
Qed.

Lemma parseTrace_duration (traceDir : jsstring) :
  let bt := browserEventsOf traceDir in
  let startTime := orNum (co_monotonicTime <$> head (omap asContextOptions bt)) 0 in
  duration (contextOf traceDir)
  = orNum (last bt ≫= startTimeOf)
      (orNum (last bt ≫= endTimeOf) (orNum (last bt ≫= timestampOf) startTime))
    - startTime.
Proof.
  unfold contextOf, browserEventsOf, parseTrace, bind.
  destruct (parseJsonlFile _) as [tt w1].
  destruct (browserTraceOf traceDir) as [bt w2]. simpl.
  destruct (statusInfoOf _ _) as [[s m] t]. reflexivity.
Qed.

(** C10: the builder computes [passed] or [failed], never [unknown]. *)
Theorem status_never_unknown (traceDir : jsstring) :
  status (contextOf traceDir) = passed \/ status (contextOf traceDir) = failed.
Proof.
  pose proof (parseTrace_status traceDir) as E.
  unfold statusInfoOf in E.
  destruct (find isAssertionOutput (testTraceOf traceDir) ≫= asStdio) as [o|].
  - right. congruence.
  - destruct (head (omap asPageError (browserEventsOf traceDir))) as [e|].
    + right. congruence.
    + left. congruence.
Qed.

End BuilderProperties.

Section Verdict.
Context `{Node} `{Decoder TraceEvent}.

(** C1: the verdict follows the priority order. If some runner output
    event of the test trace holds a failure marker, the verdict is
    [failed] with the text and the time stamp of the first such event;
    else, if there is a page error, the verdict is [failed] with the
    message and the time of the first page error; else it is
    [passed], without error message and error time. *)
Theorem verdict_priority (traceDir : jsstring) :
  let testTrace := testTraceOf traceDir in
  let pageErrors := omap asPageError (browserEventsOf traceDir) in
  let ctx := contextOf traceDir in
  ((exists e, e ∈ testTrace /\ hasFailureMarker e) ->
   status ctx = failed /\
   exists pre e post o,
     testTrace = pre ++ e :: post /\
     Forall (fun x => ~ hasFailureMarker x) pre /\
     hasFailureMarker e /\ asStdio e = Some o /\
     errorMessage ctx = Some (io_text o) /\
     errorTime ctx = Some (io_timestamp o)) /\
  ((forall e, e ∈ testTrace -> ~ hasFailureMarker e) ->
   forall first rest, pageErrors = first :: rest ->
   status ctx = failed /\
   errorMessage ctx = message <$> ev_error first /\
   errorTime ctx = Some (ev_time first)) /\
  ((forall e, e ∈ testTrace -> ~ hasFailureMarker e) ->
   pageErrors = [] ->
   status ctx = passed /\ errorMessage ctx = None /\ errorTime ctx = None).
Proof.
  intros testTrace pageErrors ctx.
  pose proof (parseTrace_status traceDir) as E.
  fold testTrace ctx in E. fold pageErrors in E.
  assert (Hnone : (forall e, e ∈ testTrace -> ~ hasFailureMarker e) ->
                  find isAssertionOutput testTrace = None).
  { intros Hno. apply find_None, Forall_forall. intros x Hx.
    destruct (isAssertionOutput x) eqn:Hm; [|reflexivity].
    exfalso. apply (Hno x Hx), isAssertionOutput_spec, Hm. }
  split; [|split].
  - intros (e & He & Hm).
    destruct (find isAssertionOutput testTrace) as [x|] eqn:Hfind.
    + destruct (find_Some_split _ _ _ Hfind) as (pre & post & Hsplit & Hx & Hpre).
      destruct (isAssertionOutput_stdio _ Hx) as [o Ho].
      unfold statusInfoOf in E. simpl in E. rewrite Ho in E.
      injection E as Es Em Et. split; [exact Es|].
      exists pre, x, post, o. repeat split; try assumption.
      * eapply Forall_impl; [exact Hpre|]. intros y Hy Hmark.
        apply isAssertionOutput_spec in Hmark. congruence.
      * apply isAssertionOutput_spec, Hx.
    + exfalso. apply find_None in Hfind.
      rewrite Forall_forall in Hfind. specialize (Hfind e He).
      apply isAssertionOutput_spec in Hm. congruence.
  - intros Hno first rest Hp. rewrite (Hnone Hno), Hp in E.
    simpl in E. injection E as Es Em Et. auto.
  - intros Hno Hp. rewrite (Hnone Hno), Hp in E.
    simpl in E. injection E as Es Em Et. auto.
Qed.

End Verdict.

(** ** Sorting *)

Section SortFacts.
Context {A : Type} (le : A -> A -> bool).

Lemma insertSorted_perm (x : A) (l : list A) :
  Permutation (insertSorted le x l) (x :: l).
Proof.
  induction l as [|y l IH]; simpl; [reflexivity|].
  destruct (le x y); [reflexivity|].
  rewrite IH. apply perm_swap.
Qed.

Lemma sort_perm (l : list A) : Permutation (sort le l) l.
Proof.
  induction l as [|x l IH]; simpl; [reflexivity|].
  fold (sort le l). rewrite insertSorted_perm, IH. reflexivity.
Qed.

Lemma sort_length (l : list A) : length (sort le l) = length l.
Proof. apply Permutation_length, sort_perm. Qed.

Lemma sort_elem_of (x : A) (l : list A) : x ∈ sort le l <-> x ∈ l.
Proof. rewrite (sort_perm l). reflexivity. Qed.

(** The sort is stable: elements that the order does not tell apart
    keep their order. *)
Lemma insertSorted_filter (p : A -> bool) (x : A) (l : list A) :
  (forall y, p x = true -> p y = true -> le x y = true) ->
  List.filter p (insertSorted le x l) = List.filter p (x :: l).
Proof.
  intros Hp. induction l as [|y l IH]; [reflexivity|].
  cbn [insertSorted]. destruct (le x y) eqn:Hxy; [reflexivity|].
  cbn [List.filter] in *. rewrite IH.
  destruct (p x) eqn:Hx; [|reflexivity].
  destruct (p y) eqn:Hy; [|reflexivity].
  rewrite (Hp y eq_refl Hy) in Hxy. discriminate.
Qed.

Lemma sort_stable (p : A -> bool) (l : list A) :
  (forall x y, p x = true -> p y = true -> le x y = true) ->
  List.filter p (sort le l) = List.filter p l.
Proof.
  intros Hp. induction l as [|x l IH]; [reflexivity|].
  cbn [sort foldr]. fold (sort le l).
  rewrite insertSorted_filter by (intros y; apply Hp).
  cbn [List.filter]. rewrite IH. reflexivity.
Qed.

Hypothesis le_total : forall a b, le a b = true \/ le b a = true.
Hypothesis le_trans : forall a b c, le a b = true -> le b c = true -> le a c = true.

Lemma insertSorted_sorted (x : A) (l : list A) :
  StronglySorted (fun a b => le a b = true) l ->
  StronglySorted (fun a b => le a b = true) (insertSorted le x l).
Proof.
  induction 1 as [|y l Hs IH Hy]; simpl.
  - repeat constructor.
  - destruct (le x y) eqn:Hxy.
    + constructor; [constructor; assumption|].
      constructor; [exact Hxy|].
      eapply Forall_impl; [exact Hy|]. intros z Hz. eapply le_trans; eassumption.
    + constructor; [exact IH|].
      rewrite (insertSorted_perm x l). constructor; [|exact Hy].
      destruct (le_total x y) as [Hc|Hc]; congruence.
Qed.

Lemma sort_sorted (l : list A) :
  StronglySorted (fun a b => le a b = true) (sort le l).
Proof.
  induction l as [|x l IH]; simpl; [constructor|].
  apply insertSorted_sorted, IH.
Qed.

End SortFacts.

Lemma StronglySorted_sublist {A} (R : A -> A -> Prop) (l1 l2 : list A) :
  l1 `sublist_of` l2 -> StronglySorted R l2 -> StronglySorted R l1.
Proof.
  induction 1 as [|x l1 l2 Hsub IH|x l1 l2 Hsub IH]; intros Hs.
  - constructor.
  - inversion Hs as [|? ? Hs' Hall]; subst. constructor; [auto|].
    rewrite Forall_forall in *. intros y Hy. apply Hall.
    eapply elem_of_sublist; eassumption.
  - inversion Hs; subst. auto.
Qed.

(** Elements at two places of a list whose elements are pairwise
    related by a symmetric relation are related. *)
Lemma StronglySorted_lookup {A} (R : A -> A -> Prop) (l : list A) :
  (forall a b, R a b -> R b a) ->
  StronglySorted R l ->
  forall i j a b, i <> j -> l !! i = Some a -> l !! j = Some b -> R a b.
Proof.
  intros Hsym Hs. induction Hs as [|x l Hs IH Hx]; intros i j a b Hij Hi Hj.
  - rewrite lookup_nil in Hi. discriminate.
  - rewrite Forall_forall in Hx. destruct i as [|i], j as [|j]; simpl in *.
    + congruence.
    + injection Hi as <-. apply Hx. eapply list_elem_of_lookup_2, Hj.
    + injection Hj as <-. apply Hsym, Hx. eapply list_elem_of_lookup_2, Hi.
    + eapply IH; [|eassumption|eassumption]. congruence.
Qed.

Lemma ascending_sublist (l1 l2 : list Z) :
  sublist l1 l2 -> ascending l2 -> ascending l1.
Proof. apply StronglySorted_sublist. Qed.

Lemma sort_ascending {A} (key : A -> Z) (l : list A) :
  ascending (key <$> sort (fun a b => key a - key b <=? 0) l).
Proof.
  unfold ascending.
  assert (Hs := sort_sorted (fun a b => key a - key b <=? 0)).
  specialize (Hs ltac:(intros a b; rewrite !Z.leb_le; lia)
                 ltac:(intros a b c; rewrite !Z.leb_le; lia) l).
  induction Hs as [|x l' Hs IH Hx]; simpl; constructor; [exact IH|].
  rewrite Forall_fmap. eapply Forall_impl; [exact Hx|].
  intros y Hy. simpl. apply Z.leb_le in Hy. lia.
Qed.

(** ** The order of the collections *)

Lemma mapM_fst {A B} (f : A -> Eff B) (l : list A) :
  fst (mapM f l) = (fun x => fst (f x)) <$> l.
Proof.
  induction l as [|x l IH]; simpl; [reflexivity|].
  unfold bind. destruct (f x) as [y w1]. destruct (mapM f l) as [ys w2].
  simpl in *. rewrite IH. reflexivity.
Qed.

Lemma flatMapM_fst {A B} (f : A -> Eff (list B)) (l : list A) :
  fst (flatMapM f l) = concat ((fun x => fst (f x)) <$> l).
Proof.
  unfold flatMapM, bind. rewrite <- mapM_fst.
  destruct (mapM f l) as [ls w]. reflexivity.
Qed.

Lemma omap_retract_sublist {A B} (f : A -> option B) (g : B -> A) (l : list A) :
  (forall x y, f x = Some y -> g y = x) -> (g <$> omap f l) `sublist_of` l.
Proof.
  intros Hfg. induction l as [|x l IH]; simpl; [constructor|].
  destruct (f x) as [y|] eqn:Hy; simpl.
  - rewrite (Hfg x y Hy). constructor. exact IH.
  - constructor. exact IH.
Qed.

Lemma omap_times_sublist {A B} (f : A -> option B) (key : B -> Z)
    (time : A -> option Z) (l : list A) :
  (forall x y, f x = Some y -> time x = Some (key y)) ->
  (key <$> omap f l) `sublist_of` omap time l.
Proof.
  intros Hf. induction l as [|x l IH]; simpl; [constructor|].
  destruct (f x) as [y|] eqn:Hy; simpl.
  - rewrite (Hf x y Hy). constructor. exact IH.
  - destruct (time x); [constructor|]; exact IH.
Qed.

Lemma filter_sublist {A} (p : A -> bool) (l : list A) :
  List.filter p l `sublist_of` l.
Proof.
  induction l as [|x l IH]; simpl; [constructor|].
  destruct (p x); constructor; exact IH.
Qed.

Lemma actions_starts (m : gmap jsstring AfterEvent) (l : list BeforeEvent) :
  act_before <$> List.map (mergeAction m) l = l.
Proof. induction l as [|b l IH]; simpl; [reflexivity|]. f_equal. exact IH. Qed.

Lemma leb_total (a b : jsstring) : Str.leb a b = true \/ Str.leb b a = true.
Proof.
  revert b; induction a as [|c a IH]; intros [|d b]; simpl; auto.
  destruct (N.ltb_spec c d), (N.ltb_spec d c); auto; lia.
Qed.

Lemma leb_trans (a b c : jsstring) :
  Str.leb a b = true -> Str.leb b c = true -> Str.leb a c = true.
Proof.
  revert b c; induction a as [|x a IH]; intros [|y b] [|z c]; simpl; auto;
    try discriminate.
  destruct (N.ltb_spec x y), (N.ltb_spec y x), (N.ltb_spec y z), (N.ltb_spec z y),
    (N.ltb_spec x z), (N.ltb_spec z x); auto; try discriminate; try lia.
  apply IH.
Qed.

Section CollectionOrder.
Context `{Node} `{Decoder TraceEvent}.

(** The numbered trace files are those of the directory whose name
    is digits and [-trace.trace], in ascending order of their names. *)
Lemma traceFilesOf_spec (traceDir : jsstring) :
  (forall f, f ∈ traceFilesOf traceDir <->
     f ∈ readdirSync traceDir /\ test numberedTrace f = true) /\
  StronglySorted (fun a b => Str.leb a b = true) (traceFilesOf traceDir).
Proof.
  unfold traceFilesOf. split.
  - intros f. rewrite sort_elem_of, !list_elem_of_In, filter_In. reflexivity.
  - apply sort_sorted; [apply leb_total | apply leb_trans].
Qed.

(** The concatenated event list: the numbered trace files in the
    order of their names, each in the order of its lines. *)
Lemma browserEvents_concat (traceDir : jsstring) :
  browserEventsOf traceDir
  = concat ((fun f => fst (parseJsonlFile (path_join traceDir f)))
            <$> traceFilesOf traceDir).
Proof. unfold browserEventsOf, browserTraceOf. apply flatMapM_fst. Qed.

(** C2, as amended: the builder does not sort. The events of the
    trace are those of the shard files, file after file in the order
    of their names; each of the four collections is made of all the
    events of its kind, in the order that they have in that
    concatenation; so it is in ascending order of its time stamp when
    the timed events of the concatenation are. *)
Theorem collections_keep_file_order (traceDir : jsstring) :
  let bt := browserEventsOf traceDir in
  let ctx := contextOf traceDir in
  bt = concat ((fun f => fst (parseJsonlFile (path_join traceDir f)))
               <$> traceFilesOf traceDir) /\
  (screenshots ctx = omap asScreencastFrame bt /\
   consoleMessages ctx = omap asConsole bt /\
   errors ctx = omap asPageError bt /\
   act_before <$> actions ctx
   = List.filter (fun e => isKeyAction (be_apiName e)) (omap asBefore bt)) /\
  ((ScreencastFrame <$> screenshots ctx) `sublist_of` bt /\
   (Console <$> consoleMessages ctx) `sublist_of` bt /\
   (Browser <$> errors ctx) `sublist_of` bt /\
   (Before <$> (act_before <$> actions ctx)) `sublist_of` bt) /\
  (ascending (omap timeOf bt) ->
   ascending (sf_timestamp <$> screenshots ctx) /\
   ascending (ce_time <$> consoleMessages ctx) /\
   ascending (ev_time <$> errors ctx) /\
   ascending (be_startTime <$> (act_before <$> actions ctx))).
Proof.
  intros bt ctx.
  destruct (parseTrace_collections traceDir) as (Hs & Hc & He & Ha & _).
  fold bt ctx in Hs, Hc, He, Ha.
  rewrite Hs, Hc, He, Ha, actions_starts.
  split; [apply browserEvents_concat|].
  split; [split; [|split; [|split]]; reflexivity|]. split.
  - repeat split.
    + apply omap_retract_sublist. intros [] y; simpl; congruence.
    + apply omap_retract_sublist. intros [] y; simpl; congruence.
    + apply omap_retract_sublist. intros [] y; simpl; try congruence.
      destruct (decide _); congruence.
    + transitivity (Before <$> omap asBefore bt).
      * apply fmap_sublist, filter_sublist.
      * apply omap_retract_sublist. intros [] y; simpl; congruence.
  - intros Hasc. repeat split.
    + eapply ascending_sublist; [|exact Hasc].
      apply omap_times_sublist. intros [] y; simpl; congruence.
    + eapply ascending_sublist; [|exact Hasc].
      apply omap_times_sublist. intros [] y; simpl; congruence.
    + eapply ascending_sublist; [|exact Hasc].
      apply omap_times_sublist. intros [] y; simpl; try congruence.
      destruct (decide _); congruence.
    + eapply ascending_sublist; [|exact Hasc].
      transitivity (be_startTime <$> omap asBefore bt).
      * apply fmap_sublist, filter_sublist.
      * apply omap_times_sublist. intros [] y; simpl; congruence.
Qed.

End CollectionOrder.

(** C2, as stated, fails: the frames of two shards come out in file
    order, 100, 300, 200. *)
Lemma screenshots_not_sorted :
  ~ ascending
      (sf_timestamp <$>
       screenshots (@contextOf interleavedShards eventDecoder "/r/t/unzipped")).
Proof.
  assert (E : sf_timestamp <$>
              screenshots (@contextOf interleavedShards eventDecoder "/r/t/unzipped")
              = [100; 300; 200]) by (vm_compute; reflexivity).
  rewrite E. intros Hs.
  inversion Hs as [|? ? Hs' _]; subst.
  inversion Hs' as [|? ? _ Hall]; subst.
  inversion Hall; subst. lia.
Qed.

(** ** Actions *)

Lemma afterMapOf_lookup_None (l : list AfterEvent) (m : gmap jsstring AfterEvent)
    (k : jsstring) :
  m !! k = None -> (forall a, a ∈ l -> af_callId a <> k) ->
  foldl (fun m e => <[af_callId e := e]> m) m l !! k = None.
Proof.
  revert m; induction l as [|a l IH]; intros m Hm Hl; simpl; [exact Hm|].
  apply IH.
  - rewrite lookup_insert_ne; [exact Hm|]. apply Hl. left.
  - intros a' Ha'. apply Hl. right. exact Ha'.
Qed.

Lemma last_filter_snoc {A} (p : A -> bool) (l : list A) (x : A) :
  last (List.filter p (l ++ [x])) = if p x then Some x else last (List.filter p l).
Proof.
  rewrite List.filter_app. cbn [List.filter].
  destruct (p x); [apply last_snoc | rewrite app_nil_r; reflexivity].
Qed.

(** The map of the action ends gives, for a call identifier, the last
    action end that has it. *)
Lemma afterMapOf_lookup (l : list AfterEvent) (k : jsstring) :
  afterMapOf l !! k = last (List.filter (fun a => bool_decide (af_callId a = k)) l).
Proof.
  unfold afterMapOf. induction l as [|x l IH] using rev_ind; [reflexivity|].
  rewrite foldl_snoc, last_filter_snoc.
  destruct (decide (af_callId x = k)) as [<-|Hne].
  - rewrite lookup_insert_eq, bool_decide_eq_true_2 by reflexivity. reflexivity.
  - rewrite lookup_insert_ne, bool_decide_eq_false_2 by assumption. exact IH.
Qed.

Lemma isKeyAction_spec (apiName : jsstring) :
  isKeyAction apiName = true <->
  exists action a b, action ∈ keyActions /\ apiName = a ++ action ++ b.
Proof.
  unfold isKeyAction, some. rewrite existsb_exists. split.
  - intros (action & Hin & Hinc). apply includes_spec in Hinc as (a & b & E).
    exists action, a, b. split; [apply list_elem_of_In, Hin | exact E].
  - intros (action & a & b & Hin & E). exists action.
    split; [apply list_elem_of_In, Hin | apply includes_spec; eauto].
Qed.

Section Actions.
Context `{Node} `{Decoder TraceEvent}.

(** C4, as amended: an action start whose API name is a key action is
    kept as an action, and when no action end has its call identifier
    the action has no end time and no error; an action start with
    another API name is left out: no action is made from it. So the
    starts of the actions are the key action starts of the trace, in
    their order. *)
Theorem key_action_start_retained (traceDir : jsstring) (b : BeforeEvent) :
  let bt := browserEventsOf traceDir in
  let ctx := contextOf traceDir in
  Before b ∈ bt ->
  (isKeyAction (be_apiName b) = true ->
   (exists act, act ∈ actions ctx /\ act_before act = b) /\
   ((forall a, After a ∈ bt -> af_callId a <> be_callId b) ->
    {| act_before := b; act_endTime := None; act_error := None |} ∈ actions ctx)) /\
  (isKeyAction (be_apiName b) = false ->
   forall act, act ∈ actions ctx -> act_before act <> b) /\
  act_before <$> actions ctx
  = List.filter (fun e => isKeyAction (be_apiName e)) (omap asBefore bt).
Proof.
  intros bt ctx Hb.
  destruct (parseTrace_collections traceDir) as (_ & _ & _ & Ha & _).
  fold bt ctx in Ha. rewrite Ha. split; [|split].
  - intros Hkey.
    assert (Hin : b ∈ List.filter (fun e => isKeyAction (be_apiName e))
                        (omap asBefore bt)).
    { apply list_elem_of_In, filter_In. split; [|exact Hkey].
      apply list_elem_of_In, list_elem_of_omap. exists (Before b). auto. }
    split.
    + exists (mergeAction (afterMapOf (omap asAfter bt)) b). split; [|reflexivity].
      apply list_elem_of_In, in_map, list_elem_of_In, Hin.
    + intros Hno.
      assert (E : afterMapOf (omap asAfter bt) !! be_callId b = None).
      { apply afterMapOf_lookup_None; [apply lookup_empty|].
        intros a Ha'. apply list_elem_of_omap in Ha' as (e & He & Hcast).
        destruct e; simpl in Hcast; try discriminate.
        injection Hcast as ->. apply Hno, He. }
      replace {| act_before := b; act_endTime := None; act_error := None |}
        with (mergeAction (afterMapOf (omap asAfter bt)) b).
      * apply list_elem_of_In, in_map, list_elem_of_In, Hin.
      * unfold mergeAction. rewrite E. reflexivity.
  - intros Hother act Hact Hbefore.
    apply list_elem_of_In, in_map_iff in Hact as (b' & <- & Hb').
    apply filter_In in Hb' as [_ Hkey]. cbn [mergeAction act_before] in Hbefore.
    subst b'. rewrite Hother in Hkey. discriminate.
  - apply actions_starts.
Qed.

(** The number of actions is the number of key action starts: no
    start is doubled, and an end without a start gives no action. *)
Lemma actions_count (traceDir : jsstring) :
  length (actions (contextOf traceDir))
  = length (List.filter (fun e => isKeyAction (be_apiName e))
              (omap asBefore (browserEventsOf traceDir))).
Proof.
  destruct (parseTrace_collections traceDir) as (_ & _ & _ & Ha & _).
  rewrite Ha. apply length_map.
Qed.

End Actions.

(** C4, at the click that never ends, which is kept without end, and
    at the wait that never ends, which is left out. *)
Lemma key_action_start_retained_witness :
  let bt := @browserEventsOf hangingStarts eventDecoder "/r/t/unzipped" in
  let ctx := @contextOf hangingStarts eventDecoder "/r/t/unzipped" in
  (Before clickStart ∈ bt /\
   isKeyAction (be_apiName clickStart) = true /\
   (forall a, After a ∈ bt -> af_callId a <> be_callId clickStart)) /\
  {| act_before := clickStart; act_endTime := None; act_error := None |} ∈ actions ctx /\
  (Before waitStart ∈ bt /\ isKeyAction (be_apiName waitStart) = false) /\
  (forall act, act ∈ actions ctx -> act_before act <> waitStart) /\
  act_before <$> actions ctx = [clickStart].
Proof.
  assert (Hb : Before clickStart
               ∈ @browserEventsOf hangingStarts eventDecoder "/r/t/unzipped").
  { vm_compute. left. }
  assert (Hk : isKeyAction (be_apiName clickStart) = true) by (vm_compute; reflexivity).
  assert (Hno : forall a,
             After a ∈ @browserEventsOf hangingStarts eventDecoder "/r/t/unzipped" ->
             af_callId a <> be_callId clickStart).
  { intros a Ha. vm_compute in Ha.
    repeat (apply elem_of_cons in Ha as [Ha|Ha]; [discriminate|]).
    apply elem_of_nil in Ha. destruct Ha. }
  assert (Hw : Before waitStart
               ∈ @browserEventsOf hangingStarts eventDecoder "/r/t/unzipped").
  { vm_compute. right. left. }
  assert (Ho : isKeyAction (be_apiName waitStart) = false) by (vm_compute; reflexivity).
  destruct (@key_action_start_retained hangingStarts eventDecoder
              "/r/t/unzipped" clickStart Hb) as (Hkept & _ & Hstarts).
  destruct (@key_action_start_retained hangingStarts eventDecoder
              "/r/t/unzipped" waitStart Hw) as (_ & Hleft & _).
  split; [auto|]. split; [exact (proj2 (Hkept Hk) Hno)|].
  split; [auto|]. split; [exact (Hleft Ho)|].
  rewrite Hstarts. vm_compute. reflexivity.
Defined.

(** C4, as stated, fails: the start of [page.waitForTimeout] has no
    end and is not among the actions. *)
Lemma unlisted_start_discarded :
  let bt := @browserEventsOf hangingStarts eventDecoder "/r/t/unzipped" in
  let ctx := @contextOf hangingStarts eventDecoder "/r/t/unzipped" in
  Before waitStart ∈ bt /\
  (forall a, After a ∈ bt -> af_callId a <> be_callId waitStart) /\
  forall act, act ∈ actions ctx -> act_before act <> waitStart.
Proof.
  split; [|split].
  - vm_compute. right. left.
  - intros a Ha. vm_compute in Ha.
    repeat (apply elem_of_cons in Ha as [Ha|Ha]; [discriminate|]).
    apply elem_of_nil in Ha. destruct Ha.
  - intros act Ha. vm_compute in Ha.
    apply elem_of_cons in Ha as [->|Ha]; [discriminate|].
    apply elem_of_nil in Ha. destruct Ha.
Qed.

(** ** Duration *)

Lemma orNum_default (a : option Z) : orNum a 0 = default 0 a.
Proof.
  destruct a as [v|]; simpl; [|reflexivity].
  destruct (v =? 0) eqn:E; [apply Z.eqb_eq in E; congruence | reflexivity].
Qed.

Section Duration.
Context `{Node} `{Decoder TraceEvent}.

(** C8, as amended: when the last event is an action start, an action
    end or a frame with a time [t] that is not zero, the duration is
    [t] minus the start time stamp of the context-options event, or
    minus zero without that event; it is not negative when [t] is not
    before the start. *)
Theorem duration_from_last_event (traceDir : jsstring) (e : TraceEvent) (t : Z) :
  let bt := browserEventsOf traceDir in
  let ctx := contextOf traceDir in
  last bt = Some e ->
  clockOf e = Some t ->
  t <> 0 ->
  duration ctx = t - startOf bt /\ (startOf bt <= t -> 0 <= duration ctx).
Proof.
  intros bt ctx Hlast Hclock Ht.
  assert (E : duration ctx = t - startOf bt).
  { unfold ctx. rewrite parseTrace_duration. fold bt.
    rewrite Hlast, orNum_default. fold (startOf bt).
    apply Z.eqb_neq in Ht.
    destruct e; simpl in Hclock; try discriminate;
      injection Hclock as <-; simpl; rewrite Ht; reflexivity. }
  split; [exact E | lia].
Qed.

(** Without a last event, or with a last event of another kind, the
    end time is the start time. *)
Lemma duration_without_clock (traceDir : jsstring) :
  (last (browserEventsOf traceDir) ≫= clockOf) = None ->
  duration (contextOf traceDir) = 0.
Proof.
  intros Hc. rewrite parseTrace_duration.
  destruct (last (browserEventsOf traceDir)) as [e|]; simpl in *.
  - destruct e; simpl in *; try discriminate; lia.
  - lia.
Qed.

End Duration.

(** C8, at the run of one navigation: 300 ms. *)
Lemma duration_from_last_event_witness :
  let bt := @browserEventsOf completeRun eventDecoder "/r/t/unzipped" in
  let ctx := @contextOf completeRun eventDecoder "/r/t/unzipped" in
  let e := After {| af_callId := "call@1"; af_endTime := 1300; af_error := None |} in
  (last bt = Some e /\ clockOf e = Some 1300 /\ 1300 <> 0 /\ startOf bt = 1000) /\
  duration ctx = 1300 - startOf bt /\ (startOf bt <= 1300 -> 0 <= duration ctx).
Proof.
  assert (Hl : last (@browserEventsOf completeRun eventDecoder "/r/t/unzipped")
               = Some (After {| af_callId := "call@1"; af_endTime := 1300;
                                af_error := None |}))
    by (vm_compute; reflexivity).
  split.
  - split; [exact Hl|]. split; [reflexivity|]. split; [lia|].
    vm_compute. reflexivity.
  - exact (@duration_from_last_event completeRun eventDecoder "/r/t/unzipped"
             _ 1300 Hl eq_refl ltac:(lia)).
Defined.

(** C8, as stated, fails: the duration is negative when the last
    event is stamped before the start. *)
Lemma duration_negative :
  duration (@contextOf earlyFrame eventDecoder "/r/t/unzipped") = -500.
Proof. vm_compute. reflexivity. Qed.

(** ** The line parser *)

Lemma trimStart_nil (s : jsstring) : trimStart s = [] <-> blank s.
Proof.
  unfold blank. induction s as [|c s IH]; simpl.
  - split; [constructor | reflexivity].
  - destruct (isWhiteSpace c) eqn:Hc.
    + rewrite IH. split; [constructor; assumption | intros Hb; inversion Hb; assumption].
    + split; [discriminate | intros Hb; inversion Hb; congruence].
Qed.

Lemma trimStart_suffix (s : jsstring) : exists ws, s = ws ++ trimStart s /\ blank ws.
Proof.
  induction s as [|c s IH]; simpl.
  - exists []. split; [reflexivity | constructor].
  - destruct (isWhiteSpace c) eqn:Hc.
    + destruct IH as (ws & E & Hb). exists (c :: ws). split.
      * simpl. f_equal. exact E.
      * constructor; assumption.
    + exists []. split; [reflexivity | constructor].
Qed.

Lemma blank_trimStart (s : jsstring) : blank (trimStart s) <-> blank s.
Proof.
  destruct (trimStart_suffix s) as (ws & E & Hb). unfold blank in *.
  rewrite E at 2. rewrite Forall_app. tauto.
Qed.

(** The filter of [parseJsonlFile] keeps the lines that are not blank. *)
Lemma nonBlank_spec (line : jsstring) : nonBlank line = true <-> ~ blank line.
Proof.
  unfold nonBlank, trim.
  assert (Hr : forall s : jsstring, blank (rev s) <-> blank s).
  { intros s. unfold blank. rewrite !Forall_forall.
    split; intros Hs x Hx; apply Hs, list_elem_of_In; apply list_elem_of_In in Hx;
      [apply in_rev in Hx | apply in_rev]; exact Hx. }
  set (X := trimStart (rev (trimStart line))).
  assert (HX : X = [] <-> blank line).
  { unfold X. rewrite trimStart_nil, Hr, blank_trimStart. reflexivity. }
  rewrite <- HX. destruct X as [|c s]; simpl.
  - split; [discriminate | intros Hn; exfalso; apply Hn; reflexivity].
  - destruct (rev s ++ [c]) eqn:Er.
    + destruct (rev s); discriminate.
    + simpl. split; [intros _; discriminate | reflexivity].
Qed.

Section ParserProperties.
Context `{Node} {T : Type} `{Decoder T}.

Lemma mapM_parseLine (lines : list jsstring) :
  mapM parseLine lines
  = ((fun l => valueOf (JSON_parse l)) <$> lines,
     warningFor <$> List.filter (fun l => throws (JSON_parse l)) lines).
Proof.
  induction lines as [|l lines IH]; [reflexivity|].
  cbn [mapM List.filter]. rewrite IH, fmap_cons. unfold parseLine.
  destruct (JSON_parse l); unfold bind, console_error, ret;
    cbn [valueOf throws app]; rewrite ?app_nil_r; reflexivity.
Qed.

Lemma omap_id_fmap {A B} (f : A -> option B) (l : list A) :
  omap id (f <$> l) = omap f l.
Proof.
  induction l as [|x l IH]; [reflexivity|].
  rewrite fmap_cons. cbn [omap list_omap]. rewrite <- IH.
  destruct (f x); reflexivity.
Qed.

Lemma omap_valueOf_length (lines : list jsstring) :
  length (omap (fun l => valueOf (JSON_parse l)) lines)
  = length (List.filter (fun l => isValue (JSON_parse l)) lines).
Proof.
  induction lines as [|l lines IH]; simpl; [reflexivity|].
  destruct (JSON_parse l); simpl; try f_equal; exact IH.
Qed.

(** C5, as amended: of the lines of a file that are not blank, the
    parser returns one event for each line that decodes to a value
    other than [null], in the order of the lines, and writes one
    warning for each line that fails to decode; it returns for every
    file. *)
Theorem parser_skips_and_warns (filePath content : jsstring) :
  readFile filePath = Some content ->
  let lines := List.filter nonBlank (split 10 content) in
  let result := parseJsonlFile filePath in
  fst result = omap (fun l => valueOf (JSON_parse l)) lines /\
  length (fst result) = length (List.filter (fun l => isValue (JSON_parse l)) lines) /\
  snd result = warningFor <$> List.filter (fun l => throws (JSON_parse l)) lines /\
  length (snd result) = length (List.filter (fun l => throws (JSON_parse l)) lines).
Proof.
  intros Hread lines result.
  assert (E : result
              = (omap (fun l => valueOf (JSON_parse l)) lines,
                 warningFor <$> List.filter (fun l => throws (JSON_parse l)) lines)).
  { unfold result, parseJsonlFile, existsSync, readFileSync, keptLines.
    rewrite Hread. simpl. fold lines. rewrite mapM_parseLine.
    unfold bind, ret. simpl. rewrite omap_id_fmap, app_nil_r. reflexivity. }
  rewrite E. simpl. repeat split.
  - apply omap_valueOf_length.
  - apply length_fmap.
Qed.

(** A file that is not there has no event and no warning. *)
Lemma parser_absent_file (filePath : jsstring) :
  readFile filePath = None -> parseJsonlFile filePath = ([], []).
Proof.
  intros Hread. unfold parseJsonlFile, existsSync. rewrite Hread. reflexivity.
Qed.

End ParserProperties.

(** C5, at scenario C, with the decoder of all JSON values. *)
Lemma parser_skips_and_warns_witness :
  let fs := filesystem [(lit "/r/t/unzipped/test.trace", scenarioC)] in
  let result := @parseJsonlFile fs json rawDecoder "/r/t/unzipped/test.trace" in
  @readFile fs "/r/t/unzipped/test.trace" = Some scenarioC /\
  length (fst result) = 2%nat /\ length (snd result) = 1%nat.
Proof.
  split; [reflexivity|].
  destruct (@parser_skips_and_warns
              (filesystem [(lit "/r/t/unzipped/test.trace", scenarioC)])
              json rawDecoder "/r/t/unzipped/test.trace" scenarioC eq_refl)
    as (_ & He & _ & Hw).
  split; [rewrite He | rewrite Hw]; vm_compute; reflexivity.
Defined.

(** C5, as stated, fails. Of the three lines that are not empty, two
    decode as JSON and one, of white space, does not; the parser
    returns one event and writes no warning. *)
Lemma null_and_blank_lines :
  let content := lit "null" ++ [10%N] ++ lit "  " ++ [10%N] ++ lit "{}" in
  let fs := filesystem [(lit "/r/t/unzipped/test.trace", content)] in
  let nonEmpty := List.filter truthy (split 10 content) in
  let result := @parseJsonlFile fs json rawDecoder "/r/t/unzipped/test.trace" in
  length (List.filter decodes nonEmpty) = 2%nat /\
  length (List.filter (fun l => negb (decodes l)) nonEmpty) = 1%nat /\
  length (fst result) = 1%nat /\ length (snd result) = 0%nat.
Proof. vm_compute. auto. Qed.

(** ** The nearest screenshot *)

Lemma slice_nonneg {A} (l : list A) (from to : Z) :
  0 <= from -> 0 <= to ->
  let len := Z.of_nat (length l) in
  slice l from to
  = take (Z.to_nat (Z.min to len - Z.min from len)) (drop (Z.to_nat (Z.min from len)) l).
Proof.
  intros Hf Ht len. unfold slice, relIndex. fold len.
  destruct (from <? 0) eqn:E1; [apply Z.ltb_lt in E1; lia|].
  destruct (to <? 0) eqn:E2; [apply Z.ltb_lt in E2; lia|].
  reflexivity.
Qed.

Lemma slice_lookup {A} (l : list A) (from to : Z) (k : nat) (x : A) :
  0 <= from -> 0 <= to ->
  slice l from to !! k = Some x ->
  from + Z.of_nat k < to /\ at_ l (from + Z.of_nat k) = Some x.
Proof.
  intros Hf Ht. rewrite slice_nonneg by assumption.
  intros Hk. apply lookup_take_Some in Hk as [Hk Hlt].
  rewrite lookup_drop in Hk. pose proof (lookup_lt_Some _ _ _ Hk) as Hlen.
  split; [lia|]. unfold at_.
  destruct (from + Z.of_nat k <? 0) eqn:E; [apply Z.ltb_lt in E; lia|].
  rewrite <- Hk. f_equal. lia.
Qed.

Lemma slice_length {A} (l : list A) (from to : Z) :
  0 <= from -> 0 <= to ->
  Z.of_nat (length (slice l from to))
  = Z.max 0 (Z.min to (Z.of_nat (length l)) - Z.min from (Z.of_nat (length l))).
Proof.
  intros Hf Ht. rewrite slice_nonneg by assumption.
  rewrite length_take, length_drop. lia.
Qed.

Lemma at_middle {A} (pre l : list A) (x : A) :
  at_ (pre ++ x :: l) (Z.of_nat (length pre)) = Some x.
Proof.
  unfold at_. destruct (Z.of_nat (length pre) <? 0) eqn:E; [apply Z.ltb_lt in E; lia|].
  rewrite Nat2Z.id. apply list_lookup_middle. reflexivity.
Qed.

Section Nearest.
Context `{Node}.

(** The [reduce] keeps an index of the least distance to the time
    stamp among the elements that it has passed. *)
Lemma reduceFrom_closer (sorted : list ScreencastFrameEvent) (ts : Z) :
  forall l pre acc,
    sorted = pre ++ l ->
    (exists b, at_ sorted acc = Some b /\
       Forall (fun s => Z.abs (sf_timestamp b - ts) <= Z.abs (sf_timestamp s - ts)) pre) ->
    exists b,
      at_ sorted (reduceFrom (closer sorted ts) (Z.of_nat (length pre)) l acc) = Some b /\
      Forall (fun s => Z.abs (sf_timestamp b - ts) <= Z.abs (sf_timestamp s - ts)) sorted.
Proof.
  induction l as [|x l IH]; intros pre acc Hs (b & Hb & Hmin); simpl.
  - rewrite app_nil_r in Hs. subst sorted. exists b. auto.
  - replace (Z.of_nat (length pre) + 1) with (Z.of_nat (length (pre ++ [x])))
      by (rewrite length_app; simpl; lia).
    apply IH; [rewrite <- app_assoc; exact Hs|].
    unfold closer. rewrite Hb.
    destruct (Z.abs (sf_timestamp x - ts) <? Z.abs (sf_timestamp b - ts)) eqn:E.
    + apply Z.ltb_lt in E. exists x. split; [rewrite Hs; apply at_middle|].
      apply Forall_app. split; [|repeat constructor; lia].
      eapply Forall_impl; [exact Hmin|]. simpl. intros; lia.
    + apply Z.ltb_ge in E. exists b. split; [exact Hb|].
      apply Forall_app. split; [exact Hmin | repeat constructor; exact E].
Qed.

Lemma closestIndexOf_spec (sorted : list ScreencastFrameEvent) (ts : Z) :
  sorted <> [] ->
  exists b, at_ sorted (closestIndexOf sorted ts) = Some b /\
    Forall (fun s => Z.abs (sf_timestamp b - ts) <= Z.abs (sf_timestamp s - ts)) sorted.
Proof.
  intros Hne. unfold closestIndexOf.
  apply (reduceFrom_closer sorted ts sorted [] 0 eq_refl).
  destruct sorted as [|x l]; [congruence|].
  exists x. split; [reflexivity | constructor].
Qed.

Lemma at_valid {A} (l : list A) (i : Z) (x : A) :
  at_ l i = Some x -> 0 <= i < Z.of_nat (length l).
Proof.
  unfold at_. destruct (i <? 0) eqn:E; [discriminate|].
  apply Z.ltb_ge in E. intros Hx. apply lookup_lt_Some in Hx. lia.
Qed.

(** C7: a query at the time stamp of some screenshot gets a target
    with that very time stamp; and for every query with a context
    count that is not negative, each context list has that many
    entries at most, the entries before the target name the sorted
    screenshots at indices from zero on below the target, the entries
    after it those at indices above the target within the list: the
    lists are cut at the two ends of the sorted list. *)
Theorem nearest_screenshot (screenshots : list ScreencastFrameEvent)
    (timestamp_ contextCount : Z) (traceDir : jsstring) :
  let sorted := sort byTimestamp screenshots in
  let r := getScreenshotsAround screenshots timestamp_ contextCount traceDir in
  ((exists s, s ∈ screenshots /\ sf_timestamp s = timestamp_) ->
   timestamp r = timestamp_ /\
   exists t, at_ sorted (targetIndex r) = Some t /\ sf_timestamp t = timestamp_ /\
     target r = getScreenshotPath traceDir (sf_sha1 t)) /\
  (0 <= contextCount ->
   Z.of_nat (length (before r)) <= contextCount /\
   Z.of_nat (length (after r)) <= contextCount /\
   (screenshots <> [] ->
    Z.of_nat (length (before r)) = Z.min contextCount (targetIndex r) /\
    Z.of_nat (length (after r))
    = Z.min contextCount (Z.of_nat (length sorted) - 1 - targetIndex r)) /\
   (forall ref, ref ∈ before r ->
      0 <= ref_index ref < targetIndex r /\ refersTo traceDir sorted ref) /\
   (forall ref, ref ∈ after r ->
      targetIndex r < ref_index ref < Z.of_nat (length sorted) /\
      refersTo traceDir sorted ref)).
Proof.
  intros sorted r. unfold r, getScreenshotsAround. fold sorted.
  destruct (length sorted =? 0)%nat eqn:Hlen.
  { apply Nat.eqb_eq in Hlen.
    assert (Hnil : screenshots = []).
    { apply length_zero_iff_nil. rewrite <- (sort_length byTimestamp). exact Hlen. }
    split.
    - intros (s & Hs & _). rewrite Hnil in Hs. inversion Hs.
    - intros Hcc. simpl. split; [lia|]. split; [lia|].
      split; [congruence|]. split; intros x Hx; inversion Hx. }
  apply Nat.eqb_neq in Hlen.
  assert (Hne : sorted <> []) by (intros E; rewrite E in Hlen; apply Hlen; reflexivity).
  destruct (closestIndexOf_spec sorted timestamp_ Hne) as (b & Hb & Hmin).
  rewrite Hb. cbn [timestamp target targetIndex before after].
  pose proof (at_valid _ _ _ Hb) as Hci.
  set (ci := closestIndexOf sorted timestamp_) in *.
  split.
  - intros (s & Hs & Hts).
    apply (sort_elem_of byTimestamp) in Hs. fold sorted in Hs.
    rewrite Forall_forall in Hmin. specialize (Hmin s Hs).
    assert (sf_timestamp b = timestamp_) by lia.
    split; [assumption|]. exists b. auto.
  - intros Hcc. unfold mapIndexed. rewrite !length_imap, !slice_length by lia.
    split; [lia|]. split; [lia|]. split; [intros _; lia|]. split.
    + intros ref Href.
      apply elem_of_lookup_imap in Href as (k & x & -> & Hk).
      apply slice_lookup in Hk as [Hlt Hx]; [|lia|lia].
      cbn [ref_index]. split; [lia|]. exists x. auto.
    + intros ref Href.
      apply elem_of_lookup_imap in Href as (k & x & -> & Hk).
      apply slice_lookup in Hk as [Hlt Hx]; [|lia|lia].
      cbn [ref_index]. pose proof (at_valid _ _ _ Hx).
      split; [lia|]. exists x. auto.
Qed.

End Nearest.

(** ** Deduplication *)

Lemma sameBurst_spec (issue existing : DiagnosticIssue) :
  sameBurst issue existing = true <->
  i_category existing = i_category issue /\
  Z.abs (i_timestamp existing - i_timestamp issue) < 1000.
Proof.
  unfold sameBurst. rewrite andb_true_iff, bool_decide_eq_true, Z.ltb_lt. reflexivity.
Qed.

Lemma deduplicate_snoc (l : list DiagnosticIssue) (x : DiagnosticIssue) :
  deduplicate (l ++ [x]) = dedupStep (deduplicate l) x.
Proof. unfold deduplicate. apply foldl_snoc. Qed.

Lemma ascending_snoc (l : list DiagnosticIssue) (x : DiagnosticIssue) :
  ascending (i_timestamp <$> (l ++ [x])) ->
  ascending (i_timestamp <$> l) /\
  forall y, y ∈ l -> i_timestamp y <= i_timestamp x.
Proof.
  unfold ascending. rewrite fmap_app, StronglySorted_app. intros (Hall & Hl & _).
  split; [exact Hl|]. intros y Hy. apply Hall.
  - apply list_elem_of_fmap_2, Hy.
  - simpl. left.
Qed.

(** The three facts about the deduplication of a list in ascending
    order of time: it keeps a part of the list in its order, what it
    keeps is pairwise apart, and every issue of the list has a kept
    issue that stands for it. *)
Lemma deduplicate_spec (l : list DiagnosticIssue) :
  ascending (i_timestamp <$> l) ->
  deduplicate l `sublist_of` l /\
  StronglySorted apart (deduplicate l) /\
  forall i, i ∈ l -> exists e, e ∈ deduplicate l /\ standsFor e i.
Proof.
  induction l as [|x l IH] using rev_ind; intros Hasc.
  - repeat split; [constructor | constructor | intros i Hi; inversion Hi].
  - apply ascending_snoc in Hasc as [Hasc Hle].
    destruct (IH Hasc) as (Hsub & Hap & Hrep).
    rewrite deduplicate_snoc. unfold dedupStep, some.
    destruct (existsb (sameBurst x) (deduplicate l)) eqn:Hdup.
    + split; [apply sublist_inserts_r, Hsub|]. split; [exact Hap|].
      intros i Hi. apply elem_of_app in Hi as [Hi|Hi]; [apply Hrep, Hi|].
      apply list_elem_of_singleton in Hi as ->.
      apply existsb_exists in Hdup as (e & He & Hb).
      apply list_elem_of_In in He. apply sameBurst_spec in Hb as [Hc Hd].
      assert (i_timestamp e <= i_timestamp x)
        by (apply Hle; eapply elem_of_sublist; eassumption).
      exists e. split; [exact He|]. split; [exact Hc | lia].
    + split; [apply sublist_app; [exact Hsub | reflexivity]|]. split.
      * apply StronglySorted_app_2; [|exact Hap|repeat constructor].
        intros e y He Hy. apply list_elem_of_singleton in Hy as ->.
        intros Hc.
        destruct (Z_lt_le_dec (Z.abs (i_timestamp e - i_timestamp x)) 1000)
          as [Hlt|Hge]; [|exact Hge].
        exfalso. apply not_true_iff_false in Hdup. apply Hdup.
        apply existsb_exists. exists e.
        split; [apply list_elem_of_In, He | apply sameBurst_spec; auto].
      * intros i Hi. apply elem_of_app in Hi as [Hi|Hi].
        -- destruct (Hrep i Hi) as (e & He & Hst). exists e.
           split; [apply elem_of_app; left; exact He | exact Hst].
        -- apply list_elem_of_singleton in Hi as ->. exists x.
           split; [apply elem_of_app; right; left|]. split; [reflexivity | lia].
Qed.

Lemma apart_sym (a b : DiagnosticIssue) : apart a b -> apart b a.
Proof. unfold apart. intros Hab Hc. symmetry in Hc. specialize (Hab Hc). lia. Qed.

(** ** The diagnosis report *)

Lemma slice_take {A} (l : list A) (n : nat) : slice l 0 (Z.of_nat n) = take n l.
Proof.
  rewrite slice_nonneg by lia. cbv zeta.
  replace (Z.to_nat (Z.min 0 (Z.of_nat (length l)))) with 0%nat by lia.
  rewrite drop_0.
  destruct (Nat.le_gt_cases n (length l)) as [Hle|Hgt].
  - f_equal. lia.
  - rewrite (take_ge l n) by lia. apply take_ge. lia.
Qed.

Lemma countCategory_lookup (l : list DiagnosticIssue) (m : gmap jsstring Z)
    (c : jsstring) :
  default 0 (foldl countCategory m l !! c)
  = default 0 (m !! c)
    + Z.of_nat (length (List.filter (fun i => bool_decide (i_category i = c)) l)).
Proof.
  revert m; induction l as [|x l IH]; intros m; simpl; [lia|].
  rewrite IH. unfold countCategory. rewrite orNum_default.
  destruct (decide (i_category x = c)) as [->|Hne].
  - rewrite lookup_insert_eq, bool_decide_eq_true_2 by reflexivity. simpl. lia.
  - rewrite lookup_insert_ne, bool_decide_eq_false_2 by assumption. lia.
Qed.

Section Report.
Context `{Node} `{Decoder TraceEvent}.

Lemma getDiagnoseResults_fields (ctx : TraceContext) (verbose : bool) :
  issues (reportOf ctx verbose) = report <$> take 10 (activeIssuesOf ctx verbose) /\
  byCategory (reportOf ctx verbose) = foldl countCategory ∅ (nonRecoveredOf ctx) /\
  issueCount (reportOf ctx verbose) = Z.of_nat (length (nonRecoveredOf ctx)).
Proof.
  unfold reportOf, activeIssuesOf, nonRecoveredOf, uniqueIssuesOf, sortedIssuesOf.
  unfold getDiagnoseResults, bind.
  destruct (collectIssues ctx) as [collected w]. cbn [fst].
  match goal with
  | |- context [if (length ?a =? 0)%nat then _ else _] =>
      destruct (length a =? 0)%nat
  end; cbn [fst issues byCategory issueCount];
    rewrite (slice_take _ 10); auto.
Qed.

Lemma sortedIssues_ascending (ctx : TraceContext) :
  ascending (i_timestamp <$> sortedIssuesOf ctx).
Proof. apply (sort_ascending i_timestamp). Qed.

Lemma activeIssues_sublist (ctx : TraceContext) (verbose : bool) :
  activeIssuesOf ctx verbose `sublist_of` uniqueIssuesOf ctx.
Proof.
  unfold activeIssuesOf, nonRecoveredOf.
  destruct verbose; [reflexivity | apply filter_sublist].
Qed.

(** C3: two issues of the deduplicated set, and so two issues of the
    report, that have the same category are one second apart at
    least; and every issue found has, in the deduplicated set, an
    issue of its category that is not later and less than a second
    earlier: of the issues that collapse, the earliest is kept. *)
Theorem dedup_invariant (ctx : TraceContext) (verbose : bool) :
  (forall i j a b, i <> j ->
     uniqueIssuesOf ctx !! i = Some a -> uniqueIssuesOf ctx !! j = Some b ->
     i_category a = i_category b ->
     1000 <= Z.abs (i_timestamp a - i_timestamp b)) /\
  (forall i j a b, i <> j ->
     issues (reportOf ctx verbose) !! i = Some a ->
     issues (reportOf ctx verbose) !! j = Some b ->
     r_category a = r_category b ->
     1000 <= Z.abs (r_timestamp a - r_timestamp b)) /\
  (forall x, x ∈ sortedIssuesOf ctx ->
     exists e, e ∈ uniqueIssuesOf ctx /\
       i_category e = i_category x /\
       i_timestamp e <= i_timestamp x < i_timestamp e + 1000).
Proof.
  destruct (deduplicate_spec (sortedIssuesOf ctx) (sortedIssues_ascending ctx))
    as (Hsub & Hap & Hrep).
  fold (uniqueIssuesOf ctx) in Hsub, Hap, Hrep.
  split; [|split].
  - intros i j a b Hij Ha Hb.
    exact (StronglySorted_lookup apart _ apart_sym Hap i j a b Hij Ha Hb).
  - destruct (getDiagnoseResults_fields ctx verbose) as (Hi & _). rewrite Hi.
    intros i j a b Hij Ha Hb.
    rewrite list_lookup_fmap in Ha, Hb.
    destruct (take 10 (activeIssuesOf ctx verbose) !! i) as [a'|] eqn:Ea; [|discriminate].
    destruct (take 10 (activeIssuesOf ctx verbose) !! j) as [b'|] eqn:Eb; [|discriminate].
    injection Ha as <-. injection Hb as <-. cbn [report r_category r_timestamp].
    assert (Hs : StronglySorted apart (take 10 (activeIssuesOf ctx verbose))).
    { eapply StronglySorted_sublist; [|exact Hap].
      transitivity (activeIssuesOf ctx verbose);
        [apply sublist_take | apply activeIssues_sublist]. }
    exact (StronglySorted_lookup apart _ apart_sym Hs i j a' b' Hij Ea Eb).
  - exact Hrep.
Qed.

(** C9: the report lists ten issues at most, the first ten of the
    active issues, which are in ascending order of time, so that no
    active issue left out is earlier than a listed one; and the
    counts by category, like the issue count, are those of all the
    deduplicated issues that are not recovered. *)
Theorem report_capped (ctx : TraceContext) (verbose : bool) :
  let r := reportOf ctx verbose in
  let active := activeIssuesOf ctx verbose in
  (length (issues r) <= 10)%nat /\
  issues r = report <$> take 10 active /\
  ascending (i_timestamp <$> active) /\
  ascending (r_timestamp <$> issues r) /\
  (forall x y, x ∈ take 10 active -> y ∈ drop 10 active ->
     i_timestamp x <= i_timestamp y) /\
  (forall c, default 0 (byCategory r !! c)
     = Z.of_nat (length (List.filter (fun i => bool_decide (i_category i = c))
                           (nonRecoveredOf ctx)))) /\
  issueCount r = Z.of_nat (length (nonRecoveredOf ctx)).
Proof.
  intros r active.
  destruct (getDiagnoseResults_fields ctx verbose) as (Hi & Hc & Hn).
  fold r active in Hi, Hc, Hn.
  assert (Hasc : ascending (i_timestamp <$> active)).
  { eapply ascending_sublist; [|apply (sortedIssues_ascending ctx)].
    apply fmap_sublist. transitivity (uniqueIssuesOf ctx).
    - apply activeIssues_sublist.
    - apply deduplicate_spec, sortedIssues_ascending. }
  split; [|split; [|split; [|split; [|split; [|split]]]]].
  - rewrite Hi, length_fmap, length_take. lia.
  - exact Hi.
  - exact Hasc.
  - rewrite Hi, <- list_fmap_compose.
    eapply ascending_sublist; [|exact Hasc].
    change (r_timestamp ∘ report) with i_timestamp.
    apply fmap_sublist, sublist_take.
  - intros x y Hx Hy. unfold ascending in Hasc.
    rewrite <- (take_drop 10 active), fmap_app in Hasc.
    apply StronglySorted_app in Hasc as (Hall & _ & _).
    apply Hall; apply list_elem_of_fmap_2; assumption.
  - intros c. rewrite Hc, countCategory_lookup, lookup_empty. simpl. lia.
  - exact Hn.
Qed.

End Report.

(** ** The error-context document *)

(** ** Patterns *)

Lemma matcher_Seq (ignore : bool) (r1 r2 : regex) (a : bool) (s : jsstring)
    (caps : captures) (k : bool -> jsstring -> captures -> option captures) :
  matcher ignore (Seq r1 r2) a s caps k
  = matcher ignore r1 a s caps (fun a' s' caps' => matcher ignore r2 a' s' caps' k).
Proof. reflexivity. Qed.

Lemma matcher_Group (ignore : bool) (i : nat) (r : regex) (a : bool) (s : jsstring)
    (caps : captures) (k : bool -> jsstring -> captures -> option captures) :
  matcher ignore (Group i r) a s caps k
  = matcher ignore r a s caps (fun a' s' caps' =>
      k a' s' ((i, take (length s - length s') s) :: caps')).
Proof. reflexivity. Qed.

Lemma matcher_star (ignore greedy : bool) (r' : regex) (atStart : bool)
    (s : jsstring) (caps : captures)
    (k : bool -> jsstring -> captures -> option captures) :
  matcher ignore (Star greedy r') atStart s caps k
  = starLoop ignore greedy r' k (S (length s)) atStart s caps.
Proof. reflexivity. Qed.

(** A word, as a pattern, matches a text that starts with it. *)
Lemma matcher_str (ignore : bool) (w : jsstring) :
  w <> [] ->
  forall (m rest : jsstring) (atStart : bool) (caps : captures)
         (k : bool -> jsstring -> captures -> option captures),
    canonicalize ignore <$> m = canonicalize ignore <$> w ->
    matcher ignore (str w) atStart (m ++ rest) caps k = k false rest caps.
Proof.
  induction w as [|c w IH]; [congruence|]. intros _ m rest atStart caps k Hm.
  destruct m as [|x m]; [discriminate|].
  rewrite !fmap_cons in Hm. injection Hm as Hx Hm.
  destruct w as [|c' w'].
  - destruct m; [|discriminate]. cbn [str matcher single app].
    rewrite Hx, N.eqb_refl. reflexivity.
  - change (str (c :: c' :: w')) with (Seq (Chr c) (str (c' :: w'))).
    cbn [matcher single app]. rewrite Hx, N.eqb_refl.
    apply IH; [discriminate | exact Hm].
Qed.

(** A word, as a pattern without the [i] flag, matches only a text
    that starts with it. *)
Lemma matcher_str_inv (w : jsstring) :
  w <> [] ->
  forall (s : jsstring) (a : bool) (caps : captures)
         (k : bool -> jsstring -> captures -> option captures) (c : captures),
    matcher false (str w) a s caps k = Some c ->
    exists rest, s = w ++ rest /\ k false rest caps = Some c.
Proof.
  induction w as [|y w IH]; [congruence|]. intros _ s a caps k c Hc.
  assert (Hchr : forall K, matcher false (Chr y) a s caps K = Some c ->
            exists s', s = y :: s' /\ K false s' caps = Some c).
  { intros K. destruct s as [|x s']; cbn [matcher single]; [discriminate|].
    unfold canonicalize. cbn [andb].
    destruct (N.eqb_spec x y) as [->|]; [|discriminate]. eauto. }
  destruct w as [|y' w'].
  - apply Hchr in Hc as (s' & -> & Hk). exists s'. auto.
  - change (str (y :: y' :: w')) with (Seq (Chr y) (str (y' :: w'))) in Hc.
    rewrite matcher_Seq in Hc. apply Hchr in Hc as (s' & -> & Hk).
    apply IH in Hk as (rest & -> & Hk); [|discriminate]. exists rest. auto.
Qed.

(** A greedy star of a pattern for one code unit passes all the units
    of that kind that a text starts with, when what follows the star
    succeeds after them. *)
Lemma starLoop_greedy (ignore : bool) (r' : regex) (p : N -> bool)
    (k : bool -> jsstring -> captures -> option captures) (caps : captures)
    (rest : jsstring) (c : captures) :
  (forall a x s K, p x = true ->
     matcher ignore r' a (x :: s) caps K = K false s caps) ->
  (forall a K, matcher ignore r' a rest caps K = None) ->
  (forall a, k a rest caps = Some c) ->
  forall (ws : jsstring) (fuel : nat) (a : bool),
    Forall (fun x => p x = true) ws -> (length ws < fuel)%nat ->
    starLoop ignore true r' k fuel a (ws ++ rest) caps = Some c.
Proof.
  intros Hone Hstop Hk ws. induction ws as [|x ws IH]; intros fuel a Hws Hfuel.
  - destruct fuel as [|fuel]; cbn [app starLoop]; [apply Hk|].
    rewrite Hstop. cbn [orElse]. apply Hk.
  - destruct fuel as [|fuel]; [simpl in Hfuel; lia|].
    inversion Hws as [|? ? Hx Hws']; subst.
    cbn [app starLoop]. rewrite Hone by exact Hx.
    assert (Hlt : (length (ws ++ rest) <? length (x :: ws ++ rest))%nat = true)
      by (apply Nat.ltb_lt; simpl; lia).
    rewrite Hlt. fold (starLoop ignore true r' k).
    rewrite (IH fuel false Hws' ltac:(simpl in Hfuel; lia)). reflexivity.
Qed.

(** A star that is not greedy passes the units at which what follows
    it fails, and stops where it succeeds. *)
Lemma starLoop_lazy (ignore : bool) (r' : regex) (q : N -> Prop)
    (k : bool -> jsstring -> captures -> option captures) (caps : captures)
    (rest : jsstring) (c : captures) :
  (forall a x s K, matcher ignore r' a (x :: s) caps K = K false s caps) ->
  (forall a x t, q x -> k a (x :: t) caps = None) ->
  (forall a, k a rest caps = Some c) ->
  forall (body : jsstring) (fuel : nat) (a : bool),
    Forall q body -> (length body < fuel)%nat ->
    starLoop ignore false r' k fuel a (body ++ rest) caps = Some c.
Proof.
  intros Hone Hfail Hk body. induction body as [|x body IH]; intros fuel a Hbody Hfuel.
  - destruct fuel as [|fuel]; cbn [app starLoop]; [apply Hk|].
    rewrite Hk. reflexivity.
  - destruct fuel as [|fuel]; [simpl in Hfuel; lia|].
    inversion Hbody as [|? ? Hx Hbody']; subst.
    cbn [app starLoop]. rewrite (Hfail a x _ Hx), Hone. cbn [orElse].
    assert (Hlt : (length (body ++ rest) <? length (x :: body ++ rest))%nat = true)
      by (apply Nat.ltb_lt; simpl; lia).
    rewrite Hlt. fold (starLoop ignore false r' k).
    apply IH; [exact Hbody' | simpl in Hfuel; lia].
Qed.

(** The search returns the match of the first position that has one. *)
Lemma search_first (ignore : bool) (r : regex) (pre s : jsstring) (c : captures)
    (atStart : bool) :
  (forall p1 p2 a, pre = p1 ++ p2 -> p2 <> [] ->
     matcher ignore (Group 0 r) a (p2 ++ s) [] (fun _ _ caps => Some caps) = None) ->
  (forall a, matcher ignore (Group 0 r) a s [] (fun _ _ caps => Some caps) = Some c) ->
  search ignore r atStart (pre ++ s) = Some c.
Proof.
  intros Hfail Hs. revert atStart.
  induction pre as [|y pre IH]; intros atStart.
  - cbn [app]. destruct s as [|x s]; cbn [search]; rewrite Hs; reflexivity.
  - pose proof (Hfail [] (y :: pre) atStart eq_refl ltac:(discriminate)) as Hy.
    cbn [app] in Hy. cbn [app search]. rewrite Hy.
    apply IH. intros p1 p2 a Hpre Hne. apply (Hfail (y :: p1) p2 a); [|exact Hne].
    rewrite Hpre. reflexivity.
Qed.

(** A word that does not occur in [pre ++ h], where [h] is the word
    less its last unit, does not start inside [pre]. *)
Lemma not_earlier (h pre tail p1 p2 t : jsstring) (x : N) :
  includes (pre ++ h) (h ++ [x]) = false ->
  pre = p1 ++ p2 -> p2 <> [] ->
  p2 ++ (h ++ [x]) ++ tail = (h ++ [x]) ++ t -> False.
Proof.
  intros Hnot Hpre Hne Heq.
  assert (Hlen : (length (h ++ [x]) <= length (p2 ++ h))%nat).
  { rewrite !length_app. destruct p2; [contradiction | simpl; lia]. }
  assert (Htake : take (length (h ++ [x])) (p2 ++ h) = h ++ [x]).
  { transitivity (take (length (h ++ [x])) ((p2 ++ h) ++ ([x] ++ tail))).
    - symmetry. apply take_app_le. exact Hlen.
    - replace ((p2 ++ h) ++ [x] ++ tail) with ((h ++ [x]) ++ t).
      + apply take_app_length.
      + rewrite <- Heq, <- !app_assoc. reflexivity. }
  apply not_true_iff_false in Hnot. apply Hnot, includes_spec.
  exists p1, (drop (length (h ++ [x])) (p2 ++ h)).
  rewrite Hpre, <- app_assoc. f_equal.
  pose proof (take_drop (length (h ++ [x])) (p2 ++ h)) as Htd.
  rewrite Htake in Htd. symmetry. exact Htd.
Qed.

Lemma trimStart_head (s : jsstring) (x : N) (t : jsstring) :
  trimStart s = x :: t -> isWhiteSpace x = false.
Proof.
  induction s as [|y s IH]; simpl; [discriminate|].
  destruct (isWhiteSpace y) eqn:Hy; [exact IH|]. intros [= <- _]. exact Hy.
Qed.

Lemma trimStart_idem (s : jsstring) : trimStart (trimStart s) = trimStart s.
Proof.
  destruct (trimStart s) as [|x t] eqn:E; [reflexivity|].
  simpl. rewrite (trimStart_head s x t E). reflexivity.
Qed.

Lemma take_front {A} (b r : list A) : take (length (b ++ r) - length r) (b ++ r) = b.
Proof.
  rewrite length_app. replace (length b + length r - length r)%nat with (length b) by lia.
  apply take_app_length.
Qed.

(** The pattern of the fenced block, on a document of the expected
    shape: the heading for the first time, white space, the fence, a
    text without backquote, the fence. The text is captured from its
    first code unit that is not white space. *)
Lemma errorDetails_fenced (pre ws1 body post : jsstring) :
  includes (pre ++ lit "# Error detail") (lit "# Error details") = false ->
  blank ws1 ->
  Forall (fun c => c <> 96%N) body ->
  exists whole,
    exec errorDetails
      (pre ++ lit "# Error details" ++ ws1 ++ [96; 96; 96]%N ++ body
           ++ [96; 96; 96]%N ++ post)
    = Some [(0%nat, whole); (1%nat, trimStart body)].
Proof.
  intros Hfirst Hws1 Hbody.
  destruct (trimStart_suffix body) as (ws2 & Hsplit & Hws2).
  assert (Hhead : forall x t, trimStart body = x :: t -> isWhiteSpace x = false)
    by (intros x t; apply trimStart_head).
  assert (Hbody' : Forall (fun c => c <> 96%N) (trimStart body)).
  { rewrite Hsplit in Hbody. apply Forall_app in Hbody as [_ Hb]. exact Hb. }
  set (body' := trimStart body) in *. clearbody body'. subst body.
  unfold exec, errorDetails, seq. cbn [source ignoreCase foldr].
  eexists. apply search_first.
  - intros p1 p2 a Hpre Hne.
    destruct (matcher false _ a _ [] _) as [c|] eqn:E; [exfalso | reflexivity].
    rewrite matcher_Group, matcher_Seq in E.
    apply matcher_str_inv in E as (t & Heq & _); [|discriminate].
    change (lit "# Error details") with (lit "# Error detail" ++ [115%N]) in *.
    exact (not_earlier _ _ _ _ _ _ _ Hfirst Hpre Hne Heq).
  - intros a. rewrite matcher_Group, matcher_Seq.
    rewrite (matcher_str false (lit "# Error details") ltac:(discriminate)
               (lit "# Error details")) by reflexivity.
    rewrite matcher_Seq, matcher_star.
    apply (starLoop_greedy false Space isWhiteSpace).
    + intros a' x s K Hx. cbn [matcher single]. rewrite Hx. reflexivity.
    + intros a' K. reflexivity.
    + intros a'. rewrite matcher_Seq.
      rewrite (matcher_str false [96; 96; 96]%N ltac:(discriminate) [96; 96; 96]%N)
        by reflexivity.
      rewrite matcher_Seq, matcher_star. rewrite <- app_assoc.
      apply (starLoop_greedy false Space isWhiteSpace).
      * intros a'' x s K Hx. cbn [matcher single]. rewrite Hx. reflexivity.
      * intros a'' K. destruct body' as [|x t]; [reflexivity|].
        cbn [app matcher single]. rewrite (Hhead x t eq_refl). reflexivity.
      * intros a''. rewrite matcher_Seq, matcher_Group, matcher_star.
        apply (starLoop_lazy false AnyChar (fun c => c <> 96%N)).
        -- intros a3 x s K. reflexivity.
        -- intros a3 x t Hx. cbn [matcher str single].
           unfold canonicalize. cbn [andb].
           destruct (N.eqb_spec x 96); [contradiction | reflexivity].
        -- intros a3.
           rewrite matcher_Seq.
           rewrite (matcher_str false [96; 96; 96]%N ltac:(discriminate) [96; 96; 96]%N)
             by reflexivity.
           cbn [matcher]. rewrite take_front. reflexivity.
        -- exact Hbody'.
        -- rewrite length_app. lia.
      * exact Hws2.
      * rewrite length_app. lia.
    + exact Hws1.
    + rewrite length_app. lia.
Qed.

Section ErrorContextProperties.
Context `{Node}.

Lemma or_else_truthy (a b : jsstring) : b <> [] -> truthy (or_else a b) = true.
Proof.
  intros Hb. unfold or_else. destruct a as [|c a]; simpl; [|reflexivity].
  destruct b; [congruence | reflexivity].
Qed.

(** A document loads when the file is there and holds the heading
    and the fenced block. *)
Lemma loadErrorContext_Some (traceDir : jsstring) :
  is_Some (loadErrorContext traceDir) <->
  exists content,
    readFile (path_join (path_dirname traceDir) "error-context.md") = Some content /\
    test errorDetails content = true.
Proof.
  unfold loadErrorContext, existsSync, readFileSync, test.
  destruct (readFile _) as [content|]; cbn [negb default from_option id].
  - destruct (exec errorDetails content) as [caps|] eqn:E.
    + split; [|intros _; eexists; reflexivity].
      intros _. exists content. rewrite E. split; reflexivity.
    + split; [intros [x Hx]; discriminate|].
      intros (c & [= <-] & Hc). rewrite E in Hc. discriminate.
  - split; [intros [x Hx]; discriminate | intros (c & Hc & _); discriminate].
Qed.

(** The error message of a loaded document is never empty. *)
Lemma loadErrorContext_message (traceDir : jsstring) (ec : ErrorContext) :
  loadErrorContext traceDir = Some ec -> truthy (ec_errorMessage ec) = true.
Proof.
  unfold loadErrorContext.
  destruct (negb (existsSync _)); [discriminate|].
  destruct (exec errorDetails _) as [caps|]; [|discriminate].
  intros [= <-]. cbn [ec_errorMessage]. unfold firstGroupOr.
  apply or_else_truthy. discriminate.
Qed.

(** What a document gives when the file is there and the pattern of
    the fenced block matches its content: the three fields are read
    from the content. *)
Lemma loadErrorContext_content (traceDir content : jsstring) (caps : captures) :
  readFile (path_join (path_dirname traceDir) "error-context.md") = Some content ->
  exec errorDetails content = Some caps ->
  loadErrorContext traceDir
  = Some {| ec_testName := firstGroupOr (exec nameLine content) "Unknown test";
            ec_errorMessage := firstGroupOr (Some caps) "Unknown error";
            ec_errorLocation :=
              firstGroupOr (exec locationLine content) "Unknown location" |}.
Proof.
  intros Hfile Hmatch. unfold loadErrorContext, existsSync, readFileSync.
  rewrite Hfile. cbn [negb default from_option id]. rewrite Hmatch. reflexivity.
Qed.

(** C6: when the file [error-context.md] beside the trace directory
    is there and the pattern of the fenced block matches its content,
    the summary has the status [failed] and, as its error message, the
    first 500 code units of the message of the document, whatever the
    status and the error message of the context are. The message of
    the document is the text that the pattern captures between the
    fences, trimmed, and [Unknown error] when that is empty; in a
    document of the expected shape (the heading [# Error details] for
    the first time, white space, a fence, a text without backquote, a
    fence) what is captured and trimmed is that text, trimmed. *)
Theorem error_context_overrides (ctx : TraceContext) (content : jsstring)
    (caps : captures) :
  readFile (path_join (path_dirname (tracePath ctx)) "error-context.md")
  = Some content ->
  exec errorDetails content = Some caps ->
  let fenced := default [] (trim <$> capture 1 caps) in
  let documentMessage := if truthy fenced then fenced else lit "Unknown error" in
  s_status (commandSummary ctx) = failed /\
  s_errorMessage (commandSummary ctx) = Some (slice documentMessage 0 500) /\
  ((length documentMessage <= 500)%nat ->
   s_errorMessage (commandSummary ctx) = Some documentMessage) /\
  (forall pre ws1 body post,
     content = pre ++ lit "# Error details" ++ ws1 ++ lit "```" ++ body
                   ++ lit "```" ++ post ->
     includes (pre ++ lit "# Error detail") (lit "# Error details") = false ->
     blank ws1 ->
     Forall (fun c => c <> 96%N) body ->
     fenced = trim body).
Proof.
  intros Hfile Hmatch fenced documentMessage.
  pose proof (loadErrorContext_content _ _ _ Hfile Hmatch) as Hload.
  pose proof (loadErrorContext_message _ _ Hload) as Hm.
  cbn [ec_errorMessage] in Hm.
  unfold commandSummary. rewrite Hload.
  cbn [s_status s_errorMessage fmap option_fmap option_map orOpt ec_errorMessage].
  rewrite Hm. cbn [fmap option_fmap option_map].
  change (firstGroupOr (Some caps) "Unknown error") with documentMessage.
  split; [reflexivity|]. split; [reflexivity|]. split.
  - intros Hlen. f_equal. rewrite (slice_take _ 500). apply take_ge. exact Hlen.
  - intros pre ws1 body post Hshape Hfirst Hws1 Hbody.
    destruct (errorDetails_fenced pre ws1 body post Hfirst Hws1 Hbody) as [whole E].
    change (lit "```") with [96; 96; 96]%N in Hshape. rewrite <- Hshape in E.
    rewrite E in Hmatch. injection Hmatch as <-.
    unfold fenced. cbn [capture Nat.eqb fmap option_fmap option_map default from_option id].
    unfold trim. rewrite trimStart_idem. reflexivity.
Qed.

(** Without the document the summary has the status and the message
    of the context. *)
Lemma summary_without_document (ctx : TraceContext) :
  loadErrorContext (tracePath ctx) = None ->
  s_status (commandSummary ctx) = status ctx /\
  s_errorMessage (commandSummary ctx)
  = (fun m => slice m 0 500) <$> errorMessage ctx.
Proof.
  intros Hload. unfold commandSummary. rewrite Hload. split; reflexivity.
Qed.

End ErrorContextProperties.

(** C6, at scenario D: the events give [passed], the summary says
    [failed] with the text between the fences of the document. *)
Lemma error_context_overrides_witness :
  let ctx := @contextOf scenarioD eventDecoder "/r/t/unzipped" in
  let pre :=
    lit "# Test info" ++ [10%N; 10%N] ++
    lit "- Name: sample app loads" ++ [10%N] ++
    lit "- Location: e2e/sample.spec.ts:3:5" ++ [10%N; 10%N] in
  let body := [10%N] ++ lit "Expected visible, got hidden" ++ [10%N] in
  let content :=
    pre ++ lit "# Error details" ++ [10%N; 10%N] ++ lit "```" ++ body
        ++ lit "```" ++ [10%N] in
  let caps :=
    [(0%nat, lit "# Error details" ++ [10%N; 10%N] ++ lit "```" ++ body ++ lit "```");
     (1%nat, lit "Expected visible, got hidden" ++ [10%N])] in
  (@readFile scenarioD (@path_join scenarioD (@path_dirname scenarioD (tracePath ctx))
                          "error-context.md") = Some content /\
   exec errorDetails content = Some caps /\
   status ctx = passed) /\
  s_status (@commandSummary scenarioD ctx) = failed /\
  s_errorMessage (@commandSummary scenarioD ctx)
  = Some (lit "Expected visible, got hidden") /\
  (includes (pre ++ lit "# Error detail") (lit "# Error details") = false /\
   blank [10%N; 10%N] /\
   Forall (fun c => c <> 96%N) body) /\
  default [] (trim <$> capture 1 caps) = trim body.
Proof.
  cbv zeta.
  set (ctx := @contextOf scenarioD eventDecoder "/r/t/unzipped").
  set (pre := lit "# Test info" ++ _).
  set (body := [10%N] ++ _).
  set (content := pre ++ _).
  set (caps := [(0%nat, _); (1%nat, _)]).
  assert (Hfile : @readFile scenarioD
                    (@path_join scenarioD (@path_dirname scenarioD (tracePath ctx))
                       "error-context.md") = Some content)
    by (vm_compute; reflexivity).
  assert (Hmatch : exec errorDetails content = Some caps) by (vm_compute; reflexivity).
  assert (Hfirst : includes (pre ++ lit "# Error detail") (lit "# Error details") = false)
    by (vm_compute; reflexivity).
  assert (Hws : blank [10%N; 10%N]) by (repeat constructor).
  assert (Hbody : Forall (fun c => c <> 96%N) body).
  { unfold body. cbn. repeat (constructor; [discriminate|]). constructor. }
  split; [split; [exact Hfile | split; [exact Hmatch | vm_compute; reflexivity]]|].
  destruct (@error_context_overrides scenarioD ctx content caps Hfile Hmatch)
    as (Hs & _ & Hm & Hfenced).
  split; [exact Hs|]. split; [apply Hm; vm_compute; lia|].
  split; [auto|].
  exact (Hfenced pre [10%N; 10%N] body [10%N] eq_refl Hfirst Hws Hbody).
Defined.

(** C7, at scenario E. *)
Lemma nearest_screenshot_witness :
  let r := @getScreenshotsAround (filesystem []) fiveFrames 30 1 "/r/t/unzipped" in
  (0 <= 1 /\ exists s, s ∈ fiveFrames /\ sf_timestamp s = 30) /\
  timestamp r = 30 /\
  Z.of_nat (length (before r)) <= 1 /\
  Z.of_nat (length (after r)) <= 1.
Proof.
  assert (Hs : exists s, s ∈ fiveFrames /\ sf_timestamp s = 30).
  { exists (frameAt "c" 30). split; [left | reflexivity]. }
  split; [split; [lia | exact Hs]|].
  destruct (@nearest_screenshot (filesystem []) fiveFrames 30 1 "/r/t/unzipped")
    as (Hexact & Hclip).
  destruct (Hclip ltac:(lia)) as (Hb & Ha & _).
  split; [exact (proj1 (Hexact Hs)) | split; [exact Hb | exact Ha]].
Defined.

Example scenario_E :
  let r := @getScreenshotsAround (filesystem []) fiveFrames 30 1 "/r/t/unzipped" in
  targetIndex r = 2 /\ timestamp r = 30 /\
  target r = lit "/r/t/unzipped/resources/c" /\
  (ref_index <$> before r, ref_timestamp <$> before r) = ([1], [20]) /\
  (ref_index <$> after r, ref_timestamp <$> after r) = ([3], [40]).
Proof. vm_compute. auto. Qed.

(** At the ends of the list the context is clipped. *)
Example context_clipped :
  let first := @getScreenshotsAround (filesystem []) fiveFrames 10 2 "/r/t/unzipped" in
  let last_ := @getScreenshotsAround (filesystem []) fiveFrames 50 2 "/r/t/unzipped" in
  (targetIndex first, ref_index <$> before first, ref_index <$> after first)
  = (0, [], [1; 2]) /\
  (targetIndex last_, ref_index <$> before last_, ref_index <$> after last_)
  = (4, [2; 3], []).
Proof. vm_compute. auto. Qed.

Example scenario_A :
  let ctx := @contextOf scenarioA eventDecoder "/r/t/unzipped" in
  let r := @reportOf scenarioA eventDecoder ctx false in
  issueCount r = 1 /\ r_category <$> issues r = [lit "Timeout"] /\
  summary r = [9888%N; 65039%N] ++ lit "  1 potential issue(s) detected".
Proof. vm_compute. auto. Qed.

Example scenario_B :
  let ctx := @contextOf completeRun eventDecoder "/r/t/unzipped" in
  let r := @reportOf completeRun eventDecoder ctx false in
  issueCount r = 0 /\ issues r = [] /\
  summary r = [9989%N] ++ lit " No known error patterns detected".
Proof. vm_compute. auto. Qed.

Example burst_collapses :
  let ctx := @contextOf burst eventDecoder "/r/t/unzipped" in
  let r := @reportOf burst eventDecoder ctx false in
  r_timestamp <$> issues r = [1000; 3000] /\
  byCategory r !! lit "Timeout" = Some 2.
Proof. vm_compute. auto. Qed.

(** C1, at the failing run: a marker in the output of the runner. *)
Lemma verdict_priority_witness :
  let testTrace := @testTraceOf failingRun eventDecoder "/r/t/unzipped" in
  let ctx := @contextOf failingRun eventDecoder "/r/t/unzipped" in
  (exists e, e ∈ testTrace /\ hasFailureMarker e) /\ status ctx = failed.
Proof.
  assert (Hm : exists e, e ∈ @testTraceOf failingRun eventDecoder "/r/t/unzipped"
                         /\ hasFailureMarker e).
  { exists (Stdout {| io_timestamp := 11; io_text := "Expected: visible" |}).
    split; [vm_compute; right; right; left|].
    apply isAssertionOutput_spec. vm_compute. reflexivity. }
  split; [exact Hm|].
  exact (proj1 (proj1 (@verdict_priority failingRun eventDecoder "/r/t/unzipped") Hm)).
Defined.

(** The three cases of the verdict, evaluated. *)
Example verdict_cases :
  let first := @contextOf failingRun eventDecoder "/r/t/unzipped" in
  let second := @contextOf pageErrorRun eventDecoder "/r/t/unzipped" in
  let third := @contextOf completeRun eventDecoder "/r/t/unzipped" in
  (status first, errorMessage first, errorTime first)
  = (failed, Some (lit "Error: Timed out 5000ms waiting for expect"), Some 9) /\
  (status second, errorMessage second, errorTime second)
  = (failed, Some (lit "x is not defined"), Some 7) /\
  (status third, errorMessage third, errorTime third) = (passed, None, None).
Proof. vm_compute. auto. Qed.

(** C2, at two shards in time order: each collection has two events
    at least, in the order of the concatenation. *)
Lemma collections_keep_file_order_witness :
  let bt := @browserEventsOf orderedShards eventDecoder "/r/t/unzipped" in
  let ctx := @contextOf orderedShards eventDecoder "/r/t/unzipped" in
  (omap timeOf bt = [1100; 1200; 1250; 1400; 1500; 1550; 1600; 1700; 1800] /\
   ascending (omap timeOf bt)) /\
  (sf_timestamp <$> screenshots ctx = [1200; 1400; 1700] /\
   ce_time <$> consoleMessages ctx = [1250; 1550] /\
   ev_time <$> errors ctx = [1600; 1800] /\
   be_startTime <$> (act_before <$> actions ctx) = [1100; 1500]) /\
  ascending (sf_timestamp <$> screenshots ctx) /\
  ascending (ce_time <$> consoleMessages ctx) /\
  ascending (ev_time <$> errors ctx) /\
  ascending (be_startTime <$> (act_before <$> actions ctx)).
Proof.
  assert (E : omap timeOf (@browserEventsOf orderedShards eventDecoder "/r/t/unzipped")
              = [1100; 1200; 1250; 1400; 1500; 1550; 1600; 1700; 1800])
    by (vm_compute; reflexivity).
  assert (Hasc : ascending
            (omap timeOf (@browserEventsOf orderedShards eventDecoder "/r/t/unzipped"))).
  { rewrite E. unfold ascending. repeat constructor; lia. }
  split; [split; [exact E | exact Hasc]|].
  split; [vm_compute; auto|].
  exact (proj2 (proj2 (proj2 (@collections_keep_file_order orderedShards eventDecoder
                                "/r/t/unzipped"))) Hasc).
Defined.

(** Of a malformed line and two valid lines, two events and one
    warning. *)
Example scenario_C :
  @parseJsonlFile (filesystem [(lit "/r/t/unzipped/test.trace", scenarioC)])
    TraceEvent eventDecoder "/r/t/unzipped/test.trace"
  = ([Stdout {| io_timestamp := 2; io_text := "ok" |};
      Stderr {| io_timestamp := 3; io_text := "done" |}],
     [lit "Failed to parse line: " ++ dq "{'type':'stdout','timestamp':1,'text':'tru"
      ++ lit "..."]).
Proof. vm_compute. reflexivity. Qed.

(** * Further properties *)

(** ** More on the nearest screenshot *)

Lemma StronglySorted_lookup_lt {A} (R : A -> A -> Prop) (l : list A) :
  StronglySorted R l ->
  forall i j a b, (i < j)%nat -> l !! i = Some a -> l !! j = Some b -> R a b.
Proof.
  intros Hs. induction Hs as [|x l Hs IH Hx]; intros i j a b Hij Hi Hj.
  - rewrite lookup_nil in Hi. discriminate.
  - rewrite Forall_forall in Hx. destruct i as [|i], j as [|j]; simpl in *; try lia.
    + injection Hi as <-. apply Hx. eapply list_elem_of_lookup_2, Hj.
    + eapply IH; [|eassumption|eassumption]. lia.
Qed.

Lemma at_lookup {A} (l : list A) (i : Z) (x : A) :
  at_ l i = Some x <-> 0 <= i /\ l !! Z.to_nat i = Some x.
Proof.
  unfold at_. destruct (i <? 0) eqn:E.
  - apply Z.ltb_lt in E. split; [discriminate | lia].
  - apply Z.ltb_ge in E. tauto.
Qed.

(** The frames sorted by [byTimestamp] are in ascending order of
    their time stamps. *)
Lemma sorted_frames_ascending (screenshots : list ScreencastFrameEvent) (i j : Z)
    (a b : ScreencastFrameEvent) :
  i <= j ->
  at_ (sort byTimestamp screenshots) i = Some a ->
  at_ (sort byTimestamp screenshots) j = Some b ->
  sf_timestamp a <= sf_timestamp b.
Proof.
  intros Hij Ha Hb. apply at_lookup in Ha as [Hi Ha], Hb as [Hj Hb].
  destruct (decide (i = j)) as [->|Hne]; [rewrite Ha in Hb; injection Hb as ->; lia|].
  pose proof (sort_ascending sf_timestamp screenshots) as Hs.
  unfold ascending in Hs.
  eapply (StronglySorted_lookup_lt Z.le _ Hs (Z.to_nat i) (Z.to_nat j)); [lia| |].
  - rewrite list_lookup_fmap. change (sort _ screenshots) with (sort byTimestamp screenshots).
    rewrite Ha. reflexivity.
  - rewrite list_lookup_fmap. change (sort _ screenshots) with (sort byTimestamp screenshots).
    rewrite Hb. reflexivity.
Qed.

Section NearestMore.
Context `{Node}.

(** The [reduce] keeps the first index of the least distance to the
    time stamp: the elements before it are further away. *)
Lemma reduceFrom_closer_first (sorted : list ScreencastFrameEvent) (ts : Z) :
  forall l pre acc,
    sorted = pre ++ l ->
    (forall j s, 0 <= j < acc -> at_ sorted j = Some s ->
       exists b, at_ sorted acc = Some b /\
         Z.abs (sf_timestamp b - ts) < Z.abs (sf_timestamp s - ts)) ->
    (exists b, at_ sorted acc = Some b /\ acc <= Z.of_nat (length pre) /\
       Forall (fun s => Z.abs (sf_timestamp b - ts) <= Z.abs (sf_timestamp s - ts)) pre) ->
    forall j s,
      0 <= j < reduceFrom (closer sorted ts) (Z.of_nat (length pre)) l acc ->
      at_ sorted j = Some s ->
      exists b,
        at_ sorted (reduceFrom (closer sorted ts) (Z.of_nat (length pre)) l acc)
        = Some b /\
        Z.abs (sf_timestamp b - ts) < Z.abs (sf_timestamp s - ts).
Proof.
  induction l as [|x l IH]; intros pre acc Hs Hfirst (b & Hb & Hacc & Hmin); simpl.
  - exact Hfirst.
  - replace (Z.of_nat (length pre) + 1) with (Z.of_nat (length (pre ++ [x])))
      by (rewrite length_app; simpl; lia).
    assert (Hx : at_ sorted (Z.of_nat (length pre)) = Some x)
      by (rewrite Hs; apply at_middle).
    assert (Hc : closer sorted ts acc x (Z.of_nat (length pre))
                 = if Z.abs (sf_timestamp x - ts) <? Z.abs (sf_timestamp b - ts)
                   then Z.of_nat (length pre) else acc)
      by (unfold closer; rewrite Hb; reflexivity).
    rewrite Hc.
    destruct (Z.abs (sf_timestamp x - ts) <? Z.abs (sf_timestamp b - ts)) eqn:E.
    + apply Z.ltb_lt in E.
      apply IH; [rewrite <- app_assoc; exact Hs| |].
      * intros j s Hj Hsj. exists x. split; [exact Hx|].
        apply at_lookup in Hsj as [_ Hsj].
        rewrite Hs, lookup_app_l in Hsj by lia.
        rewrite Forall_forall in Hmin.
        specialize (Hmin s (list_elem_of_lookup_2 _ _ _ Hsj)). lia.
      * exists x. split; [exact Hx|]. split; [rewrite length_app; simpl; lia|].
        apply Forall_app. split; [|repeat constructor; lia].
        eapply Forall_impl; [exact Hmin|]. simpl. intros; lia.
    + apply Z.ltb_ge in E.
      apply IH; [rewrite <- app_assoc; exact Hs|exact Hfirst|].
      exists b. split; [exact Hb|]. split; [rewrite length_app; simpl; lia|].
      apply Forall_app. split; [exact Hmin | repeat constructor; exact E].
Qed.

Lemma closestIndexOf_first (sorted : list ScreencastFrameEvent) (ts : Z) :
  sorted <> [] ->
  forall j s, 0 <= j < closestIndexOf sorted ts -> at_ sorted j = Some s ->
    exists b, at_ sorted (closestIndexOf sorted ts) = Some b /\
      Z.abs (sf_timestamp b - ts) < Z.abs (sf_timestamp s - ts).
Proof.
  intros Hne. unfold closestIndexOf.
  apply (reduceFrom_closer_first sorted ts sorted [] 0 eq_refl).
  - intros j s Hj. lia.
  - destruct sorted as [|x l]; [congruence|].
    exists x. split; [reflexivity|]. split; [simpl; lia | constructor].
Qed.

(** The result for a list that is not empty, unfolded. *)
Lemma getScreenshotsAround_target (screenshots : list ScreencastFrameEvent)
    (ts cc : Z) (traceDir : jsstring) :
  screenshots <> [] ->
  let sorted := sort byTimestamp screenshots in
  let r := getScreenshotsAround screenshots ts cc traceDir in
  exists b, at_ sorted (closestIndexOf sorted ts) = Some b /\
    targetIndex r = closestIndexOf sorted ts /\
    timestamp r = sf_timestamp b /\
    target r = getScreenshotPath traceDir (sf_sha1 b) /\
    Forall (fun s => Z.abs (sf_timestamp b - ts) <= Z.abs (sf_timestamp s - ts)) sorted.
Proof.
  intros Hne sorted r.
  assert (Hs : sorted <> []).
  { intros E. apply Hne, length_zero_iff_nil.
    rewrite <- (sort_length byTimestamp). fold sorted. rewrite E. reflexivity. }
  destruct (closestIndexOf_spec sorted ts Hs) as (b & Hb & Hmin).
  exists b. unfold r, getScreenshotsAround. fold sorted.
  destruct (length sorted =? 0)%nat eqn:Hlen.
  { apply Nat.eqb_eq, length_zero_iff_nil in Hlen. congruence. }
  rewrite Hb. cbn [targetIndex timestamp target]. auto.
Qed.

(** X1: the target is a screenshot nearest in time to the query, and
    of the nearest ones the first in time order: every screenshot is
    as far from the query as the target or further, and those at
    lower indices of the sorted list are further. *)
Theorem nearest_is_closest (screenshots : list ScreencastFrameEvent)
    (timestamp_ contextCount : Z) (traceDir : jsstring) :
  let sorted := sort byTimestamp screenshots in
  let r := getScreenshotsAround screenshots timestamp_ contextCount traceDir in
  screenshots <> [] ->
  (forall s, s ∈ screenshots ->
     Z.abs (timestamp r - timestamp_) <= Z.abs (sf_timestamp s - timestamp_)) /\
  (forall j s, 0 <= j < targetIndex r -> at_ sorted j = Some s ->
     Z.abs (timestamp r - timestamp_) < Z.abs (sf_timestamp s - timestamp_)).
Proof.
  intros sorted r Hne.
  destruct (getScreenshotsAround_target screenshots timestamp_ contextCount traceDir Hne)
    as (b & Hb & Hi & Ht & _ & Hmin).
  fold sorted r in Hb, Hi, Ht, Hmin. rewrite Ht, Hi. split.
  - intros s Hs. rewrite Forall_forall in Hmin. apply Hmin.
    apply (sort_elem_of byTimestamp). exact Hs.
  - intros j s Hj Hs.
    assert (Hsn : sorted <> []) by (intros E; rewrite E in Hs; apply at_lookup in Hs as [_ Hs]; discriminate).
    destruct (closestIndexOf_first sorted timestamp_ Hsn j s Hj Hs) as (b' & Hb' & Hlt).
    rewrite Hb in Hb'. injection Hb' as <-. exact Hlt.
Qed.

(** X2: for a context count that is not negative the entries before
    the target are the sorted screenshots at the indices that end
    just below the target, the entries after it those at the indices
    that start just above; none before is later in time than the
    target and none after is earlier. *)
Theorem context_is_adjacent (screenshots : list ScreencastFrameEvent)
    (timestamp_ contextCount : Z) (traceDir : jsstring) :
  let r := getScreenshotsAround screenshots timestamp_ contextCount traceDir in
  0 <= contextCount ->
  (forall k ref, before r !! k = Some ref ->
     ref_index ref = targetIndex r - Z.of_nat (length (before r)) + Z.of_nat k /\
     ref_timestamp ref <= timestamp r) /\
  (forall k ref, after r !! k = Some ref ->
     ref_index ref = targetIndex r + 1 + Z.of_nat k /\
     timestamp r <= ref_timestamp ref).
Proof.
  intros r Hcc. unfold r, getScreenshotsAround.
  set (sorted := sort byTimestamp screenshots).
  destruct (length sorted =? 0)%nat eqn:Hlen.
  { simpl. split; intros k ref Hk; rewrite lookup_nil in Hk; discriminate. }
  apply Nat.eqb_neq in Hlen.
  assert (Hne : sorted <> []) by (intros E; rewrite E in Hlen; apply Hlen; reflexivity).
  destruct (closestIndexOf_spec sorted timestamp_ Hne) as (b & Hb & _).
  rewrite Hb. cbn [timestamp target targetIndex before after].
  pose proof (at_valid _ _ _ Hb) as Hci.
  set (ci := closestIndexOf sorted timestamp_) in *.
  unfold mapIndexed. rewrite !length_imap. split.
  - intros k ref Hk. apply list_lookup_imap_Some in Hk as (x & Hx & ->).
    cbn [ref_index ref_timestamp].
    pose proof (slice_length sorted (Z.max 0 (ci - contextCount)) ci ltac:(lia) ltac:(lia)).
    apply slice_lookup in Hx as [Hlt Hx]; [|lia|lia].
    split; [lia|].
    apply (sorted_frames_ascending screenshots
             (Z.max 0 (ci - contextCount) + Z.of_nat k) ci x b);
      [lia|exact Hx|exact Hb].
  - intros k ref Hk. apply list_lookup_imap_Some in Hk as (x & Hx & ->).
    cbn [ref_index ref_timestamp].
    apply slice_lookup in Hx as [Hlt Hx]; [|lia|lia].
    split; [reflexivity|].
    apply (sorted_frames_ascending screenshots ci (ci + 1 + Z.of_nat k) b x);
      [lia|exact Hb|exact Hx].
Qed.

(** X3: the result is the sentinel, with the index -1 and empty lists,
    exactly when there is no screenshot; otherwise the target index is
    an index of the list. *)
Theorem sentinel_iff_empty (screenshots : list ScreencastFrameEvent)
    (timestamp_ contextCount : Z) (traceDir : jsstring) :
  let r := getScreenshotsAround screenshots timestamp_ contextCount traceDir in
  (screenshots = [] -> r = noScreenshot) /\
  (screenshots <> [] -> 0 <= targetIndex r < Z.of_nat (length screenshots)) /\
  (targetIndex r = -1 <-> screenshots = []).
Proof.
  intros r.
  assert (H1 : screenshots = [] -> r = noScreenshot).
  { intros ->. reflexivity. }
  assert (H2 : screenshots <> [] -> 0 <= targetIndex r < Z.of_nat (length screenshots)).
  { intros Hne.
    destruct (getScreenshotsAround_target screenshots timestamp_ contextCount traceDir Hne)
      as (b & Hb & Hi & _).
    fold r in Hi. rewrite Hi. apply at_valid in Hb.
    rewrite sort_length in Hb. exact Hb. }
  split; [exact H1|]. split; [exact H2|]. split.
  - intros Hi. destruct screenshots as [|s l]; [reflexivity|].
    assert (s :: l <> []) as Hne by discriminate. specialize (H2 Hne). lia.
  - intros E. rewrite (H1 E). reflexivity.
Qed.

End NearestMore.

(** X1, at the five frames and a query between two of them. *)
Lemma nearest_is_closest_witness :
  let r := @getScreenshotsAround (filesystem []) fiveFrames 34 1 "/r/t/unzipped" in
  fiveFrames <> [] /\
  timestamp r = 30 /\
  forall s, s ∈ fiveFrames -> Z.abs (timestamp r - 34) <= Z.abs (sf_timestamp s - 34).
Proof.
  assert (Hne : fiveFrames <> []) by discriminate.
  split; [exact Hne|]. split; [vm_compute; reflexivity|].
  exact (proj1 (@nearest_is_closest (filesystem []) fiveFrames 34 1 "/r/t/unzipped" Hne)).
Defined.

(** X2, at the five frames with a context of two. *)
Lemma context_is_adjacent_witness :
  let r := @getScreenshotsAround (filesystem []) fiveFrames 30 2 "/r/t/unzipped" in
  0 <= 2 /\
  ref_index <$> before r = [0; 1] /\
  forall k ref, after r !! k = Some ref ->
    ref_index ref = targetIndex r + 1 + Z.of_nat k /\ timestamp r <= ref_timestamp ref.
Proof.
  split; [lia|]. split; [vm_compute; reflexivity|].
  exact (proj2 (@context_is_adjacent (filesystem []) fiveFrames 30 2 "/r/t/unzipped"
                  ltac:(lia))).
Defined.

(** ** The list of screenshots *)

Section Listing.
Context `{Node} `{Coercions}.

Lemma commandScreenshots_lookup (ctx : TraceContext) (k : nat) (e : ScreenshotEntry) :
  commandScreenshots ctx !! k = Some e <->
  exists s, sort byTimestamp (screenshots ctx) !! k = Some s /\
    e = {| se_index := Z.of_nat k; se_timestamp := sf_timestamp s;
           se_path := getScreenshotPath (tracePath ctx) (sf_sha1 s);
           se_width := sf_width s; se_height := sf_height s |}.
Proof.
  unfold commandScreenshots, mapIndexed. rewrite list_lookup_imap_Some. reflexivity.
Qed.

(** X4: the list of the [screenshots] command has one entry for each
    screenshot of the context, numbered from zero in the order of
    the list, in ascending order of time. *)
Theorem screenshots_listing (ctx : TraceContext) :
  let l := commandScreenshots ctx in
  (forall k e, l !! k = Some e -> se_index e = Z.of_nat k) /\
  ascending (se_timestamp <$> l) /\
  Permutation ((fun e => (se_timestamp e, se_path e)) <$> l)
    ((fun s => (sf_timestamp s, getScreenshotPath (tracePath ctx) (sf_sha1 s)))
     <$> screenshots ctx).
Proof.
  intros l. split; [|split].
  - intros k e Hk. apply commandScreenshots_lookup in Hk as (s & _ & ->). reflexivity.
  - unfold l, commandScreenshots, mapIndexed. rewrite fmap_imap.
    rewrite (imap_ext _ (const sf_timestamp)) by reflexivity.
    rewrite imap_const. apply (sort_ascending sf_timestamp).
  - unfold l, commandScreenshots, mapIndexed. rewrite fmap_imap.
    rewrite (imap_ext _ (const (fun s => (sf_timestamp s,
                                     getScreenshotPath (tracePath ctx) (sf_sha1 s)))))
      by reflexivity.
    rewrite imap_const. apply fmap_Permutation, sort_perm.
Qed.

(** The entries of the two context lists name sorted screenshots. *)
Lemma context_refs (screenshots : list ScreencastFrameEvent) (ts cc : Z)
    (traceDir : jsstring) (ref : ScreenshotRef) :
  0 <= cc ->
  let r := getScreenshotsAround screenshots ts cc traceDir in
  ref ∈ before r ++ after r ->
  refersTo traceDir (sort byTimestamp screenshots) ref.
Proof.
  intros Hcc r. unfold r, getScreenshotsAround.
  set (sorted := sort byTimestamp screenshots).
  destruct (length sorted =? 0)%nat eqn:Hlen.
  { simpl. intros Href. inversion Href. }
  apply Nat.eqb_neq in Hlen.
  assert (Hne : sorted <> []) by (intros E; rewrite E in Hlen; apply Hlen; reflexivity).
  destruct (closestIndexOf_spec sorted ts Hne) as (b & Hb & _).
  rewrite Hb. cbn [before after]. pose proof (at_valid _ _ _ Hb) as Hci.
  intros Href. unfold mapIndexed in Href.
  apply elem_of_app in Href as [Href|Href];
    apply elem_of_lookup_imap in Href as (k & x & -> & Hk);
    apply slice_lookup in Hk as [_ Hx]; try lia;
    exists x; auto.
Qed.

(** X5: the indices that the nearest-screenshot search reports are
    indices of the list of the [screenshots] command: the entry there
    at the target index has the path and the time stamp of the target,
    and, for a context count that is not negative, so has the entry at
    the index of each context screenshot. *)
Theorem indices_agree_with_listing (ctx : TraceContext) (timestamp_ contextCount : Z) :
  let r := getScreenshotsAround (screenshots ctx) timestamp_ contextCount (tracePath ctx) in
  let l := commandScreenshots ctx in
  (screenshots ctx <> [] ->
   exists e, at_ l (targetIndex r) = Some e /\
     se_path e = target r /\ se_timestamp e = timestamp r) /\
  (0 <= contextCount ->
   forall ref, ref ∈ before r ++ after r ->
     exists e, at_ l (ref_index ref) = Some e /\
       se_path e = ref_path ref /\ se_timestamp e = ref_timestamp ref).
Proof.
  intros r l. split.
  - intros Hne.
    destruct (getScreenshotsAround_target (screenshots ctx) timestamp_ contextCount
                (tracePath ctx) Hne) as (b & Hb & Hi & Ht & Hp & _).
    fold r in Hi, Ht, Hp. rewrite Hi, Ht, Hp.
    apply at_lookup in Hb as [Hpos Hb].
    eexists. split.
    + apply at_lookup. split; [exact Hpos|].
      apply commandScreenshots_lookup. exists b. split; [exact Hb | reflexivity].
    + split; reflexivity.
  - intros Hcc ref Href.
    destruct (context_refs _ _ _ _ ref Hcc Href) as (s & Hs & Ht & Hp).
    apply at_lookup in Hs as [Hpos Hs].
    eexists. split.
    + apply at_lookup. split; [exact Hpos|].
      apply commandScreenshots_lookup. exists s. split; [exact Hs | reflexivity].
    + split; [rewrite Hp | rewrite Ht]; reflexivity.
Qed.

End Listing.

(** ** The errors command *)

Lemma maximum_spec (x : Z) (l : list Z) :
  maximum x l ∈ x :: l /\ Forall (fun y => y <= maximum x l) (x :: l).
Proof.
  unfold maximum. revert x; induction l as [|y l IH]; intros x; simpl.
  - split; [left | repeat constructor; lia].
  - destruct (IH (Z.max x y)) as [Hin Hall]. split.
    + apply elem_of_cons in Hin as [Hin|Hin]; [|right; right; exact Hin].
      rewrite Hin. destruct (Z.max_spec x y) as [[_ ->]|[_ ->]]; [right; left | left].
    + inversion Hall as [|? ? Hm Hl]; subst.
      constructor; [lia|]. constructor; [lia | exact Hl].
Qed.

Section Errors.
Context `{Node} `{Coercions}.

(** X6: when the context has page errors, the [errors] command
    reports them and nothing else, one entry for each in their order,
    with the time of the error and its message ([Unknown error] for a
    missing or empty one); the error-context document, even when
    there is one, adds no entry. *)
Theorem errors_reports_page_errors (ctx : TraceContext) :
  errors ctx <> [] ->
  er_timestamp <$> commandErrors ctx = ev_time <$> errors ctx /\
  er_message <$> commandErrors ctx
  = (fun e => or_else (default [] (message <$> ev_error e)) "Unknown error")
    <$> errors ctx /\
  Forall (fun r => er_source r = None /\ er_message r <> []) (commandErrors ctx).
Proof.
  intros Hne. unfold commandErrors.
  rewrite length_map.
  destruct (errors ctx) as [|e es] eqn:He; [congruence|].
  cbn [length Nat.ltb Nat.leb]. rewrite app_nil_r.
  split; [|split].
  - rewrite <- list_fmap_compose. reflexivity.
  - rewrite <- list_fmap_compose. reflexivity.
  - apply Forall_forall. intros r Hr.
    apply list_elem_of_In, in_map_iff in Hr as (x & <- & _).
    cbn [er_source er_message]. split; [reflexivity|].
    intros E. pose proof (or_else_truthy (default [] (message <$> ev_error x))
                            (lit "Unknown error") ltac:(discriminate)) as Ht.
    rewrite E in Ht. discriminate.
Qed.

(** X7: the console context of an entry that does not come from the
    error-context document is made of the console messages less than
    a second away from the time of the entry, in their order; the
    entry of the document has no console context. *)
Theorem errors_console_context (ctx : TraceContext) (r : ErrorResult) :
  r ∈ commandErrors ctx ->
  (er_source r = None ->
   er_consoleContext r `sublist_of` consoleMessages ctx /\
   forall c, c ∈ er_consoleContext r <->
     c ∈ consoleMessages ctx /\ Z.abs (ce_time c - er_timestamp r) < 1000) /\
  (er_source r <> None -> er_consoleContext r = []).
Proof.
  assert (Hnear : forall t,
            consoleNear ctx t `sublist_of` consoleMessages ctx /\
            forall c, c ∈ consoleNear ctx t <->
              c ∈ consoleMessages ctx /\ Z.abs (ce_time c - t) < 1000).
  { intros t. unfold consoleNear. split; [apply filter_sublist|].
    intros c. rewrite !list_elem_of_In, filter_In, Z.ltb_lt. reflexivity. }
  unfold commandErrors. intros Hr. apply elem_of_app in Hr as [Hr|Hr].
  - apply list_elem_of_In, in_map_iff in Hr as (x & <- & _).
    cbn [er_source er_consoleContext er_timestamp].
    split; [intros _; apply Hnear | congruence].
  - destruct (0 <? length _)%nat; [inversion Hr|].
    destruct (loadErrorContext (tracePath ctx)) as [ec|].
    + apply list_elem_of_singleton in Hr as ->.
      cbn [er_source er_consoleContext]. split; [discriminate | reflexivity].
    + destruct (truthyNum (errorTime ctx)); [|inversion Hr].
      apply list_elem_of_singleton in Hr as ->.
      cbn [er_source er_consoleContext er_timestamp].
      split; [intros _; apply Hnear | congruence].
Qed.

(** X8: without page errors, a trace with an error-context document
    gets one entry, with the message and the location of the document,
    at the time of the latest screenshot (zero without screenshots);
    the target screenshot of the entry has that time stamp, and no
    screenshot is later. *)
Theorem errors_from_document (ctx : TraceContext) (ec : ErrorContext) :
  errors ctx = [] ->
  loadErrorContext (tracePath ctx) = Some ec ->
  exists r, commandErrors ctx = [r] /\
    er_message r = ec_errorMessage ec /\
    er_location r = Some (ec_errorLocation ec) /\
    er_source r = Some (lit "error-context.md") /\
    (screenshots ctx = [] -> er_timestamp r = 0) /\
    (screenshots ctx <> [] ->
     ref_timestamp (es_target (er_screenshots r)) = er_timestamp r /\
     Forall (fun s => sf_timestamp s <= er_timestamp r) (screenshots ctx)).
Proof.
  intros He Hload. unfold commandErrors. rewrite He, Hload.
  cbn [List.map length Nat.ltb Nat.leb app].
  eexists. split; [reflexivity|].
  cbn [er_message er_location er_source er_timestamp er_screenshots].
  split; [reflexivity|]. split; [reflexivity|]. split; [reflexivity|].
  destruct (screenshots ctx) as [|s l] eqn:Hs.
  - split; [reflexivity | congruence].
  - split; [discriminate|]. intros _. rewrite fmap_cons.
    destruct (maximum_spec (sf_timestamp s) (sf_timestamp <$> l)) as [Hin Hall].
    set (m := maximum (sf_timestamp s) (sf_timestamp <$> l)) in *.
    split.
    + cbn [screenshotsOf es_target ref_timestamp].
      assert (Hne : s :: l <> []) by discriminate.
      destruct (getScreenshotsAround_target (s :: l) m 2 (tracePath ctx) Hne)
        as (b & _ & _ & Ht & _ & Hmin).
      rewrite Ht. rewrite Forall_forall in Hmin.
      change (sf_timestamp s :: (sf_timestamp <$> l)) with (sf_timestamp <$> s :: l) in Hin.
      apply list_elem_of_fmap in Hin as (x & Hx & Hxin).
      apply (sort_elem_of byTimestamp) in Hxin. specialize (Hmin x Hxin). lia.
    + change (sf_timestamp s :: (sf_timestamp <$> l)) with (sf_timestamp <$> s :: l) in Hall.
      rewrite Forall_fmap in Hall. exact Hall.
Qed.

(** X9: without page errors and without an error-context document,
    the [errors] command reports the error of the context, at its
    time and with its message ([Test failed] for a missing or empty
    one), when the error time of the context is not zero; when the
    error time is absent or zero it reports nothing. *)
Theorem errors_from_context (ctx : TraceContext) :
  errors ctx = [] ->
  loadErrorContext (tracePath ctx) = None ->
  (forall t, errorTime ctx = Some t -> t <> 0 ->
     exists r, commandErrors ctx = [r] /\
       er_timestamp r = t /\
       er_message r = or_else (default [] (errorMessage ctx)) "Test failed" /\
       er_source r = None) /\
  (errorTime ctx = None \/ errorTime ctx = Some 0 -> commandErrors ctx = []).
Proof.
  intros He Hload. unfold commandErrors. rewrite He, Hload.
  cbn [List.map length Nat.ltb Nat.leb app]. split.
  - intros t Ht Hnz. rewrite Ht. cbn [truthyNum].
    apply Z.eqb_neq in Hnz. rewrite Hnz. cbn [negb].
    eexists. split; [reflexivity|]. auto.
  - intros [->| ->]; reflexivity.
Qed.

End Errors.

(** X6, at the run with two page errors. *)
Lemma errors_reports_page_errors_witness :
  let ctx := @contextOf pageErrorRun eventDecoder "/r/t/unzipped" in
  errors ctx <> [] /\
  er_timestamp <$> @commandErrors pageErrorRun ctx = ev_time <$> errors ctx.
Proof.
  assert (Hne : errors (@contextOf pageErrorRun eventDecoder "/r/t/unzipped") <> [])
    by (vm_compute; discriminate).
  split; [exact Hne|].
  exact (proj1 (@errors_reports_page_errors pageErrorRun _ Hne)).
Defined.

(** X7, at the page error among the console messages: the two
    messages at 4200 ms and 5900 ms are its console context. *)
Lemma errors_console_context_witness :
  let ctx := @contextOf noisyFailure eventDecoder "/r/t/unzipped" in
  exists r, r ∈ @commandErrors noisyFailure ctx /\
    ce_time <$> er_consoleContext r = [4200; 5900] /\
    forall c, c ∈ er_consoleContext r <->
      c ∈ consoleMessages ctx /\ Z.abs (ce_time c - er_timestamp r) < 1000.
Proof.
  cbv zeta. set (ctx := @contextOf noisyFailure eventDecoder "/r/t/unzipped").
  assert (Hr : exists r rest, @commandErrors noisyFailure ctx = r :: rest /\
                 er_source r = None /\
                 ce_time <$> er_consoleContext r = [4200; 5900]).
  { vm_compute. eexists. eexists. split; [reflexivity|]. split; reflexivity. }
  destruct Hr as (r & rest & Hc & Hs & Ht).
  assert (Hin : r ∈ @commandErrors noisyFailure ctx) by (rewrite Hc; left).
  exists r. split; [exact Hin|]. split; [exact Ht|].
  exact (proj2 (proj1 (@errors_console_context noisyFailure ctx r Hin) Hs)).
Defined.

(** X8, at the run with the document and two screenshots. *)
Lemma errors_from_document_witness :
  let ctx := @contextOf documentedFailure eventDecoder "/r/t/unzipped" in
  let ec := {| ec_testName := "sample app loads";
               ec_errorMessage := "Expected visible, got hidden";
               ec_errorLocation := "e2e/sample.spec.ts:3:5" |} in
  (errors ctx = [] /\ @loadErrorContext documentedFailure (tracePath ctx) = Some ec) /\
  exists r, @commandErrors documentedFailure ctx = [r] /\
    er_message r = lit "Expected visible, got hidden".
Proof.
  cbv zeta. set (ctx := @contextOf documentedFailure eventDecoder "/r/t/unzipped").
  assert (He : errors ctx = []) by (vm_compute; reflexivity).
  assert (Hl : @loadErrorContext documentedFailure (tracePath ctx)
               = Some {| ec_testName := "sample app loads";
                         ec_errorMessage := "Expected visible, got hidden";
                         ec_errorLocation := "e2e/sample.spec.ts:3:5" |})
    by (vm_compute; reflexivity).
  split; [split; [exact He | exact Hl]|].
  destruct (@errors_from_document documentedFailure ctx _ He Hl) as (r & Hr & Hm & _).
  exists r. split; [exact Hr | exact Hm].
Defined.

(** X9, at the run that fails in the output of the runner. *)
Lemma errors_from_context_witness :
  let ctx := @contextOf runnerFailure eventDecoder "/r/t/unzipped" in
  (errors ctx = [] /\ @loadErrorContext runnerFailure (tracePath ctx) = None) /\
  exists r, @commandErrors runnerFailure ctx = [r] /\ er_timestamp r = 9.
Proof.
  cbv zeta. set (ctx := @contextOf runnerFailure eventDecoder "/r/t/unzipped").
  assert (He : errors ctx = []) by (vm_compute; reflexivity).
  assert (Hl : @loadErrorContext runnerFailure (tracePath ctx) = None)
    by (vm_compute; reflexivity).
  split; [split; [exact He | exact Hl]|].
  destruct (proj1 (@errors_from_context runnerFailure ctx He Hl) 9
              ltac:(vm_compute; reflexivity) ltac:(lia)) as (r & Hr & Ht & _).
  exists r. split; [exact Hr | exact Ht].
Defined.

(** ** The actions command and the merge of actions *)

Section ActionsReport.
Context `{Node} `{Decoder TraceEvent} `{Coercions}.

(** X10: every action of the context merges a key action start with
    the last action end of the trace that has its call identifier:
    the end time and the error message of the action are those of
    that end, and both are absent when there is no such end. *)
Theorem merge_takes_last_end (traceDir : jsstring) (act : Action) :
  let bt := browserEventsOf traceDir in
  act ∈ actions (contextOf traceDir) ->
  let ends :=
    List.filter (fun a => bool_decide (af_callId a = be_callId (act_before act)))
      (omap asAfter bt) in
  Before (act_before act) ∈ bt /\
  isKeyAction (be_apiName (act_before act)) = true /\
  act_endTime act = af_endTime <$> last ends /\
  act_error act = message <$> (last ends ≫= af_error).
Proof.
  intros bt Hact ends.
  destruct (parseTrace_collections traceDir) as (_ & _ & _ & Ha & _).
  fold bt in Ha. rewrite Ha in Hact.
  apply list_elem_of_In, in_map_iff in Hact as (b & <- & Hb).
  apply filter_In in Hb as [Hb Hkey]. apply list_elem_of_In, list_elem_of_omap in Hb
    as (e & He & Hcast).
  destruct e; simpl in Hcast; try discriminate. injection Hcast as ->.
  unfold ends, mergeAction. cbn [act_before act_endTime act_error].
  rewrite afterMapOf_lookup. auto.
Qed.

(** X11: the [actions] command lists the key action starts of the
    trace in their order, each with its start time as time stamp,
    with the end time of the last action end that has its call
    identifier, and with the duration from the start to that end; a
    start without end, or with an end at time zero, has no duration. *)
Theorem actions_report (traceDir : jsstring) :
  let bt := browserEventsOf traceDir in
  let starts := List.filter (fun e => isKeyAction (be_apiName e)) (omap asBefore bt) in
  let results := commandActions (contextOf traceDir) in
  ar_timestamp <$> results = be_startTime <$> starts /\
  ar_apiName <$> results = be_apiName <$> starts /\
  forall k r b, results !! k = Some r -> starts !! k = Some b ->
    let ends :=
      List.filter (fun a => bool_decide (af_callId a = be_callId b)) (omap asAfter bt) in
    ar_endTime r = af_endTime <$> last ends /\
    ar_duration r
    = match last ends with
      | Some a =>
          if af_endTime a =? 0 then None else Some (af_endTime a - be_startTime b)
      | None => None
      end.
Proof.
  intros bt starts results.
  destruct (parseTrace_collections traceDir) as (_ & _ & _ & Ha & _).
  fold bt starts in Ha.
  unfold results, commandActions. rewrite Ha.
  change (List.map ?f ?l) with (f <$> l). rewrite <- !list_fmap_compose.
  split; [reflexivity|]. split; [reflexivity|].
  intros k r b Hr Hb. rewrite list_lookup_fmap, Hb in Hr. injection Hr as <-.
  cbn [compose mergeAction act_before act_endTime ar_endTime ar_duration].
  rewrite afterMapOf_lookup.
  split; [reflexivity|].
  destruct (last _) as [a|]; cbn [fmap option_fmap option_map truthyNum default
                                     from_option id]; [|reflexivity].
  destruct (af_endTime a =? 0); reflexivity.
Qed.

(** X12: the context has an error time exactly when its status is
    [failed], and an error message only then. *)
Theorem failed_iff_error_time (traceDir : jsstring) :
  let ctx := contextOf traceDir in
  (status ctx = failed <-> is_Some (errorTime ctx)) /\
  (status ctx = passed <-> errorTime ctx = None) /\
  (is_Some (errorMessage ctx) -> status ctx = failed).
Proof.
  intros ctx. pose proof (parseTrace_status traceDir) as E. fold ctx in E.
  unfold statusInfoOf in E.
  destruct (find isAssertionOutput (testTraceOf traceDir) ≫= asStdio) as [o|];
    [|destruct (head (omap asPageError (browserEventsOf traceDir))) as [e|]];
    injection E as -> Hm ->; rewrite ?Hm;
    (split; [|split]);
    try (split; [eauto | reflexivity]);
    try (split; [discriminate | intros [x Hx]; discriminate]);
    try (split; discriminate);
    try (intros _; reflexivity);
    try (split; reflexivity);
    try (intros [x Hx]; discriminate).
Qed.

End ActionsReport.

(** X10, at the run of one navigation. *)
Lemma merge_takes_last_end_witness :
  exists act,
    act ∈ actions (@contextOf completeRun eventDecoder "/r/t/unzipped") /\
    be_apiName (act_before act) = lit "page.goto" /\
    act_endTime act = Some 1300.
Proof.
  assert (Ha : exists act rest,
             actions (@contextOf completeRun eventDecoder "/r/t/unzipped") = act :: rest /\
             be_apiName (act_before act) = lit "page.goto" /\
             be_callId (act_before act) = lit "call@1").
  { vm_compute. eexists. eexists. split; [reflexivity|]. split; reflexivity. }
  destruct Ha as (act & rest & Ha & Hn & Hid).
  assert (Hin : act ∈ actions (@contextOf completeRun eventDecoder "/r/t/unzipped"))
    by (rewrite Ha; left).
  exists act. split; [exact Hin|]. split; [exact Hn|].
  destruct (@merge_takes_last_end completeRun eventDecoder "/r/t/unzipped" act Hin)
    as (_ & _ & He & _).
  rewrite He, Hid. vm_compute. reflexivity.
Defined.

(** ** The timeline *)


Section Timeline.
Context `{Node} `{Coercions}.


End Timeline.

(** ** The age of a trace *)

(** X14: the age of a trace is printed in hours from one hour on, in
    minutes from one minute on and in seconds below that, each rounded
    down; a negative age is printed in seconds, rounded down. *)
Theorem formatRelativeTime_units (ms : Z) :
  (3600000 <= ms ->
   formatRelativeTime ms
   = ofZ (ms / 3600000) ++ lit " hour" ++ plural (ms / 3600000) ++ lit " ago") /\
  (60000 <= ms < 3600000 ->
   formatRelativeTime ms
   = ofZ (ms / 60000) ++ lit " minute" ++ plural (ms / 60000) ++ lit " ago") /\
  (ms < 60000 ->
   formatRelativeTime ms
   = ofZ (ms / 1000) ++ lit " second" ++ plural (ms / 1000) ++ lit " ago").
Proof.
  unfold formatRelativeTime.
  assert (Hm : ms / 1000 / 60 = ms / 60000) by (rewrite Z.div_div by lia; reflexivity).
  assert (Hh : ms / 1000 / 60 / 60 = ms / 3600000)
    by (rewrite !Z.div_div by lia; reflexivity).
  rewrite Hh, Hm. split; [|split].
  - intros Hms.
    assert (1 <= ms / 3600000) by (apply Z.div_le_lower_bound; lia).
    destruct (0 <? ms / 3600000) eqn:E; [reflexivity | apply Z.ltb_ge in E; lia].
  - intros Hms.
    assert (ms / 3600000 <= 0) by (apply Z.lt_succ_r, Z.div_lt_upper_bound; lia).
    assert (1 <= ms / 60000) by (apply Z.div_le_lower_bound; lia).
    destruct (0 <? ms / 3600000) eqn:E1; [apply Z.ltb_lt in E1; lia|].
    destruct (0 <? ms / 60000) eqn:E2; [reflexivity | apply Z.ltb_ge in E2; lia].
  - intros Hms.
    assert (ms / 60000 <= 0) by (apply Z.lt_succ_r, Z.div_lt_upper_bound; lia).
    assert (ms / 3600000 <= 0) by (apply Z.lt_succ_r, Z.div_lt_upper_bound; lia).
    destruct (0 <? ms / 3600000) eqn:E1; [apply Z.ltb_lt in E1; lia|].
    destruct (0 <? ms / 60000) eqn:E2; [apply Z.ltb_lt in E2; lia | reflexivity].
Qed.

(** ** Finding and selecting a trace *)

Lemma digit_range (c : N) : is_Some (Json.digit c) <-> (48 <= c <= 57)%N.
Proof.
  unfold Json.digit.
  destruct (48 <=? c)%N eqn:E1, (c <=? 57)%N eqn:E2; cbn [andb];
    rewrite ?N.leb_le, ?N.leb_gt in *;
    (split; [intros [d Hd]; try discriminate; lia | intros Hc; try lia; eauto]).
Qed.

Lemma digit_cases (c : N) :
  is_Some (Json.digit c) ->
  (c = 48 \/ c = 49 \/ c = 50 \/ c = 51 \/ c = 52 \/ c = 53 \/ c = 54
   \/ c = 55 \/ c = 56 \/ c = 57)%N.
Proof. rewrite digit_range. lia. Qed.

Lemma trimStart_blank_app (ws s : jsstring) :
  blank ws -> trimStart (ws ++ s) = trimStart s.
Proof.
  induction 1 as [|c ws Hc Hws IH]; [reflexivity|].
  cbn [app trimStart]. rewrite Hc. exact IH.
Qed.

Lemma trimStart_digit (c : N) (s : jsstring) :
  is_Some (Json.digit c) -> trimStart (c :: s) = c :: s.
Proof.
  intros Hc. apply digit_cases in Hc.
  repeat (destruct Hc as [-> | Hc]; [reflexivity|]). subst c. reflexivity.
Qed.

Lemma parseInt10_unsigned (c : N) (s : jsstring) :
  is_Some (Json.digit c) ->
  parseInt10 (c :: s)
  = let '(v, k, _) := Json.digits 0 0 (c :: s) in
    if k =? 0 then None else Some v.
Proof.
  intros Hc. unfold parseInt10. rewrite trimStart_digit by exact Hc.
  apply digit_cases in Hc.
  repeat (destruct Hc as [-> | Hc]; [reflexivity|]). subst c. reflexivity.
Qed.

(** The digits read stop at the first code unit that is not one. *)
Lemma digits_app (ds rest : jsstring) :
  Forall (fun c => is_Some (Json.digit c)) ds ->
  head rest ≫= Json.digit = None ->
  forall acc k, exists v,
    Json.digits acc k (ds ++ rest) = (v, k + Z.of_nat (length ds), rest) /\
    Json.digits acc k ds = (v, k + Z.of_nat (length ds), []).
Proof.
  intros Hds Hrest. induction Hds as [|c ds [d Hd] Hds IH]; intros acc k.
  - exists acc. cbn [app length]. rewrite Z.add_0_r. split; [|reflexivity].
    destruct rest as [|c rest]; [reflexivity|].
    cbn in Hrest. cbn [Json.digits]. rewrite Hrest. reflexivity.
  - cbn [app Json.digits]. rewrite Hd.
    destruct (IH (10 * acc + d) (k + 1)) as (v & E1 & E2). exists v.
    rewrite E1, E2. cbn [length].
    replace (k + Z.of_nat (S (length ds))) with (k + 1 + Z.of_nat (length ds)) by lia.
    split; reflexivity.
Qed.

Lemma parseInt10_prefix (ws ds rest : jsstring) :
  blank ws -> ds <> [] ->
  Forall (fun c => is_Some (Json.digit c)) ds ->
  head rest ≫= Json.digit = None ->
  parseInt10 (ws ++ ds ++ rest) = parseInt10 ds /\ is_Some (parseInt10 ds).
Proof.
  intros Hws Hne Hds Hrest.
  destruct (digits_app ds rest Hds Hrest 0 0) as (v & E1 & E2).
  destruct ds as [|c ds]; [contradiction|].
  assert (Hc : is_Some (Json.digit c)) by (inversion Hds; assumption).
  assert (Hp : parseInt10 (ws ++ (c :: ds) ++ rest) = parseInt10 ((c :: ds) ++ rest)).
  { unfold parseInt10 at 1 2. rewrite trimStart_blank_app by exact Hws.
    reflexivity. }
  rewrite Hp. change ((c :: ds) ++ rest) with (c :: (ds ++ rest)) in *.
  rewrite !parseInt10_unsigned by exact Hc. rewrite E1, E2.
  cbn [length]. destruct (0 + Z.of_nat (S (length ds)) =? 0) eqn:E;
    [apply Z.eqb_eq in E; lia|]. split; [reflexivity | eauto].
Qed.

Section SelectionFacts.
Variable testResultsDir : jsstring.

(** X15: when there is a trace, the answer selects one exactly when it
    reads as a whole number between one and the number of traces, and
    the path is that of the trace of that number in the list; any
    other answer is rejected with the message that names the range. *)
Theorem selection_resolves (traces : list TraceEntry) (answer : jsstring) :
  traces <> [] ->
  (forall p, resolveSelection testResultsDir traces answer = Ok p <->
     exists n e, parseInt10 answer = Some n /\
       1 <= n <= Z.of_nat (length traces) /\
       traces !! Z.to_nat (n - 1) = Some e /\ p = te_tracePath e) /\
  (forall m, resolveSelection testResultsDir traces answer = Thrown m ->
     m = lit "Invalid selection. Enter a number between 1 and "
         ++ ofZ (Z.of_nat (length traces))).
Proof.
  intros Hne. unfold resolveSelection.
  destruct traces as [|t0 traces']; [contradiction|].
  set (traces := t0 :: traces') in *.
  change (length traces =? 0)%nat with false. cbv iota.
  destruct (parseInt10 answer) as [n|].
  2:{ split; [|intros m [= <-]; reflexivity].
      intros p. split; [discriminate | intros (n & e & [=] & _)]. }
  destruct (n <? 1) eqn:E1; [apply Z.ltb_lt in E1 | apply Z.ltb_ge in E1].
  { cbn [orb]. split; [|intros m [= <-]; reflexivity].
    intros p. split; [discriminate | intros (n' & e & [= <-] & ? & _); lia]. }
  destruct (Z.of_nat (length traces) <? n) eqn:E2;
    [apply Z.ltb_lt in E2 | apply Z.ltb_ge in E2].
  { cbn [orb]. split; [|intros m [= <-]; reflexivity].
    intros p. split; [discriminate | intros (n' & e & [= <-] & ? & _); lia]. }
  cbn [orb]. unfold at_.
  destruct (n - 1 <? 0) eqn:E3; [apply Z.ltb_lt in E3; lia|].
  destruct (lookup_lt_is_Some_2 traces (Z.to_nat (n - 1)) ltac:(lia)) as [e He].
  rewrite He. split; [|discriminate].
  intros p. split.
  - intros [= <-]. exists n, e. auto with lia.
  - intros (n' & e' & [= <-] & _ & He' & ->). congruence.
Qed.

(** X16: white space before the number and anything after its digits
    are ignored: such an answer selects as the digits alone do. *)
Theorem selection_reads_leading_number
    (traces : list TraceEntry) (ws ds rest : jsstring) :
  blank ws -> ds <> [] ->
  Forall (fun c => is_Some (Json.digit c)) ds ->
  head rest ≫= Json.digit = None ->
  resolveSelection testResultsDir traces (ws ++ ds ++ rest)
  = resolveSelection testResultsDir traces ds.
Proof.
  intros Hws Hne Hds Hrest. unfold resolveSelection.
  destruct (parseInt10_prefix ws ds rest Hws Hne Hds Hrest) as [-> _].
  reflexivity.
Qed.

End SelectionFacts.

(** X15, at two traces: the answer [2] selects the older one. *)
Lemma selection_resolves_witness :
  twoTraces <> [] /\
  resolveSelection "/r/test-results" twoTraces "2"
  = Ok (lit "/r/test-results/login-works/trace.zip") /\
  forall m, resolveSelection "/r/test-results" twoTraces "3" = Thrown m ->
    m = lit "Invalid selection. Enter a number between 1 and 2".
Proof.
  assert (Hne : twoTraces <> []) by discriminate.
  split; [exact Hne|].
  destruct (selection_resolves "/r/test-results" twoTraces "2" Hne) as [Hok _].
  destruct (selection_resolves "/r/test-results" twoTraces "3" Hne) as [_ Hthrown].
  split; [|exact Hthrown].
  apply Hok. exists 2, (foundTrace "login-works" 1000000).
  split; [reflexivity|]. split; [simpl; lia|]. split; reflexivity.
Defined.

(** X16, at an answer with a space before the number and letters
    after it. *)
Lemma selection_reads_leading_number_witness :
  (blank (lit " ") /\ lit "2" <> [] /\
   Forall (fun c => is_Some (Json.digit c)) (lit "2") /\
   head (lit "nd") ≫= Json.digit = None) /\
  resolveSelection "/r/test-results" twoTraces " 2nd"
  = resolveSelection "/r/test-results" twoTraces "2".
Proof.
  assert (Hws : blank (lit " ")) by (repeat constructor).
  assert (Hne : lit "2" <> []) by discriminate.
  assert (Hds : Forall (fun c => is_Some (Json.digit c)) (lit "2"))
    by (repeat constructor; vm_compute; eauto).
  assert (Hrest : head (lit "nd") ≫= Json.digit = None) by reflexivity.
  split; [auto|].
  exact (selection_reads_leading_number "/r/test-results" twoTraces
           (lit " ") (lit "2") (lit "nd") Hws Hne Hds Hrest).
Defined.

(** ** Finding the traces *)

(** [Math.floor(ms / 1000)] is the same for a number of milliseconds
    and for its integer part. *)
Lemma floor_thousandth (ms : Q) :
  Qfloor (ms / inject_Z 1000) = Qfloor ms / 1000.
Proof.
  destruct ms as [n d]. unfold Qdiv, Qinv, Qmult, inject_Z, Qfloor.
  cbn [Qnum Qden]. rewrite Z.mul_1_r, Pos2Z.inj_mul.
  rewrite Z.div_div by lia. reflexivity.
Qed.

Section FindingFacts.
Context `{Node} `{Stat}.






End FindingFacts.


(** ** More on the diagnosis *)

Lemma or_else_nil (a : jsstring) : or_else a [] = a.
Proof. destruct a; reflexivity. Qed.

Lemma orNum_or (a : option Z) (b : Z) :
  orNum a b = if default 0 a =? 0 then b else default 0 a.
Proof.
  destruct a as [v|]; simpl; [|reflexivity]. destruct (v =? 0); reflexivity.
Qed.

Lemma filter_all {A} (p : A -> bool) (l : list A) :
  Forall (fun x => p x = true) l -> List.filter p l = l.
Proof.
  induction 1 as [|x l Hx Hl IH]; simpl; [reflexivity|]. rewrite Hx, IH. reflexivity.
Qed.

Lemma filter_none {A} (p : A -> bool) (l : list A) :
  Forall (fun x => p x = false) l -> List.filter p l = [].
Proof.
  induction 1 as [|x l Hx Hl IH]; simpl; [reflexivity|]. rewrite Hx, IH. reflexivity.
Qed.

Lemma filter_elem_pos {A} (p : A -> bool) (l : list A) (x : A) :
  x ∈ l -> p x = true -> (0 < length (List.filter p l))%nat.
Proof.
  intros Hx Hp. assert (Hin : In x (List.filter p l)).
  { apply filter_In. split; [apply list_elem_of_In, Hx | exact Hp]. }
  destruct (List.filter p l); [destruct Hin | simpl; lia].
Qed.

Lemma find_first {A} (p : A -> bool) (pre post : list A) (x : A) :
  Forall (fun y => p y = false) pre -> p x = true ->
  find p (pre ++ x :: post) = Some x.
Proof.
  intros Hpre Hx. induction Hpre as [|y pre Hy Hpre IH]; simpl.
  - rewrite Hx. reflexivity.
  - rewrite Hy. exact IH.
Qed.

(** No signal gives an issue that is marked as recovered. *)
Lemma consoleIssues_recovered (msg : ConsoleEvent) :
  Forall (fun i => i_recovered i = None) (consoleIssues msg).
Proof.
  unfold consoleIssues. destruct (shouldIgnore _ _); [constructor|].
  destruct (findPatternInfo _); repeat constructor.
Qed.

Lemma pageErrorIssues_recovered (error : BrowserEvent) :
  Forall (fun i => i_recovered i = None) (pageErrorIssues error).
Proof.
  unfold pageErrorIssues. destruct (findPatternInfo _); repeat constructor.
Qed.

Lemma testTraceIssues_recovered (event : TraceEvent) :
  Forall (fun i => i_recovered i = None) (testTraceIssues event).
Proof.
  unfold testTraceIssues. destruct event; try constructor;
    try solve [destruct (findPatternInfo _); repeat constructor].
  destruct (truthy _); [|constructor].
  destruct (findPatternInfo _); repeat constructor.
Qed.

(** The number of issues of a category, and the test for a critical
    one, in the counts by category. *)
Lemma count_lookup (l : list DiagnosticIssue) (c : jsstring) :
  default 0 (foldl countCategory ∅ l !! c)
  = Z.of_nat (length (List.filter (fun i => bool_decide (i_category i = c)) l)).
Proof. rewrite countCategory_lookup, lookup_empty. simpl. lia. Qed.

Lemma hasCritical_spec (l : list DiagnosticIssue) :
  negb (orNum (foldl countCategory ∅ l !! lit "Test Assertion Failed")
          (orNum (foldl countCategory ∅ l !! lit "HTTP 5xx Error") 0) =? 0)
  = existsb (fun i => isCritical (i_category i)) l.
Proof.
  rewrite orNum_or, orNum_default, !count_lookup.
  set (isA := fun i => bool_decide (i_category i = lit "Test Assertion Failed")).
  set (isB := fun i => bool_decide (i_category i = lit "HTTP 5xx Error")).
  set (cA := Z.of_nat (length (List.filter isA l))).
  set (cB := Z.of_nat (length (List.filter isB l))).
  destruct (existsb _ l) eqn:E.
  - assert (Hpos : 0 < cA \/ 0 < cB).
    { apply existsb_exists in E as (x & Hx & Hc). apply list_elem_of_In in Hx.
      unfold isCritical in Hc. apply orb_true_iff in Hc as [Hc|Hc].
      - left. pose proof (filter_elem_pos isA l x Hx Hc). unfold cA. lia.
      - right. pose proof (filter_elem_pos isB l x Hx Hc). unfold cB. lia. }
    assert (0 <= cA /\ 0 <= cB) as [HA HB] by (unfold cA, cB; lia).
    destruct (Z.eqb_spec cA 0) as [E0|E0].
    + destruct (Z.eqb_spec cB 0); [lia | reflexivity].
    + destruct (Z.eqb_spec cA 0); [lia | reflexivity].
  - assert (Hall : forall c, isCritical c = true ->
              List.filter (fun i => bool_decide (i_category i = c)) l = []).
    { intros c Hc. apply filter_none, Forall_forall. intros x Hx.
      apply bool_decide_eq_false. intros <-.
      apply not_true_iff_false in E. apply E, existsb_exists.
      exists x. split; [apply list_elem_of_In, Hx | exact Hc]. }
    unfold cA, cB, isA, isB. rewrite !Hall by reflexivity. reflexivity.
Qed.

Lemma find_not_recovered (l : list DiagnosticIssue) :
  Forall (fun i => isRecovered i = false) l ->
  find (fun i => negb (isRecovered i) && isCritical (i_category i)) l
  = find (fun i => isCritical (i_category i)) l.
Proof.
  induction 1 as [|i l Hi Hall IH]; cbn [find]; [reflexivity|].
  rewrite Hi, IH. reflexivity.
Qed.

Section MoreDiagnose.
Context `{Node} `{Decoder TraceEvent}.

Lemma collectIssues_fst (ctx : TraceContext) :
  exists fromTestTrace,
    fst (collectIssues ctx)
    = (consoleMessages ctx ≫= consoleIssues) ++ (errors ctx ≫= pageErrorIssues)
      ++ (fromTestTrace ≫= testTraceIssues)
      ++ match loadErrorContext (tracePath ctx) with
         | Some ec => [errorContextIssue ec]
         | None => []
         end.
Proof.
  unfold collectIssues, bind, ret. destruct (existsSync _).
  - destruct (parseJsonlFile _) as [testTrace w]. exists testTrace. reflexivity.
  - exists []. reflexivity.
Qed.

Lemma collected_not_recovered (ctx : TraceContext) :
  Forall (fun i => i_recovered i = None) (fst (collectIssues ctx)).
Proof.
  destruct (collectIssues_fst ctx) as [testTrace ->]. rewrite !Forall_app.
  split; [|split; [|split]].
  - apply Forall_bind, Forall_forall. intros x _. apply consoleIssues_recovered.
  - apply Forall_bind, Forall_forall. intros x _. apply pageErrorIssues_recovered.
  - apply Forall_bind, Forall_forall. intros x _. apply testTraceIssues_recovered.
  - destruct (loadErrorContext _); repeat constructor.
Qed.

Lemma unique_sublist (ctx : TraceContext) :
  uniqueIssuesOf ctx `sublist_of` sortedIssuesOf ctx.
Proof. apply deduplicate_spec, sortedIssues_ascending. Qed.

Lemma unique_recovered_none (ctx : TraceContext) :
  Forall (fun i => i_recovered i = None) (uniqueIssuesOf ctx).
Proof.
  apply Forall_forall. intros i Hi.
  assert (Hs : i ∈ sortedIssuesOf ctx)
    by (eapply elem_of_sublist; [exact Hi | apply unique_sublist]).
  apply sort_elem_of in Hs.
  pose proof (collected_not_recovered ctx) as Hall. rewrite Forall_forall in Hall.
  exact (Hall i Hs).
Qed.

Lemma unique_not_recovered (ctx : TraceContext) :
  Forall (fun i => isRecovered i = false) (uniqueIssuesOf ctx).
Proof.
  eapply Forall_impl; [apply unique_recovered_none|].
  intros i Hi. unfold isRecovered. rewrite Hi. reflexivity.
Qed.

(** The report, in terms of the deduplicated issues alone. *)
Lemma getDiagnoseResults_eq (ctx : TraceContext) (verbose : bool) :
  let u := uniqueIssuesOf ctx in
  let n := Z.of_nat (length u) in
  let primaryIssue :=
    orElse (find (fun i => isCritical (i_category i)) u) (head u) in
  getDiagnoseResults ctx verbose
  = ({| summary :=
          if n =? 0 then [9989%N] ++ lit " No known error patterns detected"
          else if existsb (fun i => isCritical (i_category i)) u then
            [55357%N; 57000%N] ++ lit " CRITICAL ISSUES FOUND - " ++ ofZ n
            ++ lit " unique error(s) detected"
          else
            [9888%N; 65039%N] ++ lit "  " ++ ofZ n
            ++ lit " potential issue(s) detected";
        issueCount := n;
        recoveredCount := None;
        byCategory := foldl countCategory ∅ u;
        primaryExplanation :=
          if n =? 0 then lit "No known error patterns were detected in the trace."
          else default [] (i_explanation <$> primaryIssue);
        primaryRecommendation :=
          if n =? 0
          then lit "Trace looks clean. If test still fails, check server logs."
          else default [] (i_solution <$> primaryIssue);
        issues := report <$> take 10 u |},
     snd (collectIssues ctx)).
Proof.
  intros u n primaryIssue.
  assert (Hnon : List.filter (fun i => negb (isRecovered i)) u = u).
  { apply filter_all. apply Forall_forall. intros i Hi.
    pose proof (unique_not_recovered ctx) as Hall. rewrite Forall_forall in Hall.
    rewrite (Hall i Hi). reflexivity. }
  assert (Hrec : List.filter isRecovered u = [])
    by apply filter_none, unique_not_recovered.
  assert (Hfind : find (fun i => negb (isRecovered i) && isCritical (i_category i)) u
                  = find (fun i => isCritical (i_category i)) u).
  { apply find_not_recovered, unique_not_recovered. }
  pose proof (hasCritical_spec u) as Hcrit.
  unfold primaryIssue, n, u in *. clear u n primaryIssue.
  unfold uniqueIssuesOf, sortedIssuesOf in *.
  unfold getDiagnoseResults, bind.
  remember (collectIssues ctx) as cw eqn:Ecw. destruct cw as [collected w].
  cbn [fst snd] in *. cbv zeta.
  rewrite Hnon, Hrec, Hcrit.
  assert (Hverbose : (if verbose then deduplicate (sort byIssueTime collected)
                      else deduplicate (sort byIssueTime collected))
                     = deduplicate (sort byIssueTime collected))
    by (destruct verbose; reflexivity).
  rewrite Hverbose, Hfind, (slice_take _ 10), !or_else_nil.
  destruct (deduplicate (sort byIssueTime collected)) as [|i0 rest];
    cbn [length Nat.eqb]; cbv beta iota zeta delta [ret];
    rewrite (app_nil_r w); reflexivity.
Qed.

(** X18: the [verbose] option changes nothing. No signal gives an
    issue that is marked as recovered, so the report and the warnings
    are the same with the option and without it, every deduplicated
    issue is active, no count of recovered issues is given, and no
    listed issue is marked. *)
Theorem verbose_is_immaterial (ctx : TraceContext) :
  getDiagnoseResults ctx true = getDiagnoseResults ctx false /\
  forall verbose,
    activeIssuesOf ctx verbose = uniqueIssuesOf ctx /\
    recoveredCount (reportOf ctx verbose) = None /\
    forall r, r ∈ issues (reportOf ctx verbose) -> r_recovered r = None.
Proof.
  split.
  - pose proof (getDiagnoseResults_eq ctx true) as Et.
    pose proof (getDiagnoseResults_eq ctx false) as Ef.
    cbv zeta in Et, Ef. rewrite Et, Ef. reflexivity.
  - intros verbose. split; [|split].
    + unfold activeIssuesOf, nonRecoveredOf. destruct verbose; [reflexivity|].
      apply filter_all. eapply Forall_impl; [apply unique_not_recovered|].
      intros i Hi. cbn beta. rewrite Hi. reflexivity.
    + unfold reportOf. pose proof (getDiagnoseResults_eq ctx verbose) as E.
      cbv zeta in E. rewrite E. reflexivity.
    + unfold reportOf. pose proof (getDiagnoseResults_eq ctx verbose) as E.
      cbv zeta in E. rewrite E. cbn [fst issues].
      intros r Hr. apply list_elem_of_fmap in Hr as (i & -> & Hi).
      cbn [report r_recovered].
      pose proof (unique_recovered_none ctx) as Hall. rewrite Forall_forall in Hall.
      apply Hall. eapply elem_of_sublist; [exact Hi | apply sublist_take].
Qed.

(** X19: the summary and the primary diagnosis. Without an issue the
    trace is reported as clean. With an issue of a critical category,
    [Test Assertion Failed] or [HTTP 5xx Error], the summary announces
    critical issues and the primary diagnosis is that of the earliest
    critical issue. Otherwise the summary counts potential issues and
    the primary diagnosis is that of the earliest issue. *)
Theorem summary_verdict (ctx : TraceContext) (verbose : bool) :
  let r := reportOf ctx verbose in
  let u := uniqueIssuesOf ctx in
  let n := ofZ (Z.of_nat (length u)) in
  (u = [] ->
   summary r = [9989%N] ++ lit " No known error patterns detected" /\
   primaryExplanation r = lit "No known error patterns were detected in the trace." /\
   primaryRecommendation r
   = lit "Trace looks clean. If test still fails, check server logs.") /\
  (forall pre c post, u = pre ++ c :: post ->
     Forall (fun i => isCritical (i_category i) = false) pre ->
     isCritical (i_category c) = true ->
     summary r = [55357%N; 57000%N] ++ lit " CRITICAL ISSUES FOUND - " ++ n
                 ++ lit " unique error(s) detected" /\
     primaryExplanation r = i_explanation c /\
     primaryRecommendation r = i_solution c) /\
  (forall first rest, u = first :: rest ->
     Forall (fun i => isCritical (i_category i) = false) u ->
     summary r = [9888%N; 65039%N] ++ lit "  " ++ n
                 ++ lit " potential issue(s) detected" /\
     primaryExplanation r = i_explanation first /\
     primaryRecommendation r = i_solution first).
Proof.
  intros r u n. unfold r, reportOf.
  pose proof (getDiagnoseResults_eq ctx verbose) as E. cbv zeta in E. rewrite E.
  cbn [fst summary primaryExplanation primaryRecommendation]. fold u. clear E.
  split; [|split].
  - intros Hu. rewrite Hu. split; [|split]; reflexivity.
  - intros pre c post Hu Hpre Hc.
    assert (Hn : (Z.of_nat (length u) =? 0) = false).
    { apply Z.eqb_neq. rewrite Hu, length_app. simpl. lia. }
    assert (Hex : existsb (fun i => isCritical (i_category i)) u = true).
    { apply existsb_exists. exists c. split; [|exact Hc].
      rewrite Hu. apply in_or_app. right. left. reflexivity. }
    assert (Hf : find (fun i => isCritical (i_category i)) u = Some c).
    { rewrite Hu. apply find_first; assumption. }
    rewrite Hn, Hex, Hf. split; [|split]; reflexivity.
  - intros first rest Hu Hnone.
    assert (Hn : (Z.of_nat (length u) =? 0) = false).
    { apply Z.eqb_neq. rewrite Hu. simpl. lia. }
    assert (Hex : existsb (fun i => isCritical (i_category i)) u = false).
    { apply not_true_iff_false. intros Hex.
      apply existsb_exists in Hex as (x & Hx & Hc).
      rewrite Forall_forall in Hnone. apply list_elem_of_In in Hx.
      rewrite (Hnone x Hx) in Hc. discriminate. }
    assert (Hf : find (fun i => isCritical (i_category i)) u = None)
      by (apply find_None; exact Hnone).
    assert (Hh : head u = Some first) by (rewrite Hu; reflexivity).
    rewrite Hn, Hex, Hf, Hh. split; [|split]; reflexivity.
Qed.

(** X20: an error-context document is always diagnosed. When one
    loads, it has an issue that stands for it among the deduplicated
    ones, so the report is never clean; and when its message matches
    no known pattern the issue is a [Test Assertion Failed], which
    makes the summary critical. *)
Theorem document_is_diagnosed (ctx : TraceContext) (verbose : bool)
    (ec : ErrorContext) :
  loadErrorContext (tracePath ctx) = Some ec ->
  let r := reportOf ctx verbose in
  (exists e, e ∈ uniqueIssuesOf ctx /\ standsFor e (errorContextIssue ec)) /\
  1 <= issueCount r /\
  summary r <> [9989%N] ++ lit " No known error patterns detected" /\
  (findPatternInfo (ec_errorMessage ec) = None ->
   1 <= default 0 (byCategory r !! lit "Test Assertion Failed") /\
   summary r = [55357%N; 57000%N] ++ lit " CRITICAL ISSUES FOUND - "
               ++ ofZ (issueCount r) ++ lit " unique error(s) detected").
Proof.
  intros Hec r.
  assert (Hin : errorContextIssue ec ∈ sortedIssuesOf ctx).
  { apply sort_elem_of. destruct (collectIssues_fst ctx) as [testTrace ->].
    rewrite Hec, !elem_of_app. right. right. right. left. }
  destruct (deduplicate_spec (sortedIssuesOf ctx) (sortedIssues_ascending ctx))
    as (_ & _ & Hrep).
  destruct (Hrep _ Hin) as (e & He & Hst). fold (uniqueIssuesOf ctx) in He.
  assert (Hlen : (0 < length (uniqueIssuesOf ctx))%nat).
  { destruct (uniqueIssuesOf ctx); [inversion He | simpl; lia]. }
  unfold r, reportOf.
  pose proof (getDiagnoseResults_eq ctx verbose) as E. cbv zeta in E. rewrite E.
  cbn [fst summary issueCount byCategory]. clear E.
  assert (Hn : (Z.of_nat (length (uniqueIssuesOf ctx)) =? 0) = false)
    by (apply Z.eqb_neq; lia).
  rewrite Hn.
  split; [exists e; auto|]. split; [lia|]. split.
  - destruct (existsb _ _); discriminate.
  - intros Hnone.
    assert (Hcat : i_category e = lit "Test Assertion Failed").
    { destruct Hst as [-> _]. unfold errorContextIssue. cbn [i_category].
      rewrite Hnone. reflexivity. }
    split.
    + rewrite count_lookup.
      pose proof (filter_elem_pos
                    (fun i => bool_decide (i_category i = lit "Test Assertion Failed"))
                    _ e He ltac:(apply bool_decide_eq_true; exact Hcat)).
      lia.
    + assert (Hex : existsb (fun i => isCritical (i_category i)) (uniqueIssuesOf ctx)
                    = true).
      { apply existsb_exists. exists e. split; [apply list_elem_of_In, He|].
        rewrite Hcat. reflexivity. }
      rewrite Hex. reflexivity.
Qed.

End MoreDiagnose.

(** X20, at scenario D. *)
Lemma document_is_diagnosed_witness :
  let ctx := @contextOf scenarioD eventDecoder "/r/t/unzipped" in
  let ec := {| ec_testName := "sample app loads";
               ec_errorMessage := "Expected visible, got hidden";
               ec_errorLocation := "e2e/sample.spec.ts:3:5" |} in
  @loadErrorContext scenarioD (tracePath ctx) = Some ec /\
  1 <= issueCount (@reportOf scenarioD eventDecoder ctx false).
Proof.
  assert (Hl : @loadErrorContext scenarioD
                 (tracePath (@contextOf scenarioD eventDecoder "/r/t/unzipped"))
               = Some {| ec_testName := "sample app loads";
                         ec_errorMessage := "Expected visible, got hidden";
                         ec_errorLocation := "e2e/sample.spec.ts:3:5" |})
    by (vm_compute; reflexivity).
  split; [exact Hl|].
  exact (proj1 (proj2 (@document_is_diagnosed scenarioD eventDecoder _ false _ Hl))).
Defined.

(** ** Noise in the console *)

(** And the search finds it anywhere in a text. *)
Lemma search_str (ignore : bool) (w pre m post : jsstring) (atStart : bool) :
  w <> [] ->
  canonicalize ignore <$> m = canonicalize ignore <$> w ->
  is_Some (search ignore (str w) atStart (pre ++ m ++ post)).
Proof.
  intros Hw Hm. revert atStart. induction pre as [|y pre IH]; intros atStart.
  - assert (Hfound : matcher ignore (Group 0 (str w)) atStart (m ++ post) []
                       (fun _ _ caps => Some caps)
                     = Some [(0%nat, take (length (m ++ post) - length post) (m ++ post))]).
    { cbn [matcher]. rewrite (matcher_str ignore w Hw m post) by exact Hm. reflexivity. }
    cbn [app]. destruct (m ++ post) as [|x s]; cbn [search]; rewrite Hfound; eauto.
  - cbn [app search].
    destruct (matcher ignore (Group 0 (str w)) atStart (y :: pre ++ m ++ post) []
                (fun _ _ caps => Some caps)); [eauto | apply IH].
Qed.

Lemma test_word (w s : jsstring) :
  w <> [] -> holdsFolded w s -> test (insensitive (str w)) s = true.
Proof.
  intros Hw (pre & m & post & -> & Hm). unfold test, exec.
  cbn [insensitive ignoreCase source].
  destruct (search_str true w pre m post true Hw Hm) as [caps ->]. reflexivity.
Qed.

Lemma holdsFolded_app (w a s b : jsstring) :
  holdsFolded w s -> holdsFolded w (a ++ s ++ b).
Proof.
  intros (pre & m & post & -> & Hm). exists (a ++ pre), m, (post ++ b).
  split; [|exact Hm]. rewrite <- !app_assoc. reflexivity.
Qed.

(** X21: a message of the console that names the error tracker, in
    its text or in the address of its location, in any case of the
    letters, gives no issue, whatever known pattern its text has. *)
Theorem tracker_noise_ignored (msg : ConsoleEvent) :
  holdsFolded "sentry" (ce_text msg) \/
  (exists loc, ce_location msg = Some loc /\ holdsFolded "sentry" (url loc)) ->
  consoleIssues msg = [].
Proof.
  intros Hnoise. unfold consoleIssues.
  assert (Hignore : shouldIgnore (ce_text msg) (url <$> ce_location msg) = true);
    [|rewrite Hignore; reflexivity].
  unfold shouldIgnore, some, ignorePatterns. cbn [existsb].
  apply orb_true_iff. left. apply test_word; [discriminate|].
  destruct Hnoise as [Htext | (loc & Hloc & Hurl)].
  - apply (holdsFolded_app _ [] _ _ Htext).
  - rewrite Hloc. cbn [fmap option_fmap option_map default from_option id].
    rewrite or_else_nil.
    pose proof (holdsFolded_app _ (ce_text msg ++ lit " ") _ [] Hurl) as Hc.
    rewrite app_nil_r, <- app_assoc in Hc. exact Hc.
Qed.

(** X21, at a message of the tracker about a timeout. *)
Lemma tracker_noise_ignored_witness :
  holdsFolded "sentry" (ce_text trackerNoise) /\
  is_Some (findPatternInfo (ce_text trackerNoise)) /\
  consoleIssues trackerNoise = [].
Proof.
  assert (Hnoise : holdsFolded "sentry" (ce_text trackerNoise)).
  { exists [], (lit "Sentry"), (lit " Logger: Timed out 3000ms waiting for flush").
    split; reflexivity. }
  split; [exact Hnoise|]. split; [vm_compute; eauto|].
  apply tracker_noise_ignored. left. exact Hnoise.
Defined.

(** ** Patterns with a star *)

(** A greedy star of a pattern for one code unit succeeds on a text
    that starts with units of that kind, when what follows the star
    succeeds after them. *)
Lemma starLoop_some (ignore : bool) (r' : regex) (p : N -> bool)
    (k : bool -> jsstring -> captures -> option captures) (caps : captures)
    (rest : jsstring) :
  (forall a x s K, p x = true ->
     matcher ignore r' a (x :: s) caps K = K false s caps) ->
  (forall a, is_Some (k a rest caps)) ->
  forall (mid : jsstring) (fuel : nat) (a : bool),
    Forall (fun x => p x = true) mid -> (length mid < fuel)%nat ->
    is_Some (starLoop ignore true r' k fuel a (mid ++ rest) caps).
Proof.
  intros Hone Hk mid. induction mid as [|x mid IH]; intros fuel a Hmid Hfuel.
  - destruct fuel as [|fuel]; cbn [app starLoop]; [apply Hk|].
    destruct (matcher ignore r' a rest caps _); cbn [orElse]; [eauto | apply Hk].
  - destruct fuel as [|fuel]; [simpl in Hfuel; lia|].
    inversion Hmid as [|? ? Hx Hmid']; subst.
    cbn [app starLoop]. rewrite Hone by exact Hx.
    assert (Hlt : (length (mid ++ rest) <? length (x :: mid ++ rest))%nat = true)
      by (apply Nat.ltb_lt; simpl; lia).
    rewrite Hlt.
    destruct (IH fuel false Hmid' ltac:(simpl in Hfuel; lia)) as [c Hc].
    fold (starLoop ignore true r' k). rewrite Hc. cbn [orElse]. eauto.
Qed.

(** And when it succeeds, it has passed units of that kind, and what
    follows the star has succeeded after them. *)
Lemma starLoop_inv (ignore : bool) (r' : regex) (p : N -> bool)
    (k : bool -> jsstring -> captures -> option captures) (caps : captures) :
  (forall a s K c, matcher ignore r' a s caps K = Some c ->
     exists x s', s = x :: s' /\ p x = true /\ K false s' caps = Some c) ->
  forall (fuel : nat) (a : bool) (s : jsstring) (c : captures),
    starLoop ignore true r' k fuel a s caps = Some c ->
    exists mid rest a',
      s = mid ++ rest /\ Forall (fun x => p x = true) mid /\
      k a' rest caps = Some c.
Proof.
  intros Hone fuel. induction fuel as [|fuel IH]; intros a s c Hc.
  - exists [], s, a. split; [reflexivity|]. split; [constructor | exact Hc].
  - cbn [starLoop] in Hc. fold (starLoop ignore true r' k) in Hc.
    match type of Hc with
    | orElse ?again _ = _ => destruct again as [c'|] eqn:Hagain
    end; cbn [orElse] in Hc.
    + injection Hc as ->.
      apply Hone in Hagain as (x & s' & -> & Hx & Hloop).
      destruct (length s' <? length (x :: s'))%nat; [|discriminate].
      apply IH in Hloop as (mid & rest & a' & -> & Hmid & Hk).
      exists (x :: mid), rest, a'. split; [reflexivity|].
      split; [constructor; assumption | exact Hk].
    + exists [], s, a. split; [reflexivity|]. split; [constructor | exact Hc].
Qed.



Lemma matcher_Digit (ignore : bool) (a : bool) (x : N) (s : jsstring)
    (caps : captures) (k : bool -> jsstring -> captures -> option captures) :
  ((48 <=? x) && (x <=? 57))%N = true ->
  matcher ignore Digit a (x :: s) caps k = k false s caps.
Proof. intros Hx. cbn [matcher single]. rewrite Hx. reflexivity. Qed.

Lemma matcher_Digit_inv (ignore : bool) (a : bool) (s : jsstring)
    (caps : captures) (k : bool -> jsstring -> captures -> option captures)
    (c : captures) :
  matcher ignore Digit a s caps k = Some c ->
  exists x s', s = x :: s' /\ ((48 <=? x) && (x <=? 57))%N = true /\
    k false s' caps = Some c.
Proof.
  destruct s as [|x s']; cbn [matcher single]; [discriminate|].
  destruct ((48 <=? x) && (x <=? 57))%N eqn:Hx; [|discriminate].
  intros Hk. exists x, s'. auto.
Qed.

Lemma matcher_Bol (ignore : bool) (s : jsstring)
    (caps : captures) (k : bool -> jsstring -> captures -> option captures) :
  matcher ignore Bol true s caps k = k true s caps.
Proof. reflexivity. Qed.

(** A pattern anchored at the start matches nowhere else. *)
Lemma search_anchored (ignore : bool) (r : regex) (s : jsstring) :
  search ignore (Seq Bol r) false s = None.
Proof. induction s as [|x s IH]; cbn [search matcher]; [reflexivity | exact IH]. Qed.

(** ** Timeouts *)




(** ** The shard files *)

Lemma digit_test (x : N) : ((48 <=? x) && (x <=? 57))%N = true <-> (48 <= x <= 57)%N.
Proof. rewrite andb_true_iff, !N.leb_le. reflexivity. Qed.

(** The pattern of the shard files matches the shard names, and
    nothing else. *)
Lemma test_numberedTrace (f : jsstring) : test numberedTrace f = true <-> shardName f.
Proof.
  unfold test, exec, numberedTrace, seq, plus. cbn [source ignoreCase foldr].
  set (tail := Seq (str "-trace.trace") (Seq Eol Empty)).
  split.
  - destruct (search false _ true f) as [c|] eqn:Hs; [intros _ | discriminate].
    destruct f as [|x f]; cbn [search] in Hs.
    + cbn [matcher single] in Hs. discriminate.
    + rewrite search_anchored in Hs.
      destruct (matcher false _ true (x :: f) [] _) as [c'|] eqn:Hm; [|discriminate].
      clear Hs.
      rewrite matcher_Group, matcher_Seq, matcher_Bol, !matcher_Seq in Hm.
      apply matcher_Digit_inv in Hm as (x' & f' & [= <- <-] & Hx & Hm).
      rewrite matcher_star in Hm.
      apply (starLoop_inv false Digit (fun x => (48 <=? x) && (x <=? 57))%N) in Hm
        as (mid & rest & a' & -> & Hmid & Hk);
        [|intros a0 s0 K c0 H0; apply matcher_Digit_inv in H0; exact H0].
      unfold tail in Hk. rewrite matcher_Seq in Hk.
      apply matcher_str_inv in Hk as (rest' & -> & Hk); [|discriminate].
      destruct rest' as [|y rest']; [|cbn [matcher] in Hk; discriminate].
      exists x, mid. rewrite app_nil_r. split; [reflexivity|].
      constructor; [apply digit_test, Hx|].
      eapply Forall_impl; [exact Hmid|]. intros y Hy. apply digit_test, Hy.
  - intros (d & ds & -> & Hds). inversion Hds as [|? ? Hd Hds']; subst.
    cbn [search].
    match goal with
    | |- match (match ?m with _ => _ end) with _ => _ end = _ =>
        assert (Hm : is_Some m); [|destruct Hm as [c ->]; reflexivity]
    end.
    rewrite matcher_Group, matcher_Seq, matcher_Bol, !matcher_Seq.
    rewrite matcher_Digit by (apply digit_test, Hd).
    rewrite matcher_star.
    rewrite <- (app_nil_r (lit "-trace.trace")).
    apply (starLoop_some false Digit (fun x => (48 <=? x) && (x <=? 57))%N).
    + intros a x s K Hx. apply matcher_Digit, Hx.
    + intros a. unfold tail. rewrite matcher_Seq.
      rewrite (matcher_str false (lit "-trace.trace") ltac:(discriminate)
                 (lit "-trace.trace") []) by reflexivity.
      cbn [matcher]. eauto.
    + eapply Forall_impl; [exact Hds'|]. intros y Hy. apply digit_test, Hy.
    + rewrite length_app. lia.
Qed.

Section Shards.
Context `{Node} `{Decoder TraceEvent}.

(** X23: the files that the builder reads as shards are the entries
    of the trace directory whose name is digits, one at least, and
    [-trace.trace], and no other entry; [test.trace] is not one of
    them. They are read in the order of their names as strings, and
    the events of the trace are those of the shards in that order. *)
Theorem shards_read (traceDir : jsstring) :
  (forall f, f ∈ traceFilesOf traceDir <-> f ∈ readdirSync traceDir /\ shardName f) /\
~ (lit "test.trace" ∈ traceFilesOf traceDir) /\
  (forall i j a b, (i < j)%nat ->
     traceFilesOf traceDir !! i = Some a -> traceFilesOf traceDir !! j = Some b ->
     Str.leb a b = true) /\
  browserEventsOf traceDir
  = concat ((fun f => fst (parseJsonlFile (path_join traceDir f)))
            <$> traceFilesOf traceDir).
Proof.
  destruct (traceFilesOf_spec traceDir) as [Hin Hsorted].
  assert (Hshard : forall f, f ∈ traceFilesOf traceDir <->
                     f ∈ readdirSync traceDir /\ shardName f).
  { intros f. rewrite Hin, test_numberedTrace. reflexivity. }
  split; [exact Hshard|]. split; [|split].
  - intros Hf. apply Hshard in Hf as (_ & d & ds & [= <- _] & Hds).
    inversion Hds as [|? ? Hd _]. lia.
  - intros i j a b Hij Ha Hb.
    exact (StronglySorted_lookup_lt _ _ Hsorted i j a b Hij Ha Hb).
  - apply browserEvents_concat.
Qed.

End Shards.

(** ** The size of what is reported *)

Lemma slice_cap (text : jsstring) (n : nat) :
  (length (slice text 0 (Z.of_nat n)) <= n)%nat.
Proof. rewrite slice_take, length_take. lia. Qed.

Lemma issueOf_cap (info : ErrorPattern) (t : Z) (src : IssueSource) (text : jsstring) :
  (length (i_text (issueOf info t src text)) <= 800)%nat.
Proof. apply (slice_cap text 800). Qed.

Lemma consoleIssues_cap (msg : ConsoleEvent) :
  Forall (fun i => (length (i_text i) <= 800)%nat) (consoleIssues msg).
Proof.
  unfold consoleIssues. destruct (shouldIgnore _ _); [constructor|].
  destruct (findPatternInfo _); [|constructor].
  constructor; [apply issueOf_cap | constructor].
Qed.

Lemma pageErrorIssues_cap (error : BrowserEvent) :
  Forall (fun i => (length (i_text i) <= 800)%nat) (pageErrorIssues error).
Proof.
  unfold pageErrorIssues. destruct (findPatternInfo _); [|constructor].
  constructor; [apply issueOf_cap | constructor].
Qed.

Lemma testTraceIssues_cap (event : TraceEvent) :
  Forall (fun i => (length (i_text i) <= 800)%nat) (testTraceIssues event).
Proof.
  unfold testTraceIssues. destruct event; try constructor;
    try solve [destruct (findPatternInfo _); [|constructor];
               constructor; [apply issueOf_cap | constructor]].
  destruct (truthy _); [|constructor].
  destruct (findPatternInfo _); [|constructor].
  constructor; [apply issueOf_cap | constructor].
Qed.

Section Sizes.
Context `{Node} `{Decoder TraceEvent}.

(** X24: what the report quotes is bounded. The text kept of a signal
    has 800 code units at most; the snippet of a listed issue is that
    text when it has 200 code units at most, and else its first 200
    code units followed by three dots, so 203 code units at most. *)
Theorem snippets_bounded (ctx : TraceContext) (verbose : bool) :
  Forall (fun i => (length (i_text i) <= 800)%nat) (uniqueIssuesOf ctx) /\
  forall r, r ∈ issues (reportOf ctx verbose) ->
    (length (r_snippet r) <= 203)%nat /\
    exists i, i ∈ uniqueIssuesOf ctx /\ r = report i /\
      ((length (i_text i) <= 200)%nat -> r_snippet r = i_text i) /\
      ((200 < length (i_text i))%nat ->
       r_snippet r = take 200 (i_text i) ++ lit "...").
Proof.
  assert (Hcollected : Forall (fun i => (length (i_text i) <= 800)%nat)
                         (fst (collectIssues ctx))).
  { destruct (collectIssues_fst ctx) as [testTrace ->]. rewrite !Forall_app.
    split; [|split; [|split]].
    - apply Forall_bind, Forall_forall. intros x _. apply consoleIssues_cap.
    - apply Forall_bind, Forall_forall. intros x _. apply pageErrorIssues_cap.
    - apply Forall_bind, Forall_forall. intros x _. apply testTraceIssues_cap.
    - destruct (loadErrorContext _) as [ec|]; [|constructor].
      constructor; [apply (slice_cap (ec_errorMessage ec) 800) | constructor]. }
  split.
  - apply Forall_forall. intros i Hi.
    assert (Hs : i ∈ sortedIssuesOf ctx)
      by (eapply elem_of_sublist; [exact Hi | apply unique_sublist]).
    apply sort_elem_of in Hs. rewrite Forall_forall in Hcollected.
    exact (Hcollected i Hs).
  - intros r Hr. unfold reportOf in Hr.
    pose proof (getDiagnoseResults_eq ctx verbose) as E. cbv zeta in E.
    rewrite E in Hr. cbn [fst issues] in Hr. clear E.
    apply list_elem_of_fmap in Hr as (i & -> & Hi).
    assert (Hu : i ∈ uniqueIssuesOf ctx)
      by (eapply elem_of_sublist; [exact Hi | apply sublist_take]).
    assert (Hsnip : r_snippet (report i)
                    = take 200 (i_text i)
                      ++ (if (200 <? length (i_text i))%nat then lit "..." else [])).
    { cbn [report r_snippet]. rewrite (slice_take _ 200). reflexivity. }
    split.
    + rewrite Hsnip, length_app, length_take.
      destruct (200 <? length (i_text i))%nat;
        [change (length (lit "...")) with 3%nat | change (@length N []) with 0%nat];
        lia.
    + exists i. split; [exact Hu|]. split; [reflexivity|]. split.
      * intros Hle. rewrite Hsnip.
        destruct (200 <? length (i_text i))%nat eqn:E;
          [apply Nat.ltb_lt in E; lia|].
        rewrite app_nil_r. apply take_ge. lia.
      * intros Hgt. rewrite Hsnip.
        apply Nat.ltb_lt in Hgt. rewrite Hgt. reflexivity.
Qed.

End Sizes.
